(** * omnimsg: wire-protocol framing, non-blocking receive, line input and
      the interaction loop

    Shallow embedding of [src/omnimsg.c] and [src/net_compat.h].

    - C character arrays are [list ascii]; a C string is the prefix of the
      array that precedes the first NUL byte, and the end of the list stands
      for the terminating NUL.  A pointer that may be [NULL] is an [option].
    - [int] values are [Z]; the conversions of a [size_t]/[ptrdiff_t] to
      [int] are written out as a wrap-around to 32 bits.
    - The operating system (socket queue, standard input, console) is an
      explicit [world] record threaded through the stateful functions. *)

From Stdlib Require Import ZArith List Ascii String Bool Lia.
Import ListNotations.
Local Open Scope Z_scope.

(* ------------------------------------------------------------------ *)
(** ** Constants of [omnimsg.c] *)

Definition DEFAULT_PORT : Z := 24250.
Definition MAX_NICK : Z := 32.
Definition MAX_TEXT : Z := 512.
Definition MAX_PKT : Z := 768.

(* ------------------------------------------------------------------ *)
(** ** C characters and strings *)

Definition NUL : ascii := "000"%char.
Definition CR : ascii := "013"%char.
Definition LF : ascii := "010"%char.
Definition BAR : ascii := "|"%char.

Definition is_nul (c : ascii) : bool := Ascii.eqb c NUL.

(** The value of a [char] read as [unsigned char]. *)
Definition uchar (c : ascii) : Z := Z.of_nat (nat_of_ascii c).

(** A string literal as a character array (without its terminator). *)
Definition lit (s : string) : list ascii := list_ascii_of_string s.

(** The C string stored in a character array: everything before the first
    NUL. *)
Fixpoint c_str (m : list ascii) : list ascii :=
  match m with
  | [] => []
  | c :: r => if is_nul c then [] else c :: c_str r
  end.

(** Conversion of a non-negative size to [int] (two's complement, 32 bits). *)
Definition INT_MAX : Z := 2147483647.
Definition to_int (z : Z) : Z := (z + 2147483648) mod 4294967296 - 2147483648.

Definition strlen (m : list ascii) : Z := Z.of_nat (List.length (c_str m)).

(** [strncmp a b n]: compares at most [n] characters, stopping after a NUL. *)
Fixpoint strncmp (a b : list ascii) (n : nat) : Z :=
  match n with
  | O => 0
  | S n' =>
      let ca := hd NUL a in
      let cb := hd NUL b in
      if negb (Ascii.eqb ca cb) then uchar ca - uchar cb
      else if is_nul ca then 0
      else strncmp (tl a) (tl b) n'
  end.

(** [strcmp a b]. *)
Fixpoint strcmp (a b : list ascii) : Z :=
  match a with
  | [] => 0 - uchar (hd NUL b)
  | ca :: ra =>
      let cb := hd NUL b in
      if negb (Ascii.eqb ca cb) then uchar ca - uchar cb
      else if is_nul ca then 0
      else strcmp ra (tl b)
  end.

(** [strchr s ch]: offset of the first [ch] in the C string [s] (the
    terminator counts as part of the string), or [None] for [NULL]. *)
Fixpoint strchr (s : list ascii) (ch : ascii) : option nat :=
  match s with
  | [] => if is_nul ch then Some O else None
  | c :: r =>
      if Ascii.eqb c ch then Some O
      else if is_nul c then None
      else option_map S (strchr r ch)
  end.

(** [snprintf(out, size, "%s", s)] for [size > 0]: at most [size - 1]
    characters of the C string are stored, then the terminator. *)
Definition snprintf_s (size : Z) (s : list ascii) : list ascii :=
  firstn (Z.to_nat (size - 1)) (c_str s).

(* ------------------------------------------------------------------ *)
(** ** Packet codec: [OM1|<nick>|<text>] *)

Definition is_crlf (c : ascii) : bool := Ascii.eqb c CR || Ascii.eqb c LF.

(** The copy loop of [format_packet]:
    [for (i = 0; text[i] && j < sizeof(tmp) - 1; i++)], started with [j]
    characters already stored; the result is what is stored from index [j]
    on. *)
Fixpoint format_packet_loop (text : list ascii) (j : Z) : list ascii :=
  match text with
  | [] => []
  | c :: rest =>
      if is_nul c then []
      else if j <? MAX_TEXT - 1 then
        if is_crlf c then format_packet_loop rest j
        else c :: format_packet_loop rest (j + 1)
      else []
  end.

(** [snprintf(out, out_size, "OM1|%s|%s", nick, tmp)]. *)
Definition snprintf_OM1 (out_size : Z) (nick tmp : list ascii) : list ascii :=
  firstn (Z.to_nat (out_size - 1))
         (lit "OM1|" ++ c_str nick ++ lit "|" ++ c_str tmp).

(** [format_packet(out, out_size, nick, text)]; the result is the content
    of [out] after the call. *)
Definition format_packet (out : option (list ascii)) (out_size : Z)
    (nick text : option (list ascii)) : option (list ascii) :=
  match out with
  | None => None
  | Some o =>
      if out_size <=? 0 then Some o
      else
        let nick := match nick with Some n => n | None => lit "anon" end in
        let text := match text with Some t => t | None => lit "" end in
        let tmp := format_packet_loop text 0 in
        Some (snprintf_OM1 out_size nick tmp)
  end.

(** [parse_packet(pkt, nick_out, nick_out_size, text_out, text_out_size)]:
    the return value and the contents of the two output buffers after the
    call. *)
Definition parse_packet (pkt : option (list ascii))
    (nick_out : option (list ascii)) (nick_out_size : Z)
    (text_out : option (list ascii)) (text_out_size : Z)
  : Z * option (list ascii) * option (list ascii) :=
  match pkt, nick_out, text_out with
  | Some pkt, Some _, Some _ =>
      if (nick_out_size <=? 0) || (text_out_size <=? 0)
      then (-1, nick_out, text_out)
      else if negb (strncmp pkt (lit "OM1|") 4 =? 0)
      then (-1, Some [], Some [])
      else
        let p := skipn 4 pkt in
        match strchr p BAR with
        | None => (-1, Some [], Some [])
        | Some bar =>
            let nlen := to_int (Z.of_nat bar) in
            if nlen <=? 0 then (-1, Some [], Some [])
            else
              let nlen := if nlen >=? nick_out_size
                          then nick_out_size - 1 else nlen in
              let nick' := firstn (Z.to_nat nlen) p in
              let p := skipn (S bar) p in
              let tlen := to_int (strlen p) in
              let tlen := if tlen >=? text_out_size
                          then text_out_size - 1 else tlen in
              let text' := firstn (Z.to_nat tlen) p in
              (0, Some nick', Some text')
        end
  | _, _, _ => (-1, nick_out, text_out)
  end.

(** The codec as [main] uses it: a [MAX_PKT] packet buffer on the sending
    side, [MAX_NICK] and [MAX_TEXT] buffers on the receiving side. *)
Definition encode (nick text : list ascii) : option (list ascii) :=
  format_packet (Some []) MAX_PKT (Some nick) (Some text).

Definition decode (pkt : option (list ascii))
  : Z * option (list ascii) * option (list ascii) :=
  parse_packet pkt (Some []) MAX_NICK (Some []) MAX_TEXT.

(* ------------------------------------------------------------------ *)
(** ** The environment: socket, standard input, console *)

(** The three builds selected by the preprocessor: [_WIN32],
    [__human68k__], and the remaining POSIX case. *)
Inductive platform := Win32 | Posix | Human68k.

Record sockaddr_in := mk_sockaddr_in
  { sin_family : Z; sin_port : Z; sin_addr : Z }.

Definition SIZEOF_SOCKADDR_IN : Z := 16.

(** System constants (Linux values; Winsock for [WSAEWOULDBLOCK] and
    [WSAEMSGSIZE]). *)
Definition EAGAIN : Z := 11.
Definition EWOULDBLOCK : Z := 11.
Definition WSAEWOULDBLOCK : Z := 10035.
Definition WSAEMSGSIZE : Z := 10040.

(** What the next [recvfrom] on the socket meets: a queued datagram or a
    failure with the given error code. *)
Inductive sock_event :=
| Datagram (from : sockaddr_in) (data : list ascii)
| RecvError (err : Z).

(** What the next [read(0, ...)] meets (POSIX build). *)
Inductive stdin_event :=
| StdinBytes (bytes : list ascii)
| StdinError (err : Z).

(** Observable actions, in program order. *)
Inductive event :=
| EvGetsockopt (ok : bool)                  (* getsockopt(SO_SOCKLENRECV) *)
| EvRecvfrom (n : Z)                        (* recvfrom returned n *)
| EvRecvFailed (err : Z)                    (* "recvfrom() failed: ..." *)
| EvChat (addr : Z) (nick text : list ascii)  (* "[addr] nick: text" *)
| EvRaw (addr : Z) (raw : list ascii)       (* "[addr] raw" *)
| EvStdinPoll (r : Z)                       (* stdin_poll_line returned r *)
| EvFgets (ok : bool)                       (* fgets returned non-NULL? *)
| EvEcho (s : list ascii)                   (* console echo of typed keys *)
| EvStdinFailed                             (* "stdin read failed" *)
| EvHelp                                    (* "Commands: /quit, /help" *)
| EvPrompt                                  (* "> " *)
| EvSendto (pkt : list ascii) (dest : sockaddr_in) (r : Z)
| EvSleep (ms : Z).

Record world := mk_world
  { w_rx : list sock_event;
      (* datagrams and failures queued on the socket *)
    w_sockopt_broken : bool;
      (* Human68k driver: getsockopt(SO_SOCKLENRECV) returns nonzero *)
    w_errno : Z;
      (* errno, or the Winsock last error *)
    w_tx : list Z;
      (* return values of the coming sendto calls *)
    w_stdin : list stdin_event;
      (* POSIX: outcomes of the coming read(0, ...) calls *)
    w_keys : list Z;
      (* Win32: key codes waiting in the console, for _kbhit/_getch *)
    w_stream : list ascii;
      (* Human68k: the rest of standard input, for fgets *)
    w_buf : list ascii;
      (* the static buf[0 .. len) of stdin_poll_line *)
    w_trace : list event }.

Definition set_rx (q : list sock_event) (w : world) : world :=
  mk_world q (w_sockopt_broken w) (w_errno w) (w_tx w) (w_stdin w) (w_keys w)
           (w_stream w) (w_buf w) (w_trace w).
Definition set_errno (e : Z) (w : world) : world :=
  mk_world (w_rx w) (w_sockopt_broken w) e (w_tx w) (w_stdin w) (w_keys w)
           (w_stream w) (w_buf w) (w_trace w).
Definition set_tx (t : list Z) (w : world) : world :=
  mk_world (w_rx w) (w_sockopt_broken w) (w_errno w) t (w_stdin w) (w_keys w)
           (w_stream w) (w_buf w) (w_trace w).
Definition set_stdin (i : list stdin_event) (w : world) : world :=
  mk_world (w_rx w) (w_sockopt_broken w) (w_errno w) (w_tx w) i (w_keys w)
           (w_stream w) (w_buf w) (w_trace w).
Definition set_keys (k : list Z) (w : world) : world :=
  mk_world (w_rx w) (w_sockopt_broken w) (w_errno w) (w_tx w) (w_stdin w) k
           (w_stream w) (w_buf w) (w_trace w).
Definition set_stream (s : list ascii) (w : world) : world :=
  mk_world (w_rx w) (w_sockopt_broken w) (w_errno w) (w_tx w) (w_stdin w)
           (w_keys w) s (w_buf w) (w_trace w).
Definition set_buf (b : list ascii) (w : world) : world :=
  mk_world (w_rx w) (w_sockopt_broken w) (w_errno w) (w_tx w) (w_stdin w)
           (w_keys w) (w_stream w) b (w_trace w).
Definition log (evs : list event) (w : world) : world :=
  mk_world (w_rx w) (w_sockopt_broken w) (w_errno w) (w_tx w) (w_stdin w)
           (w_keys w) (w_stream w) (w_buf w) (w_trace w ++ evs).

(** The byte count the Human68k driver reports for a queue: that of the
    entry at its head (1 for a pending failure, so that the read is tried
    and fails).  The code looks at its sign only. *)
Definition socklenrecv (q : list sock_event) : Z :=
  match q with
  | Datagram _ d :: _ => Z.of_nat (List.length d)
  | RecvError _ :: _ => 1
  | [] => 0
  end.

(** [getsockopt(s, 0, SO_SOCKLENRECV, &avail, &optlen)]: [None] when the
    call returns nonzero, else the reported byte count. *)
Definition getsockopt_socklenrecv (w : world) : option Z * world :=
  if w_sockopt_broken w then (None, log [EvGetsockopt false] w)
  else (Some (socklenrecv (w_rx w)), log [EvGetsockopt true] w).

(** [recvfrom(s, buf, buf_size, 0, from, &sl)]: return value, the bytes
    stored at the start of [buf], and the sender.  A datagram that fits the
    buffer is stored whole.  One that is longer loses its excess bytes: on
    POSIX (and, it is assumed, Human68k) the call returns the [buf_size]
    bytes stored; on Winsock it stores them too but fails, with
    [WSAEMSGSIZE] (the documentation speaks of the buffer only, so [from]
    is taken as left alone; the code reads neither after a failure).  With
    nothing queued the call fails with [EWOULDBLOCK]; on Human68k, where
    the socket is blocking, [udp_recvfrom_nb] calls it only after a positive
    availability answer, that is never with nothing queued. *)
Definition recvfrom (plat : platform) (buf_size : Z) (w : world)
  : (Z * list ascii * option sockaddr_in) * world :=
  match w_rx w with
  | [] =>
      let e := match plat with Win32 => WSAEWOULDBLOCK | _ => EWOULDBLOCK end in
      ((-1, [], None), log [EvRecvfrom (-1)] (set_errno e w))
  | RecvError e :: q =>
      ((-1, [], None), log [EvRecvfrom (-1)] (set_errno e (set_rx q w)))
  | Datagram from data :: q =>
      let got := firstn (Z.to_nat buf_size) data in
      let n := Z.of_nat (List.length got) in
      match plat with
      | Win32 =>
          if buf_size <? Z.of_nat (List.length data) then
            ((-1, got, None),
             log [EvRecvfrom (-1)] (set_errno WSAEMSGSIZE (set_rx q w)))
          else ((n, got, Some from), log [EvRecvfrom n] (set_rx q w))
      | _ => ((n, got, Some from), log [EvRecvfrom n] (set_rx q w))
      end
  end.

(** Result of [udp_recvfrom_nb]: the return value; [buf[0 .. n)] after a
    receive of [n > 0] bytes, else the whole of [buf] (as it was, unless a
    failed [recvfrom] stored bytes in it); [*from] and [*from_len] after
    the call. *)
Record recv_result := mk_recv_result
  { rr_ret : Z;
    rr_buf : option (list ascii);
    rr_from : option sockaddr_in;
    rr_from_len : option Z }.

(** [udp_recvfrom_nb(s, buf, buf_size, from, from_len)]. *)
Definition udp_recvfrom_nb (plat : platform)
    (buf : option (list ascii)) (buf_size : Z)
    (from : option sockaddr_in) (from_len : option Z) (w : world)
  : recv_result * world :=
  let unchanged r := mk_recv_result r buf from from_len in
  match buf, from, from_len with
  | Some old_buf, Some old_from, Some _ =>
      if buf_size <=? 0 then (unchanged (-1), w)
      else
        match plat with
        | Human68k =>
            match getsockopt_socklenrecv w with
            | (None, w1) => (unchanged 0, w1)
            | (Some avail, w1) =>
                if avail <=? 0 then (unchanged 0, w1)
                else
                  let '((n, got, src), w2) := recvfrom plat buf_size w1 in
                  if n <=? 0 then
                    (mk_recv_result (-1) buf
                       (Some (match src with Some a => a | None => old_from end))
                       from_len, w2)
                  else
                    (mk_recv_result n (Some got)
                       (Some (match src with Some a => a | None => old_from end))
                       (Some SIZEOF_SOCKADDR_IN), w2)
            end
        | _ =>
            let '((n, got, src), w1) := recvfrom plat buf_size w in
            if n <? 0 then
              let failed r :=
                mk_recv_result r
                  (Some (got ++ skipn (List.length got) old_buf))
                  from from_len in
              match plat with
              | Win32 =>
                  if w_errno w1 =? WSAEWOULDBLOCK then (failed 0, w1)
                  else (failed (-1), w1)
              | _ =>
                  if (w_errno w1 =? EWOULDBLOCK) || (w_errno w1 =? EAGAIN)
                  then (failed 0, w1)
                  else (failed (-1), w1)
              end
            else if n =? 0 then
              (mk_recv_result 0 buf
                 (Some (match src with Some a => a | None => old_from end))
                 from_len, w1)
            else
              (mk_recv_result n (Some got)
                 (Some (match src with Some a => a | None => old_from end))
                 (Some SIZEOF_SOCKADDR_IN), w1)
        end
  | _, _, _ => (unchanged (-1), w)
  end.

(** The "Returns" table in the comment above [udp_recvfrom_nb]. *)
Inductive recv_status := Received (n : Z) | WouldBlock | IoError.

Definition recv_status_of (ret : Z) : recv_status :=
  if ret >? 0 then Received ret
  else if ret =? 0 then WouldBlock
  else IoError.

(** [sendto(sock, pkt, len, 0, &dest, sizeof(dest))]; the return value is
    the next entry of [w_tx] (negative for a failure), [len] when none is
    given. *)
Definition sendto (pkt : list ascii) (len : Z) (dest : sockaddr_in)
    (w : world) : Z * world :=
  let data := firstn (Z.to_nat len) pkt in
  match w_tx w with
  | [] => (len, log [EvSendto data dest len] w)
  | r :: t => (r, log [EvSendto data dest r] (set_tx t w))
  end.

(** [tiny_sleep_ms(ms)]. *)
Definition tiny_sleep_ms (ms : Z) (w : world) : world :=
  if ms <=? 0 then w else log [EvSleep ms] w.

(* ------------------------------------------------------------------ *)
(** ** Line input *)

Definition char_of_key (c : Z) : ascii := ascii_of_nat (Z.to_nat c).

Definition buf_len (w : world) : Z := Z.of_nat (List.length (w_buf w)).

(** [stdin_poll_line], [_WIN32] branch: the [while (_kbhit())] loop over
    the waiting key codes.  Returns the status and the content of [out]. *)
Fixpoint stdin_poll_line_win32_loop (keys : list Z) (out : list ascii)
    (out_size : Z) (w : world) : (Z * list ascii) * world :=
  match keys with
  | [] => ((0, out), set_keys [] w)
  | c :: rest =>
      let w := set_keys rest w in
      if c =? 3 then ((-2, out), w)
      else if (c =? 13) || (c =? 10) then
        ((1, snprintf_s out_size (w_buf w)),
         set_buf [] (log [EvEcho [LF]] w))
      else if c =? 8 then
        if buf_len w >? 0 then
          stdin_poll_line_win32_loop rest out out_size
            (log [EvEcho [char_of_key 8; " "%char; char_of_key 8]]
                 (set_buf (removelast (w_buf w)) w))
        else stdin_poll_line_win32_loop rest out out_size w
      else if (c >=? 32) && (c <=? 126) then
        if buf_len w <? MAX_TEXT - 1 then
          stdin_poll_line_win32_loop rest out out_size
            (log [EvEcho [char_of_key c]]
                 (set_buf (w_buf w ++ [char_of_key c]) w))
        else stdin_poll_line_win32_loop rest out out_size w
      else stdin_poll_line_win32_loop rest out out_size w
  end.

Definition stdin_poll_line_win32 (out : list ascii) (out_size : Z)
    (w : world) : (Z * list ascii) * world :=
  stdin_poll_line_win32_loop (w_keys w) out out_size w.

(** [read(0, tmp, size)]: return value and the bytes stored in [tmp].
    Bytes beyond [size] stay in the stream; with nothing to read the
    non-blocking descriptor fails with [EAGAIN]. *)
Definition read_stdin (size : Z) (w : world) : (Z * list ascii) * world :=
  match w_stdin w with
  | [] => ((-1, []), set_errno EAGAIN w)
  | StdinError e :: q => ((-1, []), set_errno e (set_stdin q w))
  | StdinBytes bytes :: q =>
      let got := firstn (Z.to_nat size) bytes in
      let left := skipn (Z.to_nat size) bytes in
      ((Z.of_nat (List.length got), got),
       set_stdin (match left with [] => q | _ => StdinBytes left :: q end) w)
  end.

(** [stdin_poll_line], POSIX branch: the [for (i = 0; i < n; i++)] loop
    over the chunk. *)
Fixpoint stdin_poll_line_posix_loop (chunk : list ascii) (out : list ascii)
    (out_size : Z) (w : world) : (Z * list ascii) * world :=
  match chunk with
  | [] => ((0, out), w)
  | c :: rest =>
      if Ascii.eqb c LF then
        ((1, snprintf_s out_size (w_buf w)), set_buf [] w)
      else if Ascii.eqb c CR then
        stdin_poll_line_posix_loop rest out out_size w
      else if buf_len w <? MAX_TEXT - 1 then
        stdin_poll_line_posix_loop rest out out_size
          (set_buf (w_buf w ++ [c]) w)
      else stdin_poll_line_posix_loop rest out out_size w
  end.

Definition stdin_poll_line_posix (out : list ascii) (out_size : Z)
    (w : world) : (Z * list ascii) * world :=
  let '((n, tmp), w1) := read_stdin 128 w in
  if n <? 0 then
    if (w_errno w1 =? EWOULDBLOCK) || (w_errno w1 =? EAGAIN)
    then ((0, out), w1)
    else ((-1, out), w1)
  else if n =? 0 then ((0, out), w1)
  else stdin_poll_line_posix_loop tmp out out_size w1.

(** [fgets(line, size, stdin)] (Human68k branch of [main]): at most
    [size - 1] characters, through the first newline; [None] at end of
    input. *)
Fixpoint fgets_split (n : nat) (s : list ascii) : list ascii * list ascii :=
  match n, s with
  | O, _ => ([], s)
  | _, [] => ([], [])
  | S n', c :: r =>
      if Ascii.eqb c LF then ([c], r)
      else let '(a, b) := fgets_split n' r in (c :: a, b)
  end.

Definition fgets (size : Z) (w : world) : option (list ascii) * world :=
  match w_stream w with
  | [] => (None, w)
  | s =>
      let '(line, rest) := fgets_split (Z.to_nat (size - 1)) s in
      (Some line, set_stream rest w)
  end.

(** [while (L > 0 && (line[L-1] == '\n' || line[L-1] == '\r'))], on the
    reversed string. *)
Fixpoint drop_crlf (r : list ascii) : list ascii :=
  match r with
  | c :: r' => if is_crlf c then drop_crlf r' else r
  | [] => []
  end.

Definition strip_trailing_crlf (line : list ascii) : list ascii :=
  rev (drop_crlf (rev (c_str line))).

(* ------------------------------------------------------------------ *)
(** ** The interaction loop of [main] *)

Inductive loop_state := Running | Terminating.

Definition blank_addr : sockaddr_in := mk_sockaddr_in 0 0 0.

(** What the drain loop prints for a received buffer (after [buf[n] = 0]):
    the decoded chat line, or the raw bytes when [parse_packet] fails. *)
Definition render_packet (addr : Z) (buf : list ascii) : event :=
  match parse_packet (Some buf) (Some []) MAX_NICK (Some []) MAX_TEXT with
  | (0, Some from_nick, Some from_text) =>
      EvChat addr (c_str from_nick) (c_str from_text)
  | _ => EvRaw addr (c_str buf)
  end.

(** The inner [for (;;)] ("Drain pending packets").  [fuel] bounds the
    number of receive attempts; [None] when it runs out. *)
Fixpoint drain_loop (plat : platform) (fuel : nat) (w : world)
  : option world :=
  match fuel with
  | O => None
  | S fuel' =>
      let '(r, w1) :=
        udp_recvfrom_nb plat (Some []) (MAX_PKT - 1)
                        (Some blank_addr) (Some SIZEOF_SOCKADDR_IN) w in
      let n := rr_ret r in
      if n <? 0 then Some (log [EvRecvFailed (w_errno w1)] w1)
      else if n =? 0 then Some w1
      else
        let buf := match rr_buf r with Some b => b | None => [] end in
        let addr := match rr_from r with
                    | Some a => sin_addr a | None => 0 end in
        drain_loop plat fuel' (log [render_packet addr buf] w1)
  end.

(** Every continuing pass of the drain loop takes one entry off the
    socket queue, so this much fuel is enough (lemma [drain_total]). *)
Definition drain (plat : platform) (w : world) : option world :=
  drain_loop plat (S (List.length (w_rx w))) w.

(** Sending a composed line: [format_packet], [strlen], [sendto], prompt. *)
Definition send_line (nick : list ascii) (dest : sockaddr_in)
    (line : list ascii) (w : world) : world :=
  let pkt := match format_packet (Some []) MAX_PKT (Some nick) (Some line)
             with Some p => p | None => [] end in
  let len := to_int (strlen pkt) in
  let '(_, w1) := sendto pkt len dest w in
  log [EvPrompt] w1.

(** "Read user input" and the sleep that ends the iteration. *)
Definition input_phase (plat : platform) (nick : list ascii)
    (dest : sockaddr_in) (w : world) : loop_state * world :=
  match plat with
  | Human68k =>
      match fgets MAX_TEXT w with
      | (None, w1) => (Terminating, log [EvFgets false] w1)
      | (Some line, w1) =>
          let w1 := log [EvFgets true] w1 in
          let line := strip_trailing_crlf line in
          if strcmp line (lit "/quit") =? 0 then (Terminating, w1)
          else if strcmp line (lit "/help") =? 0
          then (Running, log [EvHelp; EvPrompt] w1)
          else if is_nul (hd NUL line) then (Running, log [EvPrompt] w1)
          else (Running, tiny_sleep_ms 10 (send_line nick dest line w1))
      end
  | _ =>
      let '((r, line), w1) :=
        match plat with
        | Win32 => stdin_poll_line_win32 [] MAX_TEXT w
        | _ => stdin_poll_line_posix [] MAX_TEXT w
        end in
      let w1 := log [EvStdinPoll r] w1 in
      if r =? -2 then (Terminating, w1)
      else if r <? 0 then (Terminating, log [EvStdinFailed] w1)
      else if r =? 1 then
        if strcmp line (lit "/quit") =? 0 then (Terminating, w1)
        else if strcmp line (lit "/help") =? 0
        then (Running, log [EvHelp; EvPrompt] w1)
        else if negb (is_nul (hd NUL line))
        then (Running, tiny_sleep_ms 10 (send_line nick dest line w1))
        else (Running, tiny_sleep_ms 10 (log [EvPrompt] w1))
      else (Running, tiny_sleep_ms 10 w1)
  end.

(** One pass of the outer [for (;;)]. *)
Definition main_iteration (plat : platform) (nick : list ascii)
    (dest : sockaddr_in) (w : world) : option (loop_state * world) :=
  match drain plat w with
  | None => None
  | Some w1 => Some (input_phase plat nick dest w1)
  end.

(** At most [iters] passes of the outer loop. *)
Fixpoint main_loop (plat : platform) (nick : list ascii) (dest : sockaddr_in)
    (iters : nat) (w : world) : option (loop_state * world) :=
  match iters with
  | O => Some (Running, w)
  | S k =>
      match main_iteration plat nick dest w with
      | None => None
      | Some (Terminating, w') => Some (Terminating, w')
      | Some (Running, w') => main_loop plat nick dest k w'
      end
  end.

(* ------------------------------------------------------------------ *)
(** ** Vocabulary of the statements *)

(** [lacks ch l]: the character [ch] does not occur in [l]. *)
Definition lacks (ch : ascii) (l : list ascii) : bool :=
  forallb (fun c => negb (Ascii.eqb c ch)) l.

(** A character array that is a C string as it stands: no NUL inside. *)
Definition c_string (l : list ascii) : Prop := lacks NUL l = true.

(** The text with exactly its CR and LF characters deleted. *)
Definition strip_crlf (text : list ascii) : list ascii :=
  filter (fun c => negb (is_crlf c)) text.

Definition no_crlf (text : list ascii) : Prop := strip_crlf text = text.

Definition len (l : list ascii) : Z := Z.of_nat (List.length l).

(** *** Codec statements *)

(** The pairs the round trip is claimed for when the bounds are read as 32
    and 512 bytes, and the round-trip property itself. *)
Definition within_stated_bounds (nick text : list ascii) : Prop :=
  c_string nick /\ lacks BAR nick = true /\ len nick <= MAX_NICK /\
  c_string text /\ no_crlf text /\ len text <= MAX_TEXT.

Definition round_trips (nick text : list ascii) : Prop :=
  decode (encode nick text) = (0, Some nick, Some text).

(** The three defects of a packet, read on the C string [pkt]. *)
Definition bad_tag (pkt : list ascii) : Prop :=
  firstn 4 (c_str pkt) <> lit "OM1|".
Definition no_separator (pkt : list ascii) : Prop :=
  lacks BAR (skipn 4 (c_str pkt)) = true.
Definition empty_nick (pkt : list ascii) : Prop :=
  nth_error (c_str pkt) 4 = Some BAR.

(** *** Worlds used in the examples *)

Definition idle_world : world :=
  mk_world [] false 0 [] [] [] [] [] [].

Definition peer (a : Z) : sockaddr_in := mk_sockaddr_in 2 DEFAULT_PORT a.

(** *** Receive and loop statements *)

(** The failure reason that means "operation would block" on a platform. *)
Definition would_block_code (plat : platform) (e : Z) : bool :=
  match plat with
  | Win32 => e =? WSAEWOULDBLOCK
  | _ => (e =? EWOULDBLOCK) || (e =? EAGAIN)
  end.

(** Events printed for a received datagram, and events of the input
    phase. *)
Definition is_render (e : event) : bool :=
  match e with
  | EvChat _ _ _ | EvRaw _ _ => true
  | _ => false
  end.

Definition is_input_event (e : event) : bool :=
  match e with
  | EvStdinPoll _ | EvFgets _ | EvEcho _ | EvStdinFailed | EvHelp
  | EvPrompt | EvSendto _ _ _ | EvSleep _ => true
  | _ => false
  end.

(** Two worlds with the same state of the line input source. *)
Definition same_input (w1 w2 : world) : Prop :=
  w_stdin w1 = w_stdin w2 /\ w_keys w1 = w_keys w2 /\
  w_stream w1 = w_stream w2 /\ w_buf w1 = w_buf w2.

(** [w'] is [w] after the events [evs]. *)
Definition extends (w w' : world) (evs : list event) : Prop :=
  w_trace w' = w_trace w ++ evs.

(** Equality as C strings. *)
Definition streq (a b : list ascii) : Prop := c_str a = c_str b.

(** What the input source asks of the loop in this iteration: a cancel
    (-2), an input error (-1, or end of input for [fgets]), or the line
    "/quit". *)
Definition exit_requested (plat : platform) (w : world) : Prop :=
  match plat with
  | Human68k =>
      match fst (fgets MAX_TEXT w) with
      | None => True
      | Some line => streq (strip_trailing_crlf line) (lit "/quit")
      end
  | Win32 =>
      let '(r, line) := fst (stdin_poll_line_win32 [] MAX_TEXT w) in
      r = -2 \/ r = -1 \/ (r = 1 /\ streq line (lit "/quit"))
  | Posix =>
      let '(r, line) := fst (stdin_poll_line_posix [] MAX_TEXT w) in
      r = -2 \/ r = -1 \/ (r = 1 /\ streq line (lit "/quit"))
  end.

(** [w'] is [w] after at least [k] events, all of the input phase, with the
    socket queue as it was. *)
Definition input_ext (k : nat) (w w' : world) : Prop :=
  exists evs, extends w w' evs /\ forallb is_input_event evs = true /\
              (k <= List.length evs)%nat /\ w_rx w' = w_rx w.

(** The line printed for a queued datagram (cut to the receive buffer). *)
Definition render_datagram (d : sockaddr_in * list ascii) : event :=
  render_packet (sin_addr (fst d)) (firstn (Z.to_nat (MAX_PKT - 1)) (snd d)).

Definition queued (dgrams : list (sockaddr_in * list ascii))
  : list sock_event :=
  map (fun d => Datagram (fst d) (snd d)) dgrams.

(** A datagram fits the receive buffer of the drain ([MAX_PKT - 1] bytes).
    It matters on the Win32 build only, where receiving a longer one
    fails. *)
Definition fits (plat : platform) (data : list ascii) : Prop :=
  plat = Win32 -> len data <= MAX_PKT - 1.

(** A queued datagram that the drain receives and prints: not empty, and
    fitting the buffer. *)
Definition receivable (plat : platform) (d : sockaddr_in * list ascii)
  : Prop :=
  snd d <> [] /\ fits plat (snd d).

(** What ends a drain: an empty queue, or at its head a zero-byte datagram
    or a receive failure; on the Win32 build a datagram longer than the
    buffer is such a failure. *)
Definition drain_stops (plat : platform) (rest : list sock_event) : Prop :=
  match rest with
  | [] => True
  | RecvError _ :: _ => True
  | Datagram _ data :: _ =>
      data = [] \/ (plat = Win32 /\ MAX_PKT - 1 < len data)
  end.

(** [rest] has at its head a receive failure that [udp_recvfrom_nb] reports
    as -1, with error code [e]: a failed [recvfrom] whose code is not
    would-block (on Human68k, where the read follows a positive
    availability answer, any code), or on Win32 a datagram longer than
    the buffer. *)
Definition failure_at_head (plat : platform) (rest : list sock_event)
    (e : Z) : Prop :=
  match rest with
  | [] => False
  | RecvError e' :: _ =>
      e' = e /\ (plat <> Human68k -> would_block_code plat e = false)
  | Datagram _ data :: _ =>
      plat = Win32 /\ MAX_PKT - 1 < len data /\ e = WSAEMSGSIZE
  end.

(** The report "recvfrom() failed". *)
Definition is_report (e : event) : bool :=
  match e with
  | EvRecvFailed _ => true
  | _ => false
  end.

(** The availability query of the Human68k build answers. *)
Definition query_works (w : world) : Prop := w_sockopt_broken w = false.

(** Three queued datagrams and one pending input line. *)
Definition three_datagrams : list (sockaddr_in * list ascii) :=
  [(peer 1, lit "OM1|a|one"); (peer 2, lit "junk"); (peer 3, lit "OM1|c|three")].

Definition three_queued_world : world :=
  mk_world (queued three_datagrams) false 0 []
           [StdinBytes (lit "hello" ++ [LF])]
           [104; 101; 108; 108; 111; 13]
           (lit "hello" ++ [LF]) [] [].

(* ------------------------------------------------------------------ *)
(** ** Start-up helpers of [omnimsg.c] *)

Definition is_path_sep (c : ascii) : bool :=
  Ascii.eqb c "/"%char || Ascii.eqb c "\"%char || Ascii.eqb c ":"%char.

(** The loop of [prog_basename]: [p] scans the string, [base] is the
    current candidate; the result is the array from the final [base] on. *)
Fixpoint prog_basename_loop (p base : list ascii) : list ascii :=
  match p with
  | [] => base
  | c :: rest =>
      if is_nul c then base
      else if is_path_sep c then prog_basename_loop rest rest
      else prog_basename_loop rest base
  end.

(** [prog_basename(argv0)]. *)
Definition prog_basename (argv0 : option (list ascii)) : list ascii :=
  let base := match argv0 with Some a => a | None => lit "omnimsg" end in
  let base := prog_basename_loop base base in
  if negb (is_nul (hd NUL base)) then base else lit "omnimsg".

Definition INADDR_NONE : Z := 4294967295.

(** [parse_ipv4(s, out_addr_be)]: return value and [*out_addr_be] after
    the call.  [inet_addr] is the system's; its result is read as
    [uint32_t]. *)
Definition parse_ipv4 (inet_addr : list ascii -> Z)
    (s : option (list ascii)) (out_addr_be : option Z) : Z * option Z :=
  match s, out_addr_be with
  | Some s, Some _ =>
      let a := inet_addr s mod 4294967296 in
      if (a =? INADDR_NONE)
         && negb (strcmp s (lit "255.255.255.255") =? 0)
      then (-1, out_addr_be)
      else (0, Some a)
  | _, _ => (-1, out_addr_be)
  end.

(** The settings [main] collects from the command line. *)
Record config := mk_config
  { cfg_nick : list ascii;
    cfg_port : Z;
    cfg_bcast_ip : list ascii;
    cfg_send_once : option (list ascii) }.

Definition default_config : config :=
  mk_config (lit "anon") DEFAULT_PORT (lit "255.255.255.255") None.

(** Outcome of the argument loop: [return code] (with the argument named
    in "Unknown/invalid argument", if any), or the settings. *)
Inductive args_result :=
| ArgsExit (code : Z) (bad : option (list ascii))
| ArgsOk (c : config).

Definition arg_is (a : list ascii) (s : string) : bool :=
  strcmp a (lit s) =? 0.

(** The loop [for (int i = 1; i < argc; i++)] of [main] over
    [argv[1 .. argc)]; [atoi] is the system's. *)
Fixpoint parse_args (atoi : list ascii -> Z) (args : list (list ascii))
    (c : config) : args_result :=
  match args with
  | [] => ArgsOk c
  | a :: rest =>
      if arg_is a "--help" || arg_is a "-h" then ArgsExit 0 None
      else
        match rest with
        | v :: rest' =>
            if arg_is a "--nick" || arg_is a "-n" then
              parse_args atoi rest'
                (mk_config v (cfg_port c) (cfg_bcast_ip c) (cfg_send_once c))
            else if arg_is a "--port" || arg_is a "-p" then
              parse_args atoi rest'
                (mk_config (cfg_nick c) (atoi v) (cfg_bcast_ip c)
                           (cfg_send_once c))
            else if arg_is a "--broadcast" || arg_is a "-b" then
              parse_args atoi rest'
                (mk_config (cfg_nick c) (cfg_port c) v (cfg_send_once c))
            else if arg_is a "--send" then
              parse_args atoi rest'
                (mk_config (cfg_nick c) (cfg_port c) (cfg_bcast_ip c) (Some v))
            else ArgsExit 1 (Some a)
        | [] => ArgsExit 1 (Some a)
        end
  end.

(** "Send-once mode" of [main]: the exit code, whether "sendto() failed"
    was printed, and the world. *)
Definition send_once_mode (nick send_once : list ascii) (dest : sockaddr_in)
    (w : world) : Z * bool * world :=
  let pkt := match format_packet (Some []) MAX_PKT (Some nick) (Some send_once)
             with Some p => p | None => [] end in
  let len := to_int (strlen pkt) in
  let '(sent, w1) := sendto pkt len dest w in
  let sent := to_int sent in
  (if sent <? 0 then 1 else 0, sent <? 0, w1).

(* ------------------------------------------------------------------ *)
(** ** File status flags: [fcntl] *)

Definition O_NONBLOCK : Z := 2048.

(** A descriptor: its status flags, and whether the coming [fcntl] calls
    fail. *)
Record fd_state := mk_fd_state { fd_flags : Z; fd_fail : list bool }.

Definition fcntl_next (s : fd_state) : bool * fd_state :=
  match fd_fail s with
  | [] => (false, s)
  | b :: t => (b, mk_fd_state (fd_flags s) t)
  end.

(** [fcntl(fd, F_GETFL, 0)]. *)
Definition fcntl_getfl (s : fd_state) : Z * fd_state :=
  let '(fails, s1) := fcntl_next s in
  if fails then (-1, s1) else (fd_flags s1, s1).

(** [fcntl(fd, F_SETFL, flags)]. *)
Definition fcntl_setfl (flags : Z) (s : fd_state) : Z * fd_state :=
  let '(fails, s1) := fcntl_next s in
  if fails then (-1, s1) else (0, mk_fd_state flags (fd_fail s1)).

(** [stdin_make_nonblock_posix(old_flags)]: return value, [*old_flags] and
    the state of descriptor 0.  [win32] selects the [_WIN32] branch. *)
Definition stdin_make_nonblock_posix (win32 : bool) (old_flags : option Z)
    (s : fd_state) : Z * option Z * fd_state :=
  if win32 then (0, old_flags, s)
  else
    match old_flags with
    | None => (-1, None, s)
    | Some _ =>
        let '(flags, s1) := fcntl_getfl s in
        if flags <? 0 then (-1, old_flags, s1)
        else
          let '(r, s2) := fcntl_setfl (Z.lor flags O_NONBLOCK) s1 in
          if r <? 0 then (-1, Some flags, s2) else (0, Some flags, s2)
    end.

(** [stdin_restore_flags_posix(old_flags)]. *)
Definition stdin_restore_flags_posix (win32 : bool) (old_flags : Z)
    (s : fd_state) : fd_state :=
  if win32 then s
  else if old_flags >=? 0 then snd (fcntl_setfl old_flags s) else s.

(** [sock_set_nonblock(s)], Human68k and POSIX branches. *)
Definition sock_set_nonblock (human68k : bool) (s : fd_state)
  : Z * fd_state :=
  if human68k then (0, s)
  else
    let '(flags, s1) := fcntl_getfl s in
    if flags <? 0 then (-1, s1)
    else
      let '(r, s2) := fcntl_setfl (Z.lor flags O_NONBLOCK) s1 in
      if r <? 0 then (-1, s2) else (0, s2).

(** What [main] does to standard input around the loop: flags saved and
    made non-blocking before it, restored after it. *)
Definition stdin_around_loop (win32 : bool) (s : fd_state) : fd_state :=
  let '(_, old_stdin_flags, s1) :=
    stdin_make_nonblock_posix win32 (Some (-1)) s in
  stdin_restore_flags_posix win32
    (match old_stdin_flags with Some f => f | None => -1 end) s1.

(* ------------------------------------------------------------------ *)
(** ** Vocabulary of the further properties *)

Definition sep_free (l : list ascii) : bool :=
  forallb (fun c => negb (is_path_sep c)) l.

(** The bytes of a chunk that reach the accumulator: all but CR. *)
Definition strip_cr (l : list ascii) : list ascii :=
  filter (fun c => negb (Ascii.eqb c CR)) l.

(** A [read] outcome that carries no byte: end of input, or a would-block
    failure. *)
Definition quiet_event (e : stdin_event) : bool :=
  match e with
  | StdinBytes [] => true
  | StdinBytes (_ :: _) => false
  | StdinError err => would_block_code Posix err
  end.



(** A line body that does not itself end in CR or LF. *)
Definition ends_clean (body : list ascii) : bool :=
  match rev body with
  | [] => true
  | c :: _ => negb (is_crlf c)
  end.

(** The queue left behind when the drain stops at [rest]: the entry that
    stopped it is consumed, except a zero-byte datagram on Human68k, which
    the availability query hides. *)
Definition after_drain (plat : platform) (rest : list sock_event)
  : list sock_event :=
  match plat, rest with
  | Human68k, Datagram _ [] :: _ => rest
  | _, _ => tl rest
  end.

(** The options that take a value. *)
Inductive opt_kind := KNick | KPort | KBcast | KSend.

Definition is_help (a : list ascii) : bool :=
  arg_is a "--help" || arg_is a "-h".

Definition flag_kind (a : list ascii) : option opt_kind :=
  if arg_is a "--nick" || arg_is a "-n" then Some KNick
  else if arg_is a "--port" || arg_is a "-p" then Some KPort
  else if arg_is a "--broadcast" || arg_is a "-b" then Some KBcast
  else if arg_is a "--send" then Some KSend
  else None.

Definition same_kind (a b : opt_kind) : bool :=
  match a, b with
  | KNick, KNick | KPort, KPort | KBcast, KBcast | KSend, KSend => true
  | _, _ => false
  end.

(** A flag followed by its value. *)
Definition option_pair (p : list ascii * list ascii) : bool :=
  negb (is_help (fst p))
  && match flag_kind (fst p) with Some _ => true | None => false end.

Definition spell (pairs : list (list ascii * list ascii))
  : list (list ascii) :=
  flat_map (fun p => [fst p; snd p]) pairs.

(** The value given last for an option, if any. *)
Fixpoint last_opt (k : opt_kind) (pairs : list (list ascii * list ascii))
  : option (list ascii) :=
  match pairs with
  | [] => None
  | p :: ps =>
      match last_opt k ps with
      | Some v => Some v
      | None =>
          match flag_kind (fst p) with
          | Some k' => if same_kind k' k then Some (snd p) else None
          | None => None
          end
      end
  end.

(* ================================================================== *)
(** * Properties *)

(** ** C strings *)

Lemma c_str_id (l : list ascii) : c_string l -> c_str l = l.
Proof.
  unfold c_string, lacks.
  induction l as [|c r IH]; simpl; [reflexivity|].
  intros H. apply andb_true_iff in H. destruct H as [Hc Hr].
  unfold is_nul. apply negb_true_iff in Hc. rewrite Hc.
  f_equal. apply IH, Hr.
Qed.

Lemma lacks_app (ch : ascii) (a b : list ascii) :
  lacks ch (a ++ b) = lacks ch a && lacks ch b.
Proof. unfold lacks. apply forallb_app. Qed.

Lemma lacks_firstn (ch : ascii) (n : nat) (l : list ascii) :
  lacks ch l = true -> lacks ch (firstn n l) = true.
Proof.
  revert n. induction l as [|c r IH]; intros [|n] H; simpl in *; auto.
  apply andb_true_iff in H. destruct H as [Hc Hr].
  rewrite Hc. simpl. apply IH, Hr.
Qed.

Lemma lacks_filter (ch : ascii) (f : ascii -> bool) (l : list ascii) :
  lacks ch l = true -> lacks ch (filter f l) = true.
Proof.
  induction l as [|c r IH]; simpl; auto.
  intros H. apply andb_true_iff in H. destruct H as [Hc Hr].
  destruct (f c); simpl; [rewrite Hc; simpl|]; apply IH, Hr.
Qed.

Lemma c_str_lacks_nul (m : list ascii) : c_string (c_str m).
Proof.
  unfold c_string. induction m as [|c r IH]; simpl; [reflexivity|].
  destruct (is_nul c) eqn:E; simpl; [reflexivity|].
  unfold is_nul in E. rewrite E. simpl. exact IH.
Qed.

Lemma to_int_small (z : Z) : 0 <= z <= INT_MAX -> to_int z = z.
Proof.
  unfold to_int, INT_MAX. intros H.
  rewrite Z.mod_small by lia. lia.
Qed.

(** ** The copy loop of [format_packet] *)

Lemma format_packet_loop_spec (text : list ascii) (j : Z) :
  c_string text -> 0 <= j <= MAX_TEXT - 1 ->
  format_packet_loop text j
  = firstn (Z.to_nat (MAX_TEXT - 1 - j)) (strip_crlf text).
Proof.
  unfold c_string, lacks, strip_crlf. revert j.
  induction text as [|c r IH]; intros j Hn Hj;
    cbn [format_packet_loop forallb filter] in *.
  - now rewrite firstn_nil.
  - apply andb_true_iff in Hn. destruct Hn as [Hc Hr].
    apply negb_true_iff in Hc. unfold is_nul. rewrite Hc.
    destruct (j <? MAX_TEXT - 1) eqn:Ej.
    + apply Z.ltb_lt in Ej.
      destruct (is_crlf c) eqn:Ec; cbn [negb].
      * apply IH; [exact Hr | lia].
      * rewrite IH by (try exact Hr; lia).
        replace (Z.to_nat (MAX_TEXT - 1 - j))
          with (S (Z.to_nat (MAX_TEXT - 1 - (j + 1)))) by lia.
        reflexivity.
    + apply Z.ltb_ge in Ej.
      replace (MAX_TEXT - 1 - j) with 0 by lia. reflexivity.
Qed.

Lemma format_packet_loop_c_string (text : list ascii) (j : Z) :
  c_string (format_packet_loop text j).
Proof.
  unfold c_string. revert j.
  induction text as [|c r IH]; intros j;
    cbn [format_packet_loop]; [reflexivity|].
  destruct (is_nul c) eqn:E; [reflexivity|].
  destruct (j <? MAX_TEXT - 1); [|reflexivity].
  destruct (is_crlf c); [apply IH|].
  cbn [lacks forallb]. unfold is_nul in E. rewrite E. apply IH.
Qed.

(** ** String primitives *)

Lemma uchar_inj (a b : ascii) : uchar a - uchar b = 0 -> a = b.
Proof.
  unfold uchar. intros H.
  assert (E : nat_of_ascii a = nat_of_ascii b) by lia.
  rewrite <- (ascii_nat_embedding a), <- (ascii_nat_embedding b).
  now rewrite E.
Qed.

Lemma c_str_cons (c : ascii) (r : list ascii) :
  is_nul c = false -> c_str (c :: r) = c :: c_str r.
Proof. intros H. simpl. now rewrite H. Qed.

Lemma c_str_hd_nul (m : list ascii) : is_nul (hd NUL m) = true -> c_str m = [].
Proof. destruct m as [|c r]; simpl; [reflexivity|]. now intros ->. Qed.

Lemma c_str_hd (m : list ascii) :
  is_nul (hd NUL m) = false -> c_str m = hd NUL m :: c_str (tl m).
Proof.
  destruct m as [|c r]; simpl; [discriminate|]. now intros ->.
Qed.

Lemma is_nul_true (c : ascii) : is_nul c = true -> c = NUL.
Proof. unfold is_nul. apply Ascii.eqb_eq. Qed.

(** [strncmp] returns 0 exactly when the two C strings agree on their
    first [n] characters. *)
Lemma strncmp_zero_iff (n : nat) (a b : list ascii) :
  strncmp a b n = 0 <-> firstn n (c_str a) = firstn n (c_str b).
Proof.
  revert a b. induction n as [|n IH]; intros a b; cbn [strncmp].
  - simpl. tauto.
  - destruct (Ascii.eqb (hd NUL a) (hd NUL b)) eqn:E; cbn [negb].
    + apply Ascii.eqb_eq in E.
      destruct (is_nul (hd NUL a)) eqn:Ea.
      * rewrite (c_str_hd_nul a Ea).
        rewrite E in Ea. rewrite (c_str_hd_nul b Ea). tauto.
      * rewrite (c_str_hd a Ea).
        rewrite E in Ea. rewrite (c_str_hd b Ea).
        rewrite E. cbn [firstn]. rewrite IH.
        split; [intros ->; reflexivity | intros H; now injection H].
    + split.
      * intros H. apply uchar_inj in H.
        rewrite H, Ascii.eqb_refl in E. discriminate.
      * intros H. exfalso.
        apply Ascii.eqb_neq in E. apply E.
        destruct (is_nul (hd NUL a)) eqn:Ea, (is_nul (hd NUL b)) eqn:Eb.
        -- apply is_nul_true in Ea, Eb. congruence.
        -- rewrite (c_str_hd_nul a Ea), (c_str_hd b Eb) in H. discriminate.
        -- rewrite (c_str_hd a Ea), (c_str_hd_nul b Eb) in H. discriminate.
        -- rewrite (c_str_hd a Ea), (c_str_hd b Eb) in H.
           cbn [firstn] in H. now injection H.
Qed.

(** A C string that starts with the tag comes from an array that starts
    with the tag. *)
Lemma tag_prefix (pkt : list ascii) :
  firstn 4 (c_str pkt) = lit "OM1|" ->
  exists rest, pkt = lit "OM1|" ++ rest /\
               c_str pkt = lit "OM1|" ++ c_str rest.
Proof.
  intros H.
  destruct pkt as [|c0 [|c1 [|c2 [|c3 rest]]]]; cbn in H;
    repeat match type of H with
           | context [if ?b then _ else _] => destruct b; cbn in H
           end; try discriminate.
  injection H as -> -> -> ->. exists rest. split; reflexivity.
Qed.

Lemma firstn_c_str (n : nat) (m : list ascii) :
  (n <= List.length (c_str m))%nat -> firstn n m = firstn n (c_str m).
Proof.
  revert n. induction m as [|c r IH]; intros n Hn; [reflexivity|].
  simpl in *. destruct (is_nul c).
  - simpl in Hn. assert (n = O) by lia. subst. reflexivity.
  - destruct n as [|n]; [reflexivity|]. simpl in *.
    f_equal. apply IH. lia.
Qed.

(** [strchr] finds the first occurrence. *)
Lemma strchr_found (l r s : list ascii) (ch : ascii) :
  c_str s = l ++ ch :: r -> lacks ch l = true ->
  strchr s ch = Some (List.length l) /\
  firstn (List.length l) s = l /\
  c_str (skipn (S (List.length l)) s) = r.
Proof.
  revert s. induction l as [|x l IH]; intros s Hs Hl.
  - destruct s as [|c s']; simpl in Hs; [discriminate|].
    destruct (is_nul c) eqn:Ec; [discriminate|].
    injection Hs as -> Hs. simpl. rewrite Ascii.eqb_refl. auto.
  - destruct s as [|c s']; simpl in Hs; [discriminate|].
    destruct (is_nul c) eqn:Ec; [discriminate|].
    injection Hs as -> Hs.
    cbn [lacks forallb] in Hl. apply andb_true_iff in Hl.
    destruct Hl as [Hx Hl]. apply negb_true_iff in Hx.
    destruct (IH s' Hs Hl) as (H1 & H2 & H3).
    cbn [strchr]. rewrite Hx, Ec, H1. simpl. rewrite H2.
    split; [reflexivity|]. split; [reflexivity|]. exact H3.
Qed.

Lemma strchr_some (s : list ascii) (ch : ascii) (k : nat) :
  is_nul ch = false -> strchr s ch = Some k ->
  exists l r, c_str s = l ++ ch :: r /\ List.length l = k /\
              lacks ch l = true.
Proof.
  intros Hch. revert k. induction s as [|c s IH]; intros k H; simpl in H.
  - rewrite Hch in H. discriminate.
  - destruct (Ascii.eqb c ch) eqn:E.
    + apply Ascii.eqb_eq in E. subst c. injection H as <-.
      exists [], (c_str s). simpl. rewrite Hch. auto.
    + destruct (is_nul c) eqn:Ec; [discriminate|].
      destruct (strchr s ch) as [k'|] eqn:Ek; [|discriminate].
      simpl in H. injection H as <-.
      destruct (IH k' eq_refl) as (l & r & H1 & H2 & H3).
      exists (c :: l), r. simpl. rewrite Ec, H1, E, H3, H2. auto.
Qed.

Lemma strchr_none (s : list ascii) (ch : ascii) :
  strchr s ch = None -> lacks ch (c_str s) = true.
Proof.
  induction s as [|c s IH]; simpl; [reflexivity|].
  destruct (Ascii.eqb c ch) eqn:E; [discriminate|].
  destruct (is_nul c) eqn:Ec; [reflexivity|].
  destruct (strchr s ch); [discriminate|].
  intros _. simpl. rewrite E. simpl. apply IH. reflexivity.
Qed.

Lemma length_c_str_le (m : list ascii) :
  (List.length (c_str m) <= List.length m)%nat.
Proof.
  induction m as [|c r IH]; simpl; [lia|].
  destruct (is_nul c); simpl; lia.
Qed.

(** ** [parse_packet] *)

Lemma firstn_clamp (A : Type) (k n : nat) (p l : list A) :
  firstn k p = l -> List.length l = k ->
  firstn (Nat.min n k) p = firstn n l.
Proof.
  intros H Hk. subst l. rewrite firstn_firstn. reflexivity.
Qed.

(** On a well-formed packet [parse_packet] returns the two fields, each cut
    to its buffer. *)
Lemma parse_packet_wire (pkt nick text a b : list ascii) (ns ts : Z) :
  c_str pkt = lit "OM1|" ++ nick ++ BAR :: text ->
  nick <> [] -> lacks BAR nick = true ->
  0 < ns -> 0 < ts -> len pkt <= INT_MAX ->
  parse_packet (Some pkt) (Some a) ns (Some b) ts
  = (0, Some (firstn (Z.to_nat (ns - 1)) nick),
        Some (firstn (Z.to_nat (ts - 1)) text)).
Proof.
  intros Hpkt Hne Hbar Hns Hts Hlen.
  assert (Htag : firstn 4 (c_str pkt) = lit "OM1|") by (now rewrite Hpkt).
  destruct (tag_prefix pkt Htag) as (rest & Hrest & Hc).
  rewrite Hc in Hpkt. apply app_inv_head in Hpkt.
  destruct (strchr_found nick text rest BAR Hpkt Hbar) as (Hs & Hf & Ht).
  assert (Hlr : (List.length (c_str rest) <= List.length rest)%nat)
    by apply length_c_str_le.
  assert (Hlp : List.length pkt = (4 + List.length rest)%nat)
    by (rewrite Hrest; reflexivity).
  assert (Hln : (List.length nick + 1 + List.length text
                 = List.length (c_str rest))%nat).
  { rewrite Hpkt, length_app. simpl. lia. }
  unfold len in Hlen.
  unfold parse_packet.
  replace ((ns <=? 0) || (ts <=? 0)) with false
    by (symmetry; apply orb_false_iff; split; apply Z.leb_gt; lia).
  replace (strncmp pkt (lit "OM1|") 4 =? 0) with true
    by (symmetry; apply Z.eqb_eq, strncmp_zero_iff; exact Htag).
  cbn [negb].
  replace (skipn 4 pkt) with rest by (rewrite Hrest; reflexivity).
  rewrite Hs.
  rewrite to_int_small by lia.
  destruct nick as [|n0 nick']; [congruence|].
  replace (Z.of_nat (List.length (n0 :: nick')) <=? 0) with false
    by (symmetry; apply Z.leb_gt; simpl; lia).
  unfold strlen. rewrite Ht.
  rewrite to_int_small by lia.
  f_equal; [f_equal|]; f_equal.
  - set (k := List.length (n0 :: nick')) in *.
    destruct (Z.of_nat k >=? ns) eqn:E.
    + apply Z.geb_le in E.
      rewrite <- (firstn_clamp _ k (Z.to_nat (ns - 1)) rest _ Hf eq_refl).
      f_equal. lia.
    + rewrite Z.geb_leb in E. apply Z.leb_gt in E.
      rewrite Nat2Z.id, Hf. symmetry. apply firstn_all2. fold k. lia.
  - set (q := skipn _ rest) in *.
    assert (Hq : forall n, (n <= List.length text)%nat ->
                           firstn n q = firstn n text).
    { intros n Hn. rewrite <- Ht. apply firstn_c_str. rewrite Ht. exact Hn. }
    destruct (Z.of_nat (List.length text) >=? ts) eqn:E.
    + apply Z.geb_le in E. apply Hq. lia.
    + rewrite Z.geb_leb in E. apply Z.leb_gt in E.
      rewrite Nat2Z.id, Hq by lia.
      rewrite firstn_all. symmetry. apply firstn_all2. lia.
Qed.

Lemma strchr_lacks (s : list ascii) (ch : ascii) :
  is_nul ch = false -> lacks ch (c_str s) = true -> strchr s ch = None.
Proof.
  intros Hch H. destruct (strchr s ch) as [k|] eqn:E; [|reflexivity].
  destruct (strchr_some s ch k Hch E) as (l & r & H1 & _ & _).
  rewrite H1, lacks_app in H. cbn [lacks forallb] in H.
  rewrite Ascii.eqb_refl in H. cbn [negb andb] in H.
  rewrite andb_false_r in H. discriminate.
Qed.

(** ** [format_packet] *)

(** The output is the concatenation of tag, nick, separator and sanitized
    text, cut as a whole to the buffer: nothing is done to the nick. *)
Lemma format_packet_eq (o nick text : list ascii) (out_size : Z) :
  0 < out_size -> c_string nick -> c_string text ->
  format_packet (Some o) out_size (Some nick) (Some text)
  = Some (firstn (Z.to_nat (out_size - 1))
            (lit "OM1|" ++ nick ++ BAR ::
               firstn (Z.to_nat (MAX_TEXT - 1)) (strip_crlf text))).
Proof.
  intros Hs Hn Ht. unfold format_packet, snprintf_OM1.
  replace (out_size <=? 0) with false by (symmetry; apply Z.leb_gt; lia).
  rewrite (c_str_id nick Hn).
  rewrite (c_str_id _ (format_packet_loop_c_string text 0)).
  rewrite format_packet_loop_spec by (try exact Ht; unfold MAX_TEXT; lia).
  rewrite Z.sub_0_r. reflexivity.
Qed.

Lemma strip_crlf_c_string (text : list ascii) :
  c_string text -> c_string (strip_crlf text).
Proof. apply lacks_filter. Qed.

Lemma wire_c_string (nick body : list ascii) :
  c_string nick -> c_string body ->
  c_string (lit "OM1|" ++ nick ++ BAR :: body).
Proof.
  unfold c_string. intros Hn Hb.
  rewrite !lacks_app, Hn. unfold lacks in *. cbn [forallb].
  rewrite Hb. reflexivity.
Qed.

(** Decoding an encoded pair, for a nick that leaves room for the whole
    body in the packet buffer. *)
Lemma decode_encode (nick text : list ascii) :
  c_string nick -> nick <> [] -> lacks BAR nick = true ->
  len nick <= MAX_PKT - 1 - 5 - (MAX_TEXT - 1) ->
  c_string text ->
  decode (encode nick text)
  = (0, Some (firstn (Z.to_nat (MAX_NICK - 1)) nick),
        Some (firstn (Z.to_nat (MAX_TEXT - 1)) (strip_crlf text))).
Proof.
  intros Hn Hne Hbar Hlen Ht. unfold encode, decode.
  rewrite format_packet_eq by (auto; unfold MAX_PKT; lia).
  set (body := firstn (Z.to_nat (MAX_TEXT - 1)) (strip_crlf text)).
  assert (Hb : (List.length body <= Z.to_nat (MAX_TEXT - 1))%nat)
    by apply firstn_le_length.
  assert (Hcb : c_string body)
    by (apply lacks_firstn, strip_crlf_c_string, Ht).
  unfold len, MAX_PKT, MAX_TEXT in *.
  rewrite firstn_all2
    by (rewrite !length_app; cbn [List.length lit list_ascii_of_string]; lia).
  rewrite (parse_packet_wire _ nick body); auto.
  - do 2 f_equal. apply firstn_all2. lia.
  - apply c_str_id, wire_c_string; assumption.
  - unfold MAX_NICK. lia.
  - lia.
  - unfold len, INT_MAX. rewrite !length_app.
    cbn [List.length lit list_ascii_of_string]. lia.
Qed.

(* ------------------------------------------------------------------ *)
(** ** Packet codec: the round trip and its limits *)

(** C1, counterexample: with the bounds read as 32 and 512 bytes the round
    trip fails for an empty nick (rejected), for a 32-byte nick (cut to 31
    bytes by the decoder) and for a 512-byte text (cut to 511 bytes by the
    encoder). *)
Lemma roundtrip_stated_bounds_fail :
  (within_stated_bounds [] (lit "hi") /\
   decode (encode [] (lit "hi")) = (-1, Some [], Some [])) /\
  (within_stated_bounds (repeat "n"%char 32) (lit "hi") /\
   decode (encode (repeat "n"%char 32) (lit "hi"))
   = (0, Some (repeat "n"%char 31), Some (lit "hi")) /\
   ~ round_trips (repeat "n"%char 32) (lit "hi")) /\
  (within_stated_bounds (lit "alice") (repeat "a"%char 512) /\
   decode (encode (lit "alice") (repeat "a"%char 512))
   = (0, Some (lit "alice"), Some (repeat "a"%char 511)) /\
   ~ round_trips (lit "alice") (repeat "a"%char 512)).
Proof.
  unfold within_stated_bounds, round_trips, c_string, no_crlf.
  repeat split; try (vm_compute; congruence);
    intros H; vm_compute in H; discriminate H.
Qed.

(** C1 (amended): for every non-empty nick of at most 31 bytes without the
    separator and every text of at most 511 bytes without CR or LF,
    decoding the encoding succeeds and yields exactly (nick, text); the
    text may contain the separator. *)
Theorem decode_encode_roundtrip (nick text : list ascii) :
  c_string nick -> lacks BAR nick = true -> nick <> [] ->
  len nick <= MAX_NICK - 1 ->
  c_string text -> no_crlf text -> len text <= MAX_TEXT - 1 ->
  decode (encode nick text) = (0, Some nick, Some text).
Proof.
  intros Hn Hbar Hne Hln Ht Hcr Hlt.
  unfold len, MAX_NICK, MAX_TEXT in *.
  rewrite decode_encode; auto.
  - unfold no_crlf in Hcr. rewrite Hcr.
    rewrite !firstn_all2 by (unfold MAX_NICK, MAX_TEXT; lia). reflexivity.
  - unfold len, MAX_PKT, MAX_TEXT. lia.
Qed.

Lemma decode_encode_roundtrip_witness :
  decode (encode (lit "alice") (lit "a|b"))
  = (0, Some (lit "alice"), Some (lit "a|b")).
Proof.
  apply (decode_encode_roundtrip (lit "alice") (lit "a|b"));
    try reflexivity; try discriminate; vm_compute; discriminate.
Defined.

(** C2, counterexample: a text of 513 bytes comes back as its 511-byte
    prefix, not its 512-byte prefix; and with a 252-byte nick even less of
    it fits the packet buffer. *)
Lemma truncation_512_fails :
  (decode (encode (lit "alice") (repeat "a"%char 513))
   = (0, Some (lit "alice"), Some (repeat "a"%char 511)) /\
   repeat "a"%char 511
   <> firstn 512 (strip_crlf (repeat "a"%char 513))) /\
  (decode (encode (repeat "n"%char 252) (repeat "a"%char 513))
   = (0, Some (repeat "n"%char 31), Some (repeat "a"%char 510))).
Proof.
  repeat split; try (vm_compute; reflexivity).
  intros H; vm_compute in H; discriminate H.
Qed.

(** C2 (amended): for a non-empty separator-free nick of at most 251 bytes
    and every text whose sanitized form is longer than 511 bytes, the
    encoded packet is decodable and the recovered text is exactly the
    511-byte prefix of the sanitized text. *)
Theorem encode_truncates_to_511 (nick text : list ascii) :
  c_string nick -> lacks BAR nick = true -> nick <> [] ->
  len nick <= 251 ->
  c_string text -> MAX_TEXT - 1 < len (strip_crlf text) ->
  exists pkt rnick rtext,
    encode nick text = Some pkt /\
    decode (Some pkt) = (0, Some rnick, Some rtext) /\
    rtext = firstn 511 (strip_crlf text) /\
    len rtext = MAX_TEXT - 1.
Proof.
  intros Hn Hbar Hne Hln Ht Hlt.
  pose proof (decode_encode nick text Hn Hne Hbar) as H.
  unfold MAX_PKT, MAX_TEXT in H. specialize (H ltac:(lia) Ht).
  destruct (encode nick text) as [pkt|] eqn:E.
  - exists pkt, (firstn (Z.to_nat (MAX_NICK - 1)) nick),
      (firstn 511 (strip_crlf text)).
    repeat split; auto.
    unfold len, MAX_TEXT in *. rewrite length_firstn. lia.
  - vm_compute in H. discriminate H.
Qed.

Lemma encode_truncates_to_511_witness :
  exists pkt rnick rtext,
    encode (lit "alice") (repeat "a"%char 600) = Some pkt /\
    decode (Some pkt) = (0, Some rnick, Some rtext) /\
    rtext = firstn 511 (strip_crlf (repeat "a"%char 600)) /\
    len rtext = MAX_TEXT - 1.
Proof.
  apply (encode_truncates_to_511 (lit "alice") (repeat "a"%char 600));
    try reflexivity; try discriminate; vm_compute; congruence.
Defined.

(** C8, counterexample: a 512-byte text without CR or LF does not come
    back as itself (its last byte is cut), so the recovered text is not
    always the input with exactly CR and LF deleted. *)
Lemma sanitization_long_text_fails :
  strip_crlf (repeat "a"%char 512) = repeat "a"%char 512 /\
  decode (encode (lit "alice") (repeat "a"%char 512))
  = (0, Some (lit "alice"), Some (repeat "a"%char 511)) /\
  repeat "a"%char 511 <> strip_crlf (repeat "a"%char 512).
Proof.
  repeat split; try (vm_compute; reflexivity).
  intros H; vm_compute in H; discriminate H.
Qed.

(** C8 (amended): for a non-empty separator-free nick of at most 251 bytes
    and every text, the recovered text is the 511-byte prefix of the input
    with its CR and LF characters deleted (order kept); when that
    sanitized text has at most 511 bytes the recovered text equals it
    exactly. *)
Theorem encode_strips_crlf (nick text : list ascii) :
  c_string nick -> lacks BAR nick = true -> nick <> [] ->
  len nick <= 251 -> c_string text ->
  exists rnick rtext,
    decode (encode nick text) = (0, Some rnick, Some rtext) /\
    rtext = firstn 511 (strip_crlf text) /\
    lacks CR rtext = true /\ lacks LF rtext = true /\
    (len (strip_crlf text) <= MAX_TEXT - 1 -> rtext = strip_crlf text).
Proof.
  intros Hn Hbar Hne Hln Ht.
  pose proof (decode_encode nick text Hn Hne Hbar) as H.
  unfold MAX_PKT, MAX_TEXT in H. specialize (H ltac:(lia) Ht).
  exists (firstn (Z.to_nat (MAX_NICK - 1)) nick),
    (firstn 511 (strip_crlf text)).
  assert (Hno : forall l, lacks CR (strip_crlf l) = true /\
                          lacks LF (strip_crlf l) = true).
  { induction l as [|c r [IH1 IH2]]; [split; reflexivity|].
    unfold strip_crlf in *. cbn [filter].
    destruct (is_crlf c) eqn:E; cbn [negb]; [auto|].
    unfold lacks in *. cbn [forallb]. rewrite IH1, IH2.
    unfold is_crlf in E. apply orb_false_iff in E. destruct E as [-> ->].
    auto. }
  repeat split; auto.
  - apply lacks_firstn, Hno.
  - apply lacks_firstn, Hno.
  - intros Hl. apply firstn_all2. unfold len, MAX_TEXT in Hl. lia.
Qed.

Lemma encode_strips_crlf_witness :
  exists rnick rtext,
    decode (encode (lit "bob") (lit "one" ++ [CR; LF] ++ lit "two" ++ [LF]))
    = (0, Some rnick, Some rtext) /\
    rtext = firstn 511 (strip_crlf (lit "one" ++ [CR; LF] ++ lit "two" ++ [LF])) /\
    lacks CR rtext = true /\ lacks LF rtext = true /\
    (len (strip_crlf (lit "one" ++ [CR; LF] ++ lit "two" ++ [LF]))
     <= MAX_TEXT - 1 ->
     rtext = strip_crlf (lit "one" ++ [CR; LF] ++ lit "two" ++ [LF])).
Proof.
  apply (encode_strips_crlf (lit "bob") (lit "one" ++ [CR; LF] ++ lit "two" ++ [LF]));
    try reflexivity; try discriminate; vm_compute; congruence.
Defined.

Example strips_crlf_example :
  decode (encode (lit "bob") (lit "one" ++ [CR; LF] ++ lit "two" ++ [LF]))
  = (0, Some (lit "bob"), Some (lit "onetwo")).
Proof. reflexivity. Qed.

(** ** Oversized nick *)

Lemma lacks_count (ch : ascii) (l : list ascii) :
  lacks ch l = true -> count_occ ascii_dec l ch = O.
Proof.
  induction l as [|c r IH]; simpl; [reflexivity|].
  intros H. apply andb_true_iff in H. destruct H as [Hc Hr].
  apply negb_true_iff, Ascii.eqb_neq in Hc.
  destruct (ascii_dec c ch); [contradiction|]. apply IH, Hr.
Qed.

(** C9: [format_packet] writes tag, nick, separator and sanitized text cut
    as a whole to the buffer, without touching the nick; so for a
    separator-free nick of 764 bytes or more and any text, the 768-byte
    packet holds a single separator (the one after the tag) and
    [parse_packet] rejects it. *)
Theorem oversized_nick_not_decodable (nick text : list ascii) :
  c_string nick -> lacks BAR nick = true -> c_string text ->
  MAX_PKT - 4 <= len nick ->
  (forall o out_size, 0 < out_size ->
     format_packet (Some o) out_size (Some nick) (Some text)
     = Some (firstn (Z.to_nat (out_size - 1))
               (lit "OM1|" ++ nick ++ BAR ::
                  firstn (Z.to_nat (MAX_TEXT - 1)) (strip_crlf text)))) /\
  exists pkt,
    encode nick text = Some pkt /\
    pkt = lit "OM1|" ++ firstn 763 nick /\
    (count_occ ascii_dec pkt BAR < 2)%nat /\
    decode (Some pkt) = (-1, Some [], Some []).
Proof.
  intros Hn Hbar Ht Hlen.
  split; [intros o out_size Hs; now apply format_packet_eq|].
  unfold encode. rewrite format_packet_eq by (auto; unfold MAX_PKT; lia).
  unfold len, MAX_PKT in *.
  replace (Z.to_nat (768 - 1)) with (4 + 763)%nat by lia.
  rewrite (firstn_app_2 763 (lit "OM1|")).
  rewrite firstn_app.
  replace (763 - List.length nick)%nat with O by lia.
  rewrite firstn_O, app_nil_r.
  eexists. split; [reflexivity|]. split; [reflexivity|].
  assert (Hb : lacks BAR (firstn 763 nick) = true) by now apply lacks_firstn.
  split.
  - rewrite count_occ_app, (lacks_count _ _ Hb).
    change (count_occ ascii_dec (lit "OM1|") BAR) with 1%nat. lia.
  - unfold decode, parse_packet.
    change ((MAX_NICK <=? 0) || (MAX_TEXT <=? 0)) with false.
    replace (strncmp _ (lit "OM1|") 4 =? 0) with true by reflexivity.
    change (skipn 4 (lit "OM1|" ++ firstn 763 nick)) with (firstn 763 nick).
    cbn [negb].
    rewrite strchr_lacks; [reflexivity | reflexivity|].
    rewrite c_str_id; [exact Hb|].
    now apply lacks_firstn.
Qed.

Lemma oversized_nick_witness :
  exists pkt,
    encode (repeat "n"%char 764) (lit "hello") = Some pkt /\
    pkt = lit "OM1|" ++ firstn 763 (repeat "n"%char 764) /\
    (count_occ ascii_dec pkt BAR < 2)%nat /\
    decode (Some pkt) = (-1, Some [], Some []).
Proof.
  apply (oversized_nick_not_decodable (repeat "n"%char 764) (lit "hello"));
    try reflexivity; vm_compute; congruence.
Defined.

(* ------------------------------------------------------------------ *)
(** ** [parse_packet]: which inputs are rejected *)

Lemma parse_packet_bad_tag (pkt a b : list ascii) (ns ts : Z) :
  0 < ns -> 0 < ts -> bad_tag pkt ->
  parse_packet (Some pkt) (Some a) ns (Some b) ts = (-1, Some [], Some []).
Proof.
  intros Hns Hts Hbad. unfold parse_packet.
  replace ((ns <=? 0) || (ts <=? 0)) with false
    by (symmetry; apply orb_false_iff; split; apply Z.leb_gt; lia).
  destruct (strncmp pkt (lit "OM1|") 4 =? 0) eqn:E; [|reflexivity].
  apply Z.eqb_eq, strncmp_zero_iff in E. contradiction.
Qed.

Lemma parse_packet_tagged (rest a b : list ascii) (ns ts : Z) :
  0 < ns -> 0 < ts ->
  parse_packet (Some (lit "OM1|" ++ rest)) (Some a) ns (Some b) ts
  = match strchr rest BAR with
    | None => (-1, Some [], Some [])
    | Some bar =>
        if to_int (Z.of_nat bar) <=? 0 then (-1, Some [], Some [])
        else
          (0,
           Some (firstn (Z.to_nat (if to_int (Z.of_nat bar) >=? ns
                                   then ns - 1 else to_int (Z.of_nat bar)))
                        rest),
           Some (firstn
                   (Z.to_nat
                      (if to_int (strlen (skipn (S bar) rest)) >=? ts
                       then ts - 1
                       else to_int (strlen (skipn (S bar) rest))))
                   (skipn (S bar) rest)))
    end.
Proof.
  intros Hns Hts. unfold parse_packet.
  replace ((ns <=? 0) || (ts <=? 0)) with false
    by (symmetry; apply orb_false_iff; split; apply Z.leb_gt; lia).
  replace (strncmp _ (lit "OM1|") 4 =? 0) with true by reflexivity.
  reflexivity.
Qed.

(** C3: with non-null buffers of positive size, [parse_packet] returns -1
    exactly when the packet does not start with "OM1|", or has no '|' after
    the nick position, or has an empty nick field; otherwise it returns 0
    with the nick (the bytes between the tag and the next '|') and the text
    (everything after that '|'), each cut to its buffer.  On -1 both output
    strings are empty: there is no partial result. *)
Theorem parse_packet_error_iff (pkt a b : list ascii) (ns ts : Z) :
  0 < ns -> 0 < ts -> len pkt <= INT_MAX ->
  let '(rc, nick_out, text_out) :=
    parse_packet (Some pkt) (Some a) ns (Some b) ts in
  (rc = -1 <-> bad_tag pkt \/ no_separator pkt \/ empty_nick pkt) /\
  ((rc = -1 /\ nick_out = Some [] /\ text_out = Some []) \/
   (rc = 0 /\
    exists nick text,
      c_str pkt = lit "OM1|" ++ nick ++ BAR :: text /\
      nick <> [] /\ lacks BAR nick = true /\
      nick_out = Some (firstn (Z.to_nat (ns - 1)) nick) /\
      text_out = Some (firstn (Z.to_nat (ts - 1)) text))).
Proof.
  intros Hns Hts Hlen.
  destruct (list_eq_dec ascii_dec (firstn 4 (c_str pkt)) (lit "OM1|"))
    as [Htag|Htag].
  - destruct (tag_prefix pkt Htag) as (rest & Hrest & Hc).
    destruct (strchr rest BAR) as [k|] eqn:Ek.
    + destruct (strchr_some rest BAR k eq_refl Ek) as (l & r & Hl & Hk & Hb).
      destruct l as [|x l].
      * (* empty nick field *)
        simpl in Hk. subst k pkt.
        rewrite parse_packet_tagged, Ek by assumption.
        change (to_int (Z.of_nat 0) <=? 0) with true. cbv iota.
        split; [|left; auto].
        split; [intros _|reflexivity].
        right; right. unfold empty_nick. rewrite Hc, Hl. reflexivity.
      * (* well formed *)
        assert (Hw : c_str pkt = lit "OM1|" ++ (x :: l) ++ BAR :: r)
          by (rewrite Hc, Hl; reflexivity).
        rewrite (parse_packet_wire pkt (x :: l) r a b ns ts Hw)
          by (auto; discriminate).
        split.
        -- split; [discriminate|]. intros [H|[H|H]]; exfalso.
           ++ apply H, Htag.
           ++ unfold no_separator in H. rewrite Hw in H.
              change (skipn 4 (lit "OM1|" ++ (x :: l) ++ BAR :: r))
                with ((x :: l) ++ BAR :: r) in H.
              rewrite lacks_app in H. unfold lacks at 2 in H.
              cbn [forallb] in H. rewrite Ascii.eqb_refl in H.
              cbn [negb andb] in H. rewrite andb_false_r in H. discriminate.
           ++ unfold empty_nick in H. rewrite Hw in H.
              cbn in H. injection H as ->.
              unfold lacks in Hb. cbn [forallb] in Hb.
              rewrite Ascii.eqb_refl in Hb. discriminate.
        -- right. split; [reflexivity|].
           exists (x :: l), r. repeat split; auto. discriminate.
    + (* no separator after the nick position *)
      subst pkt. rewrite parse_packet_tagged, Ek by assumption.
      split; [|left; auto].
      split; [intros _|reflexivity].
      right; left. unfold no_separator. rewrite Hc.
      change (skipn 4 (lit "OM1|" ++ c_str rest)) with (c_str rest).
      apply strchr_none, Ek.
  - rewrite parse_packet_bad_tag by assumption.
    split; [|left; auto].
    split; [intros _; left; exact Htag | reflexivity].
Qed.

Lemma parse_packet_error_iff_witness :
  let '(rc, nick_out, text_out) :=
    parse_packet (Some (lit "OM1|bob|hi|there")) (Some []) MAX_NICK
                 (Some []) MAX_TEXT in
  (rc = -1 <-> bad_tag (lit "OM1|bob|hi|there") \/
               no_separator (lit "OM1|bob|hi|there") \/
               empty_nick (lit "OM1|bob|hi|there")) /\
  ((rc = -1 /\ nick_out = Some [] /\ text_out = Some []) \/
   (rc = 0 /\
    exists nick text,
      c_str (lit "OM1|bob|hi|there") = lit "OM1|" ++ nick ++ BAR :: text /\
      nick <> [] /\ lacks BAR nick = true /\
      nick_out = Some (firstn (Z.to_nat (MAX_NICK - 1)) nick) /\
      text_out = Some (firstn (Z.to_nat (MAX_TEXT - 1)) text))).
Proof.
  apply (parse_packet_error_iff (lit "OM1|bob|hi|there") [] [] MAX_NICK MAX_TEXT);
    vm_compute; congruence.
Defined.

(** The three kinds of rejected input and one accepted input. *)
Example parse_packet_examples :
  decode (Some (lit "XM1|bob|hi")) = (-1, Some [], Some []) /\
  decode (Some (lit "OM1|bob")) = (-1, Some [], Some []) /\
  decode (Some (lit "OM1||hi")) = (-1, Some [], Some []) /\
  decode (Some (lit "OM1|bob|hi|there"))
  = (0, Some (lit "bob"), Some (lit "hi|there")).
Proof. repeat split. Qed.

(* ------------------------------------------------------------------ *)
(** ** [udp_recvfrom_nb] *)

(** C5, counterexample: on the flag-based build a queued zero-byte datagram
    is taken off the socket ([recvfrom] returns 0) and reported with return
    value 0, which is WouldBlock, not Received. *)
Lemma zero_byte_datagram_is_would_block :
  let w := set_rx [Datagram (peer 1) []] idle_world in
  let '(r, w') :=
    udp_recvfrom_nb Posix (Some []) (MAX_PKT - 1) (Some blank_addr)
                    (Some SIZEOF_SOCKADDR_IN) w in
  fst (fst (fst (recvfrom Posix (MAX_PKT - 1) w))) = 0 /\
  w_rx w' = [] /\
  rr_ret r = 0 /\
  recv_status_of (rr_ret r) = WouldBlock /\
  recv_status_of (rr_ret r) <> Received 0.
Proof. vm_compute. repeat split; discriminate. Qed.

(** C5 (amended): on the flag-based builds (Win32, POSIX) a failed receive
    whose reason is "would block" gives WouldBlock, any other failure gives
    IoError, a positive byte count gives Received with the bytes and the
    sender, and a zero byte count gives return value 0, that is
    WouldBlock. *)
Theorem flag_based_receive (plat : platform) (buf : list ascii)
    (buf_size : Z) (from : sockaddr_in) (from_len : Z) (w : world) :
  plat <> Human68k -> 0 < buf_size ->
  let '((n, got, src), w1) := recvfrom plat buf_size w in
  let '(r, w') :=
    udp_recvfrom_nb plat (Some buf) buf_size (Some from) (Some from_len) w in
  w' = w1 /\
  (n < 0 -> would_block_code plat (w_errno w1) = true ->
   recv_status_of (rr_ret r) = WouldBlock) /\
  (n < 0 -> would_block_code plat (w_errno w1) = false ->
   recv_status_of (rr_ret r) = IoError) /\
  (0 < n ->
   recv_status_of (rr_ret r) = Received n /\
   rr_buf r = Some got /\
   rr_from r = Some (match src with Some a => a | None => from end)) /\
  (n = 0 -> recv_status_of (rr_ret r) = WouldBlock).
Proof.
  intros Hp Hs. unfold udp_recvfrom_nb.
  replace (buf_size <=? 0) with false by (symmetry; apply Z.leb_gt; lia).
  destruct (recvfrom plat buf_size w) as [[[n got] src] w1].
  destruct plat; [| |congruence].
  - (* Win32 *)
    cbn [would_block_code].
    destruct (n <? 0) eqn:En.
    + apply Z.ltb_lt in En.
      destruct (w_errno w1 =? WSAEWOULDBLOCK) eqn:Ee; cbn [rr_ret];
        repeat split; intros; try lia; try discriminate; reflexivity.
    + apply Z.ltb_ge in En.
      destruct (n =? 0) eqn:E0.
      * apply Z.eqb_eq in E0. subst n.
        repeat split; intros; try lia; reflexivity.
      * apply Z.eqb_neq in E0. cbn [rr_ret rr_buf rr_from].
        repeat split; intros; try lia.
        unfold recv_status_of.
        replace (n >? 0) with true; [reflexivity|].
        symmetry. apply Z.gtb_lt. lia.
  - (* POSIX *)
    cbn [would_block_code].
    destruct (n <? 0) eqn:En.
    + apply Z.ltb_lt in En.
      destruct ((w_errno w1 =? EWOULDBLOCK) || (w_errno w1 =? EAGAIN)) eqn:Ee;
        cbn [rr_ret];
        repeat split; intros; try lia; try discriminate; reflexivity.
    + apply Z.ltb_ge in En.
      destruct (n =? 0) eqn:E0.
      * apply Z.eqb_eq in E0. subst n.
        repeat split; intros; try lia; reflexivity.
      * apply Z.eqb_neq in E0. cbn [rr_ret rr_buf rr_from].
        repeat split; intros; try lia.
        unfold recv_status_of.
        replace (n >? 0) with true; [reflexivity|].
        symmetry. apply Z.gtb_lt. lia.
Qed.

Lemma flag_based_receive_witness :
  let w := set_rx [Datagram (peer 7) (lit "OM1|bob|hi")] idle_world in
  let '((n, got, src), w1) := recvfrom Posix (MAX_PKT - 1) w in
  let '(r, w') :=
    udp_recvfrom_nb Posix (Some []) (MAX_PKT - 1) (Some blank_addr)
                    (Some SIZEOF_SOCKADDR_IN) w in
  w' = w1 /\
  (n < 0 -> would_block_code Posix (w_errno w1) = true ->
   recv_status_of (rr_ret r) = WouldBlock) /\
  (n < 0 -> would_block_code Posix (w_errno w1) = false ->
   recv_status_of (rr_ret r) = IoError) /\
  (0 < n ->
   recv_status_of (rr_ret r) = Received n /\
   rr_buf r = Some got /\
   rr_from r = Some (match src with Some a => a | None => blank_addr end)) /\
  (n = 0 -> recv_status_of (rr_ret r) = WouldBlock).
Proof.
  apply (flag_based_receive Posix [] (MAX_PKT - 1) blank_addr
           SIZEOF_SOCKADDR_IN
           (set_rx [Datagram (peer 7) (lit "OM1|bob|hi")] idle_world));
    [discriminate | reflexivity].
Defined.

(** The three outcomes on concrete sockets (POSIX and Win32). *)
Example flag_based_examples :
  rr_ret (fst (udp_recvfrom_nb Posix (Some []) 767 (Some blank_addr) (Some 16)
                 idle_world)) = 0 /\
  rr_ret (fst (udp_recvfrom_nb Posix (Some []) 767 (Some blank_addr) (Some 16)
                 (set_rx [RecvError 5] idle_world))) = -1 /\
  rr_ret (fst (udp_recvfrom_nb Win32 (Some []) 767 (Some blank_addr) (Some 16)
                 (set_rx [RecvError WSAEWOULDBLOCK] idle_world))) = 0 /\
  rr_ret (fst (udp_recvfrom_nb Win32 (Some []) 767 (Some blank_addr) (Some 16)
                 (set_rx [Datagram (peer 7) (lit "OM1|bob|hi")] idle_world)))
  = 10.
Proof. repeat split. Qed.

(** C10: on the Human68k build, when the availability query itself fails
    (getsockopt returns nonzero), [udp_recvfrom_nb] returns 0 (WouldBlock,
    not IoError), leaves the buffers and the socket queue untouched and
    makes no [recvfrom] call; its result is the one an idle socket
    (availability 0) gives. *)
Theorem broken_query_is_would_block (buf : list ascii) (buf_size : Z)
    (from : sockaddr_in) (from_len : Z) (w : world) :
  0 < buf_size -> w_sockopt_broken w = true ->
  let '(r, w') :=
    udp_recvfrom_nb Human68k (Some buf) buf_size (Some from) (Some from_len) w
  in
  rr_ret r = 0 /\
  recv_status_of (rr_ret r) = WouldBlock /\
  recv_status_of (rr_ret r) <> IoError /\
  r = mk_recv_result 0 (Some buf) (Some from) (Some from_len) /\
  w_rx w' = w_rx w /\
  w_trace w' = w_trace w ++ [EvGetsockopt false] /\
  (forall w0, w_sockopt_broken w0 = false -> w_rx w0 = [] ->
     fst (udp_recvfrom_nb Human68k (Some buf) buf_size (Some from)
            (Some from_len) w0) = r).
Proof.
  intros Hs Hq. unfold udp_recvfrom_nb, getsockopt_socklenrecv.
  replace (buf_size <=? 0) with false by (symmetry; apply Z.leb_gt; lia).
  rewrite Hq. cbn [rr_ret log w_rx w_trace].
  repeat split; try discriminate.
  intros w0 H0 H1. rewrite H0, H1. reflexivity.
Qed.

Lemma broken_query_witness :
  let w := mk_world [Datagram (peer 7) (lit "OM1|bob|hi")]
                    true 0 [] [] [] [] [] [] in
  let '(r, w') :=
    udp_recvfrom_nb Human68k (Some []) (MAX_PKT - 1) (Some blank_addr)
                    (Some SIZEOF_SOCKADDR_IN) w in
  rr_ret r = 0 /\
  recv_status_of (rr_ret r) = WouldBlock /\
  recv_status_of (rr_ret r) <> IoError /\
  r = mk_recv_result 0 (Some []) (Some blank_addr) (Some SIZEOF_SOCKADDR_IN) /\
  w_rx w' = w_rx w /\
  w_trace w' = w_trace w ++ [EvGetsockopt false] /\
  (forall w0, w_sockopt_broken w0 = false -> w_rx w0 = [] ->
     fst (udp_recvfrom_nb Human68k (Some []) (MAX_PKT - 1) (Some blank_addr)
            (Some SIZEOF_SOCKADDR_IN) w0) = r).
Proof.
  apply (broken_query_is_would_block [] (MAX_PKT - 1) blank_addr
           SIZEOF_SOCKADDR_IN
           (mk_world [Datagram (peer 7) (lit "OM1|bob|hi")]
                     true 0 [] [] [] [] [] []));
    reflexivity.
Defined.

(* ------------------------------------------------------------------ *)
(** ** [stdin_poll_line], POSIX branch *)

(** The bytes of a chunk that follow its first newline have no effect on
    the result of the scan, nor on the accumulator it leaves: they are
    dropped with the local array [tmp]. *)
Lemma posix_loop_ignores_rest (pre post out : list ascii) (out_size : Z)
    (w : world) :
  stdin_poll_line_posix_loop (pre ++ LF :: post) out out_size w
  = stdin_poll_line_posix_loop (pre ++ [LF]) out out_size w.
Proof.
  revert w. induction pre as [|c pre IH]; intros w.
  - reflexivity.
  - cbn [app stdin_poll_line_posix_loop].
    destruct (Ascii.eqb c LF); [reflexivity|].
    destruct (Ascii.eqb c CR); [apply IH|].
    destruct (buf_len w <? MAX_TEXT - 1); apply IH.
Qed.

(** A completed line is what was accumulated. *)
Lemma posix_loop_emits_accumulated (post out : list ascii) (out_size : Z)
    (w : world) :
  stdin_poll_line_posix_loop (LF :: post) out out_size w
  = ((1, snprintf_s out_size (w_buf w)), set_buf [] w).
Proof. reflexivity. Qed.

(** C6, evaluation at the failing input: the chunk "hi\nyo" completes the
    line "hi", but the bytes "yo" after the terminator are neither in the
    accumulator nor left in the stream afterwards, and the next poll
    returns "no line yet" with an empty accumulator. *)
Theorem stdin_poll_line_drops_bytes_after_newline :
  let w := set_stdin [StdinBytes (lit "hi" ++ [LF] ++ lit "yo")] idle_world in
  let '((r, line), w1) := stdin_poll_line_posix [] MAX_TEXT w in
  let '((r2, _), w2) := stdin_poll_line_posix [] MAX_TEXT w1 in
  r = 1 /\ line = lit "hi" /\
  w_buf w1 = [] /\ w_stdin w1 = [] /\
  r2 = 0 /\ w_buf w2 = [].
Proof. vm_compute. repeat split. Qed.

(** The sibling [_WIN32] branch keeps what follows the terminator: the
    keys typed after Enter stay in the console queue for the next poll. *)
Example win32_keeps_keys_after_enter :
  let w := set_keys [104; 105; 13; 121; 111] idle_world in
  let '((r, line), w1) := stdin_poll_line_win32 [] MAX_TEXT w in
  r = 1 /\ line = lit "hi" /\ w_keys w1 = [121; 111].
Proof. vm_compute. repeat split. Qed.

(* ------------------------------------------------------------------ *)
(** ** The interaction loop *)

Lemma extends_refl (w : world) : extends w w [].
Proof. unfold extends. now rewrite app_nil_r. Qed.

Lemma extends_trans (w1 w2 w3 : world) (e1 e2 : list event) :
  extends w1 w2 e1 -> extends w2 w3 e2 -> extends w1 w3 (e1 ++ e2).
Proof. unfold extends. intros H1 H2. now rewrite H2, H1, app_assoc. Qed.

Lemma extends_log (w : world) (evs : list event) : extends w (log evs w) evs.
Proof. reflexivity. Qed.

Lemma same_input_refl (w : world) : same_input w w.
Proof. unfold same_input. auto. Qed.

Lemma same_input_trans (w1 w2 w3 : world) :
  same_input w1 w2 -> same_input w2 w3 -> same_input w1 w3.
Proof.
  unfold same_input. intros (A & B & C & D) (A' & B' & C' & D').
  repeat split; congruence.
Qed.

(** [udp_recvfrom_nb] leaves the input source, the send oracle and the
    driver alone, logs system calls only, and takes an entry off the queue
    whenever it returns a positive count. *)
Lemma udp_recvfrom_nb_frame (plat : platform) (b : option (list ascii))
    (bs : Z) (f : option sockaddr_in) (fl : option Z) (w : world) :
  let '(r, w1) := udp_recvfrom_nb plat b bs f fl w in
  same_input w w1 /\ w_tx w1 = w_tx w /\
  w_sockopt_broken w1 = w_sockopt_broken w /\
  (exists evs, extends w w1 evs /\
               filter is_render evs = [] /\ filter is_input_event evs = []) /\
  (0 < rr_ret r -> (List.length (w_rx w1) < List.length (w_rx w))%nat).
Proof.
  unfold udp_recvfrom_nb, getsockopt_socklenrecv, recvfrom, same_input, extends.
  destruct b, f, fl; try (cbn; repeat split; auto; try lia;
                          exists []; rewrite app_nil_r; auto).
  destruct (bs <=? 0); [cbn; repeat split; auto; try lia;
                        exists []; rewrite app_nil_r; auto|].
  destruct plat.
  - destruct (w_rx w) as [|[from data|e] q] eqn:Eq;
      repeat match goal with
             | |- context [if ?c then _ else _] => destruct c eqn:?
             end;
      cbn; repeat split; auto; try lia; eexists; repeat split.
  - destruct (w_rx w) as [|[from data|e] q] eqn:Eq;
      repeat match goal with
             | |- context [if ?c then _ else _] => destruct c eqn:?
             end;
      cbn; repeat split; auto; try lia; eexists; repeat split.
  - destruct (w_sockopt_broken w) eqn:Eb;
      [|destruct (socklenrecv (w_rx w) <=? 0)];
      try (cbn; repeat split; auto; try lia; eexists; repeat split).
    cbn [w_rx log set_rx set_errno].
    destruct (w_rx w) as [|[from data|e] q] eqn:Eq;
      repeat match goal with
             | |- context [if ?c then _ else _] => destruct c eqn:?
             end;
      cbn; repeat split; auto; try lia;
      eexists; rewrite <- ?app_assoc; repeat split.
Qed.

Lemma render_packet_kind (addr : Z) (buf : list ascii) :
  is_render (render_packet addr buf) = true /\
  is_input_event (render_packet addr buf) = false.
Proof.
  unfold render_packet.
  destruct (parse_packet _ _ _ _ _) as [[rc n] t].
  destruct rc, n, t; split; reflexivity.
Qed.

(** The drain loop ends within [S (length (w_rx w))] receive attempts; it
    does not touch the input source or the send oracle and logs no
    input-phase event. *)
Lemma drain_loop_frame (plat : platform) (fuel : nat) (w : world) :
  (List.length (w_rx w) < fuel)%nat ->
  exists w' evs,
    drain_loop plat fuel w = Some w' /\
    same_input w w' /\ w_tx w' = w_tx w /\
    extends w w' evs /\ filter is_input_event evs = [].
Proof.
  revert w. induction fuel as [|fuel IH]; intros w Hf; [lia|].
  cbn [drain_loop].
  pose proof (udp_recvfrom_nb_frame plat (Some []) (MAX_PKT - 1)
                (Some blank_addr) (Some SIZEOF_SOCKADDR_IN) w) as F.
  destruct (udp_recvfrom_nb _ _ _ _ _ w) as [r w1].
  destruct F as (Hsi & Htx & _ & (evs & Hext & _ & Hin) & Hlen).
  destruct (rr_ret r <? 0) eqn:Eneg.
  - exists (log [EvRecvFailed (w_errno w1)] w1), (evs ++ [EvRecvFailed (w_errno w1)]).
    repeat split; try apply Hsi; auto.
    + eapply extends_trans; [exact Hext | apply extends_log].
    + rewrite filter_app, Hin. reflexivity.
  - destruct (rr_ret r =? 0) eqn:Ez.
    + exists w1, evs. repeat split; try apply Hsi; auto.
    + apply Z.ltb_ge in Eneg. apply Z.eqb_neq in Ez.
      set (ev := render_packet _ _).
      destruct (IH (log [ev] w1)) as (w' & evs' & Hd & Hsi' & Htx' & Hext' & Hin').
      { cbn [log w_rx]. specialize (Hlen ltac:(lia)). lia. }
      exists w', (evs ++ [ev] ++ evs').
      split; [exact Hd|].
      split; [eapply same_input_trans; [exact Hsi | exact Hsi']|].
      split; [rewrite Htx'; exact Htx|].
      split.
      * eapply extends_trans; [exact Hext|].
        eapply extends_trans; [apply extends_log | exact Hext'].
      * rewrite !filter_app, Hin, Hin'. cbn [filter].
        destruct (render_packet_kind
                    (match rr_from r with Some a => sin_addr a | None => 0 end)
                    (match rr_buf r with Some b => b | None => [] end))
          as [_ E].
        fold ev in E. rewrite E. reflexivity.
Qed.

Lemma drain_total (plat : platform) (w : world) :
  exists w' evs,
    drain plat w = Some w' /\
    same_input w w' /\ w_tx w' = w_tx w /\
    extends w w' evs /\ filter is_input_event evs = [].
Proof. apply drain_loop_frame. lia. Qed.

(** ** The polls read the input source only *)

Lemma win32_loop_agree (keys : list Z) (out : list ascii) (out_size : Z)
    (w1 w2 : world) :
  w_buf w1 = w_buf w2 ->
  fst (stdin_poll_line_win32_loop keys out out_size w1)
  = fst (stdin_poll_line_win32_loop keys out out_size w2) /\
  w_buf (snd (stdin_poll_line_win32_loop keys out out_size w1))
  = w_buf (snd (stdin_poll_line_win32_loop keys out out_size w2)) /\
  w_keys (snd (stdin_poll_line_win32_loop keys out out_size w1))
  = w_keys (snd (stdin_poll_line_win32_loop keys out out_size w2)).
Proof.
  revert w1 w2. induction keys as [|c rest IH]; intros w1 w2 Hb;
    cbn [stdin_poll_line_win32_loop].
  - cbn. auto.
  - unfold buf_len. cbn [set_keys w_buf]. rewrite Hb.
    destruct (c =? 3); [cbn; auto|].
    destruct ((c =? 13) || (c =? 10)); [cbn; auto|].
    destruct (c =? 8).
    + destruct (Z.of_nat (List.length (w_buf w2)) >? 0);
        apply IH; cbn; congruence.
    + destruct ((c >=? 32) && (c <=? 126)); [|apply IH; cbn; congruence].
      destruct (Z.of_nat (List.length (w_buf w2)) <? MAX_TEXT - 1);
        apply IH; cbn; congruence.
Qed.

Lemma win32_loop_footprint (keys : list Z) (out : list ascii) (out_size : Z)
    (w : world) :
  let w' := snd (stdin_poll_line_win32_loop keys out out_size w) in
  w_rx w' = w_rx w /\ w_tx w' = w_tx w /\ w_stdin w' = w_stdin w /\
  w_stream w' = w_stream w /\ w_sockopt_broken w' = w_sockopt_broken w /\
  exists evs, extends w w' evs /\ forallb is_input_event evs = true.
Proof.
  revert w. induction keys as [|c rest IH]; intros w;
    cbn [stdin_poll_line_win32_loop].
  - cbn. repeat split. exists []. split; [|reflexivity].
    unfold extends. cbn. now rewrite app_nil_r.
  - set (wk := set_keys rest w).
    assert (Hk : w_rx wk = w_rx w /\ w_tx wk = w_tx w /\
                 w_stdin wk = w_stdin w /\ w_stream wk = w_stream w /\
                 w_sockopt_broken wk = w_sockopt_broken w /\ extends w wk [])
      by (unfold extends; cbn; repeat split; now rewrite app_nil_r).
    clearbody wk. destruct Hk as (A & B & C & D & E & F).
    assert (Step : forall evs wn,
               w_rx wn = w_rx wk -> w_tx wn = w_tx wk ->
               w_stdin wn = w_stdin wk -> w_stream wn = w_stream wk ->
               w_sockopt_broken wn = w_sockopt_broken wk ->
               extends wk wn evs -> forallb is_input_event evs = true ->
               let w' := snd (stdin_poll_line_win32_loop rest out out_size wn) in
               w_rx w' = w_rx w /\ w_tx w' = w_tx w /\
               w_stdin w' = w_stdin w /\ w_stream w' = w_stream w /\
               w_sockopt_broken w' = w_sockopt_broken w /\
               exists evs, extends w w' evs /\
                           forallb is_input_event evs = true).
    { intros evs wn A' B' C' D' E' F' G'.
      destruct (IH wn) as (A2 & B2 & C2 & D2 & E2 & evs2 & F2 & G2).
      cbv zeta. repeat split; try congruence.
      exists (evs ++ evs2). split.
      - pose proof (extends_trans _ _ _ _ _ F F') as T.
        exact (extends_trans _ _ _ _ _ T F2).
      - rewrite forallb_app, G', G2. reflexivity. }
    destruct (c =? 3).
    { cbn. repeat split; auto. exists []. split; [exact F | reflexivity]. }
    destruct ((c =? 13) || (c =? 10)).
    { cbn. repeat split; auto. exists [EvEcho [LF]]. split; [|reflexivity].
      unfold extends in *. cbn. rewrite F, app_nil_r. reflexivity. }
    destruct (c =? 8).
    { destruct (buf_len wk >? 0).
      - eapply Step; try reflexivity.
      - eapply (Step []); try reflexivity. apply extends_refl. }
    destruct ((c >=? 32) && (c <=? 126)).
    { destruct (buf_len wk <? MAX_TEXT - 1).
      - eapply Step; try reflexivity.
      - eapply (Step []); try reflexivity. apply extends_refl. }
    eapply (Step []); try reflexivity. apply extends_refl.
Qed.

Lemma posix_loop_agree (chunk out : list ascii) (out_size : Z)
    (w1 w2 : world) :
  w_buf w1 = w_buf w2 ->
  fst (stdin_poll_line_posix_loop chunk out out_size w1)
  = fst (stdin_poll_line_posix_loop chunk out out_size w2) /\
  w_buf (snd (stdin_poll_line_posix_loop chunk out out_size w1))
  = w_buf (snd (stdin_poll_line_posix_loop chunk out out_size w2)).
Proof.
  revert w1 w2. induction chunk as [|c rest IH]; intros w1 w2 Hb;
    cbn [stdin_poll_line_posix_loop].
  - cbn. auto.
  - unfold buf_len. rewrite Hb.
    destruct (Ascii.eqb c LF); [cbn; auto|].
    destruct (Ascii.eqb c CR); [apply IH, Hb|].
    destruct (Z.of_nat (List.length (w_buf w2)) <? MAX_TEXT - 1);
      apply IH; cbn; congruence.
Qed.

Lemma posix_loop_footprint (chunk out : list ascii) (out_size : Z)
    (w : world) :
  let w' := snd (stdin_poll_line_posix_loop chunk out out_size w) in
  w_rx w' = w_rx w /\ w_tx w' = w_tx w /\ w_stdin w' = w_stdin w /\
  w_keys w' = w_keys w /\ w_stream w' = w_stream w /\
  w_sockopt_broken w' = w_sockopt_broken w /\ w_errno w' = w_errno w /\
  w_trace w' = w_trace w.
Proof.
  revert w. induction chunk as [|c rest IH]; intros w;
    cbn [stdin_poll_line_posix_loop].
  - cbn. repeat split.
  - destruct (Ascii.eqb c LF); [cbn; repeat split|].
    destruct (Ascii.eqb c CR); [apply IH|].
    destruct (buf_len w <? MAX_TEXT - 1); [|apply IH].
    destruct (IH (set_buf (w_buf w ++ [c]) w)) as (A & B & C & D & E & F & G & H).
    cbv zeta. repeat split; assumption.
Qed.

Lemma posix_poll_agree (out : list ascii) (out_size : Z) (w1 w2 : world) :
  same_input w1 w2 ->
  fst (stdin_poll_line_posix out out_size w1)
  = fst (stdin_poll_line_posix out out_size w2) /\
  same_input (snd (stdin_poll_line_posix out out_size w1))
             (snd (stdin_poll_line_posix out out_size w2)).
Proof.
  unfold same_input. intros (Hs & Hk & Hst & Hb).
  unfold stdin_poll_line_posix, read_stdin. rewrite Hs.
  destruct (w_stdin w2) as [|[bytes|e] q] eqn:E2.
  - cbn. repeat split; congruence.
  - set (got := firstn (Z.to_nat 128) bytes).
    set (left := match skipn (Z.to_nat 128) bytes with
                 | [] => q | _ => StdinBytes (skipn (Z.to_nat 128) bytes) :: q
                 end).
    replace (Z.of_nat (List.length got) <? 0) with false
      by (symmetry; apply Z.ltb_ge; lia).
    destruct (Z.of_nat (List.length got) =? 0); [cbn; repeat split; auto|].
    destruct (posix_loop_agree got out out_size
                (set_stdin left w1) (set_stdin left w2) Hb) as [A B].
    destruct (posix_loop_footprint got out out_size (set_stdin left w1))
      as (_ & _ & C1 & D1 & E1 & _).
    destruct (posix_loop_footprint got out out_size (set_stdin left w2))
      as (_ & _ & C2 & D2 & E2' & _).
    cbv zeta in *. cbn [w_stdin w_keys w_stream set_stdin] in *.
    repeat split; congruence.
  - cbn [w_errno set_errno set_stdin].
    destruct ((e =? EWOULDBLOCK) || (e =? EAGAIN)); cbn; repeat split; auto.
Qed.

Lemma posix_poll_footprint (out : list ascii) (out_size : Z) (w : world) :
  let w' := snd (stdin_poll_line_posix out out_size w) in
  w_rx w' = w_rx w /\ w_tx w' = w_tx w /\
  w_keys w' = w_keys w /\ w_stream w' = w_stream w /\
  w_sockopt_broken w' = w_sockopt_broken w /\ w_trace w' = w_trace w.
Proof.
  unfold stdin_poll_line_posix, read_stdin.
  destruct (w_stdin w) as [|[bytes|e] q].
  - cbn. repeat split.
  - set (got := firstn (Z.to_nat 128) bytes).
    set (left := match skipn (Z.to_nat 128) bytes with
                 | [] => q | _ => StdinBytes (skipn (Z.to_nat 128) bytes) :: q
                 end).
    replace (Z.of_nat (List.length got) <? 0) with false
      by (symmetry; apply Z.ltb_ge; lia).
    destruct (Z.of_nat (List.length got) =? 0); [cbn; repeat split|].
    destruct (posix_loop_footprint got out out_size (set_stdin left w))
      as (A & B & _ & D & E & F & _ & H).
    cbv zeta in *. repeat split; assumption.
  - cbn [w_errno set_errno set_stdin].
    destruct ((e =? EWOULDBLOCK) || (e =? EAGAIN)); cbn; repeat split.
Qed.

Lemma win32_poll_agree (out : list ascii) (out_size : Z) (w1 w2 : world) :
  same_input w1 w2 ->
  fst (stdin_poll_line_win32 out out_size w1)
  = fst (stdin_poll_line_win32 out out_size w2) /\
  same_input (snd (stdin_poll_line_win32 out out_size w1))
             (snd (stdin_poll_line_win32 out out_size w2)).
Proof.
  unfold same_input. intros (Hs & Hk & Hst & Hb).
  unfold stdin_poll_line_win32. rewrite Hk.
  destruct (win32_loop_agree (w_keys w2) out out_size w1 w2 Hb) as (A & B & C).
  destruct (win32_loop_footprint (w_keys w2) out out_size w1)
    as (_ & _ & S1 & T1 & _).
  destruct (win32_loop_footprint (w_keys w2) out out_size w2)
    as (_ & _ & S2 & T2 & _).
  cbv zeta in *. repeat split; congruence.
Qed.

(** Return values of the polls. *)
Lemma win32_loop_range (keys : list Z) (out : list ascii) (out_size : Z)
    (w : world) :
  let r := fst (fst (stdin_poll_line_win32_loop keys out out_size w)) in
  r = -2 \/ r = 0 \/ r = 1.
Proof.
  revert w. induction keys as [|c rest IH]; intros w;
    cbn [stdin_poll_line_win32_loop]; [cbn; auto|].
  destruct (c =? 3); [cbn; auto|].
  destruct ((c =? 13) || (c =? 10)); [cbn; auto|].
  destruct (c =? 8); [destruct (buf_len _ >? 0); apply IH|].
  destruct ((c >=? 32) && (c <=? 126)); [|apply IH].
  destruct (buf_len _ <? MAX_TEXT - 1); apply IH.
Qed.

Lemma posix_loop_range (chunk out : list ascii) (out_size : Z) (w : world) :
  let r := fst (fst (stdin_poll_line_posix_loop chunk out out_size w)) in
  r = 0 \/ r = 1.
Proof.
  revert w. induction chunk as [|c rest IH]; intros w;
    cbn [stdin_poll_line_posix_loop]; [cbn; auto|].
  destruct (Ascii.eqb c LF); [cbn; auto|].
  destruct (Ascii.eqb c CR); [apply IH|].
  destruct (buf_len w <? MAX_TEXT - 1); apply IH.
Qed.

Lemma posix_poll_range (out : list ascii) (out_size : Z) (w : world) :
  let r := fst (fst (stdin_poll_line_posix out out_size w)) in
  r = -1 \/ r = 0 \/ r = 1.
Proof.
  unfold stdin_poll_line_posix.
  destruct (read_stdin 128 w) as [[n tmp] w1].
  destruct (n <? 0).
  - destruct ((w_errno w1 =? EWOULDBLOCK) || (w_errno w1 =? EAGAIN));
      cbn; auto.
  - destruct (n =? 0); [cbn; auto|].
    right. apply posix_loop_range.
Qed.

(** [strcmp] returns 0 exactly on equal C strings. *)
Lemma strcmp_zero_iff (a b : list ascii) :
  strcmp a b = 0 <-> c_str a = c_str b.
Proof.
  revert b. induction a as [|ca ra IH]; intros b; cbn [strcmp].
  - cbn [c_str]. split.
    + intros H. assert (E : NUL = hd NUL b) by (apply uchar_inj; cbn; lia).
      symmetry. apply c_str_hd_nul. rewrite <- E. reflexivity.
    + intros H. destruct b as [|cb rb]; [reflexivity|].
      cbn in H. cbn [hd]. destruct (is_nul cb) eqn:E; [|discriminate].
      apply is_nul_true in E. subst cb. reflexivity.
  - destruct (Ascii.eqb ca (hd NUL b)) eqn:E; cbn [negb].
    + apply Ascii.eqb_eq in E.
      destruct (is_nul ca) eqn:Ea.
      * cbn [c_str]. rewrite Ea.
        rewrite E in Ea. rewrite (c_str_hd_nul b Ea). tauto.
      * rewrite (c_str_cons ca ra Ea).
        rewrite E in Ea. rewrite (c_str_hd b Ea), <- E.
        rewrite IH.
        split; [intros ->; reflexivity | intros H; now injection H].
    + apply Ascii.eqb_neq in E. split.
      * intros H. apply uchar_inj in H. contradiction.
      * intros H. exfalso. apply E.
        destruct (is_nul ca) eqn:Ea, (is_nul (hd NUL b)) eqn:Eb.
        -- apply is_nul_true in Ea, Eb. congruence.
        -- cbn [c_str] in H. rewrite Ea, (c_str_hd b Eb) in H. discriminate.
        -- rewrite (c_str_cons ca ra Ea), (c_str_hd_nul b Eb) in H.
           discriminate.
        -- rewrite (c_str_cons ca ra Ea), (c_str_hd b Eb) in H.
           now injection H.
Qed.

Lemma exit_requested_same_input (plat : platform) (w1 w2 : world) :
  same_input w1 w2 -> (exit_requested plat w1 <-> exit_requested plat w2).
Proof.
  intros H. unfold exit_requested. destruct plat.
  - destruct (win32_poll_agree [] MAX_TEXT w1 w2 H) as [-> _]. tauto.
  - destruct (posix_poll_agree [] MAX_TEXT w1 w2 H) as [-> _]. tauto.
  - destruct H as (_ & _ & Hs & _). unfold fgets. rewrite Hs.
    destruct (w_stream w2); [tauto|].
    destruct (fgets_split _ _). tauto.
Qed.

(** The input phase ends the loop exactly when the input source asks. *)
Lemma input_phase_exit (plat : platform) (nick : list ascii)
    (dest : sockaddr_in) (w : world) :
  fst (input_phase plat nick dest w) = Terminating <-> exit_requested plat w.
Proof.
  unfold input_phase, exit_requested, streq. destruct plat.
  - pose proof (win32_loop_range (w_keys w) [] MAX_TEXT w) as R.
    fold (stdin_poll_line_win32 [] MAX_TEXT w) in R.
    destruct (stdin_poll_line_win32 [] MAX_TEXT w) as [[r line] w1].
    cbn [fst] in *. destruct R as [-> | [-> | ->]].
    + cbn. tauto.
    + cbn. split; [discriminate | intros [H|[H|[H _]]]; discriminate].
    + change (1 =? -2) with false. change (1 <? 0) with false.
      change (1 =? 1) with true. cbv iota.
      destruct (strcmp line (lit "/quit") =? 0) eqn:E.
      * apply Z.eqb_eq, strcmp_zero_iff in E. cbn [fst]. tauto.
      * apply Z.eqb_neq in E. rewrite strcmp_zero_iff in E.
        destruct (strcmp line (lit "/help") =? 0);
          [|destruct (negb (is_nul (hd NUL line)))]; cbn [fst];
          (split; [discriminate | intros [H|[H|[_ H]]];
                                  [discriminate | discriminate | contradiction]]).
  - pose proof (posix_poll_range [] MAX_TEXT w) as R.
    destruct (stdin_poll_line_posix [] MAX_TEXT w) as [[r line] w1].
    cbn [fst] in *. destruct R as [-> | [-> | ->]].
    + cbn. tauto.
    + cbn. split; [discriminate | intros [H|[H|[H _]]]; discriminate].
    + change (1 =? -2) with false. change (1 <? 0) with false.
      change (1 =? 1) with true. cbv iota.
      destruct (strcmp line (lit "/quit") =? 0) eqn:E.
      * apply Z.eqb_eq, strcmp_zero_iff in E. cbn [fst]. tauto.
      * apply Z.eqb_neq in E. rewrite strcmp_zero_iff in E.
        destruct (strcmp line (lit "/help") =? 0);
          [|destruct (negb (is_nul (hd NUL line)))]; cbn [fst];
          (split; [discriminate | intros [H|[H|[_ H]]];
                                  [discriminate | discriminate | contradiction]]).
  - destruct (fgets MAX_TEXT w) as [[line|] w1]; cbn [fst]; [|tauto].
    destruct (strcmp (strip_trailing_crlf line) (lit "/quit") =? 0) eqn:E.
    + apply Z.eqb_eq, strcmp_zero_iff in E. cbn [fst]. tauto.
    + apply Z.eqb_neq in E. rewrite strcmp_zero_iff in E.
      destruct (strcmp _ (lit "/help") =? 0);
        [|destruct (is_nul _)]; cbn [fst];
        (split; [discriminate | contradiction]).
Qed.

(** ** The input phase logs input events only *)

Lemma input_ext_refl (w : world) : input_ext 0 w w.
Proof. exists []. repeat split; auto. apply extends_refl. Qed.

Lemma input_ext_log (k : nat) (w0 w : world) (evs : list event) :
  forallb is_input_event evs = true ->
  input_ext k w0 w -> input_ext k w0 (log evs w).
Proof.
  intros He (e0 & H1 & H2 & H3 & H4). exists (e0 ++ evs). repeat split.
  - eapply extends_trans; [exact H1 | apply extends_log].
  - rewrite forallb_app, H2, He. reflexivity.
  - rewrite length_app. lia.
  - exact H4.
Qed.

Lemma input_ext_mark (w0 w : world) (e : event) :
  is_input_event e = true ->
  input_ext 0 w0 w -> input_ext 1 w0 (log [e] w).
Proof.
  intros He (e0 & H1 & H2 & H3 & H4). exists (e0 ++ [e]). repeat split.
  - eapply extends_trans; [exact H1 | apply extends_log].
  - rewrite forallb_app, H2. cbn. rewrite He. reflexivity.
  - rewrite length_app. cbn. lia.
  - exact H4.
Qed.

Lemma input_ext_sleep (k : nat) (w0 w : world) (ms : Z) :
  input_ext k w0 w -> input_ext k w0 (tiny_sleep_ms ms w).
Proof.
  intros H. unfold tiny_sleep_ms. destruct (ms <=? 0); [exact H|].
  apply input_ext_log; [reflexivity | exact H].
Qed.

Lemma input_ext_send (k : nat) (w0 w : world) (nick line : list ascii)
    (dest : sockaddr_in) :
  input_ext k w0 w -> input_ext k w0 (send_line nick dest line w).
Proof.
  intros H. unfold send_line, sendto.
  destruct (w_tx w) as [|r t].
  - do 2 (apply input_ext_log; [reflexivity|]). exact H.
  - apply input_ext_log; [reflexivity|].
    apply input_ext_log; [reflexivity|].
    destruct H as (e0 & H1 & H2 & H3 & H4). exists e0. repeat split; auto.
Qed.

Lemma input_phase_footprint (plat : platform) (nick : list ascii)
    (dest : sockaddr_in) (w : world) :
  input_ext 1 w (snd (input_phase plat nick dest w)).
Proof.
  assert (P : match plat with
              | Win32 => input_ext 0 w (snd (stdin_poll_line_win32 [] MAX_TEXT w))
              | Posix => input_ext 0 w (snd (stdin_poll_line_posix [] MAX_TEXT w))
              | Human68k => input_ext 0 w (snd (fgets MAX_TEXT w))
              end).
  { destruct plat.
    - destruct (win32_loop_footprint (w_keys w) [] MAX_TEXT w)
        as (A & _ & _ & _ & _ & evs & E1 & E2).
      exists evs. repeat split; auto. lia.
    - destruct (posix_poll_footprint [] MAX_TEXT w) as (A & _ & _ & _ & _ & T).
      exists []. repeat split; auto.
      unfold extends. rewrite T, app_nil_r. reflexivity.
    - unfold fgets. destruct (w_stream w); [apply input_ext_refl|].
      destruct (fgets_split _ _). exists []. repeat split; auto.
      unfold extends. cbn. now rewrite app_nil_r. }
  unfold input_phase. destruct plat.
  - destruct (stdin_poll_line_win32 [] MAX_TEXT w) as [[r line] w1].
    cbn [snd] in P.
    repeat match goal with
           | |- context [if ?c then _ else _] => destruct c
           end; cbn [snd];
      repeat first [ apply input_ext_sleep | apply input_ext_send
                   | apply input_ext_mark; [reflexivity | exact P]
                   | apply input_ext_log; [reflexivity|] ].
  - destruct (stdin_poll_line_posix [] MAX_TEXT w) as [[r line] w1].
    cbn [snd] in P.
    repeat match goal with
           | |- context [if ?c then _ else _] => destruct c
           end; cbn [snd];
      repeat first [ apply input_ext_sleep | apply input_ext_send
                   | apply input_ext_mark; [reflexivity | exact P]
                   | apply input_ext_log; [reflexivity|] ].
  - destruct (fgets MAX_TEXT w) as [[line|] w1]; cbn [snd] in P.
    + repeat match goal with
             | |- context [if ?c then _ else _] => destruct c
             end; cbn [snd];
        repeat first [ apply input_ext_sleep | apply input_ext_send
                     | apply input_ext_mark; [reflexivity | exact P]
                     | apply input_ext_log; [reflexivity|] ].
    + cbn [snd]. apply input_ext_mark; [reflexivity | exact P].
Qed.

(* ------------------------------------------------------------------ *)
(** ** Drain before input *)

Lemma firstn_nonempty_length (n : nat) (data : list ascii) :
  data <> [] -> (0 < n)%nat -> 0 < Z.of_nat (List.length (firstn n data)).
Proof.
  intros Hd Hn. rewrite length_firstn.
  destruct data; [congruence|]. cbn [List.length]. lia.
Qed.

(** Receiving a queued non-empty datagram. *)
Lemma udp_recv_datagram (plat : platform) (from : sockaddr_in)
    (data : list ascii) (q : list sock_event) (w : world) :
  w_rx w = Datagram from data :: q -> data <> [] -> fits plat data ->
  (plat = Human68k -> query_works w) ->
  exists w1 evs n,
    udp_recvfrom_nb plat (Some []) (MAX_PKT - 1) (Some blank_addr)
                    (Some SIZEOF_SOCKADDR_IN) w
    = (mk_recv_result n (Some (firstn (Z.to_nat (MAX_PKT - 1)) data))
                      (Some from) (Some SIZEOF_SOCKADDR_IN), w1) /\
    0 < n /\ w_rx w1 = q /\ w_sockopt_broken w1 = w_sockopt_broken w /\
    extends w w1 evs /\ filter is_render evs = [] /\
    filter is_report evs = [].
Proof.
  intros Hrx Hd Hfit Hacc.
  pose proof (firstn_nonempty_length (Z.to_nat (MAX_PKT - 1)) data Hd
                ltac:(unfold MAX_PKT; lia)) as Hn.
  set (got := firstn (Z.to_nat (MAX_PKT - 1)) data) in *.
  set (n := Z.of_nat (List.length got)) in *.
  unfold udp_recvfrom_nb, getsockopt_socklenrecv.
  change (MAX_PKT - 1 <=? 0) with false. cbv iota.
  destruct plat.
  - unfold recvfrom. rewrite Hrx. fold got. fold n.
    replace (MAX_PKT - 1 <? Z.of_nat (List.length data)) with false
      by (symmetry; apply Z.ltb_ge; apply (Hfit eq_refl)).
    replace (n <? 0) with false by (symmetry; apply Z.ltb_ge; lia).
    replace (n =? 0) with false by (symmetry; apply Z.eqb_neq; lia).
    eexists _, [EvRecvfrom n], n. repeat split. exact Hn.
  - unfold recvfrom. rewrite Hrx. fold got. fold n.
    replace (n <? 0) with false by (symmetry; apply Z.ltb_ge; lia).
    replace (n =? 0) with false by (symmetry; apply Z.eqb_neq; lia).
    eexists _, [EvRecvfrom n], n. repeat split. exact Hn.
  - rewrite (Hacc eq_refl), Hrx. cbn [socklenrecv].
    assert (Hl : 0 < Z.of_nat (List.length data))
      by (destruct data; [congruence | cbn [List.length]; lia]).
    replace (Z.of_nat (List.length data) <=? 0) with false
      by (symmetry; apply Z.leb_gt; lia).
    unfold recvfrom. cbn [w_rx log]. rewrite Hrx. fold got. fold n.
    replace (n <=? 0) with false by (symmetry; apply Z.leb_gt; lia).
    eexists _, [EvGetsockopt true; EvRecvfrom n], n.
    repeat split; [exact Hn | exact (Hacc eq_refl) |].
    unfold extends. cbn. now rewrite <- app_assoc.
Qed.

(** Every queue is a run of receivable datagrams followed by something
    that stops the drain. *)
Lemma queue_splits (plat : platform) (q : list sock_event) :
  exists dgrams rest,
    q = queued dgrams ++ rest /\
    Forall (receivable plat) dgrams /\ drain_stops plat rest.
Proof.
  induction q as [|ev q (dgrams & rest & Hq & Hf & Hs)].
  - exists [], []. repeat split. constructor.
  - destruct ev as [from data|e].
    + destruct data as [|c data].
      * exists [], (Datagram from [] :: q). repeat split;
          [constructor | left; reflexivity].
      * destruct (Z.leb_spec (len (c :: data)) (MAX_PKT - 1)) as [Hl|Hl].
        -- exists ((from, c :: data) :: dgrams), rest. split.
           ++ cbn [queued map app fst snd]. now rewrite Hq.
           ++ split; [|exact Hs]. constructor; [|exact Hf].
              split; [discriminate | intros _; exact Hl].
        -- destruct plat.
           ++ exists [], (Datagram from (c :: data) :: q). repeat split;
                [constructor | right; split; [reflexivity | exact Hl]].
           ++ exists ((from, c :: data) :: dgrams), rest. split.
              ** cbn [queued map app fst snd]. now rewrite Hq.
              ** split; [|exact Hs]. constructor; [|exact Hf].
                 split; [discriminate | intros H; discriminate H].
           ++ exists ((from, c :: data) :: dgrams), rest. split.
              ** cbn [queued map app fst snd]. now rewrite Hq.
              ** split; [|exact Hs]. constructor; [|exact Hf].
                 split; [discriminate | intros H; discriminate H].
    + exists [], (RecvError e :: q). repeat split; constructor.
Qed.

(** At a stopping queue the receive returns 0 or -1. *)
Lemma udp_recv_stop (plat : platform) (w : world) :
  drain_stops plat (w_rx w) -> (plat = Human68k -> query_works w) ->
  rr_ret (fst (udp_recvfrom_nb plat (Some []) (MAX_PKT - 1) (Some blank_addr)
                 (Some SIZEOF_SOCKADDR_IN) w)) <= 0.
Proof.
  intros Hs Hacc.
  unfold udp_recvfrom_nb, getsockopt_socklenrecv, recvfrom.
  change (MAX_PKT - 1 <=? 0) with false. cbv iota.
  destruct plat.
  - destruct (w_rx w) as [|[from data|e] q].
    + cbn [Z.ltb Z.compare w_errno set_errno log]. cbn [fst rr_ret].
      destruct (_ =? _); cbn [fst rr_ret]; lia.
    + destruct Hs as [-> | [_ Hl]].
      * change (MAX_PKT - 1 <? Z.of_nat (List.length (@nil ascii)))
          with false.
        rewrite firstn_nil. cbn [List.length Z.of_nat Z.ltb Z.eqb Z.compare].
        cbn [fst rr_ret]. lia.
      * replace (MAX_PKT - 1 <? Z.of_nat (List.length data)) with true
          by (symmetry; apply Z.ltb_lt; exact Hl).
        cbn [Z.ltb Z.compare]. destruct (_ =? _); cbn [fst rr_ret]; lia.
    + cbn [Z.ltb Z.compare]. destruct (_ =? _); cbn [fst rr_ret]; lia.
  - destruct (w_rx w) as [|[from data|e] q].
    + cbn [Z.ltb Z.compare]. destruct (_ || _); cbn [fst rr_ret]; lia.
    + destruct Hs as [-> | [Hp _]]; [|discriminate Hp].
      rewrite firstn_nil. cbn [List.length Z.of_nat Z.ltb Z.eqb Z.compare].
      cbn [fst rr_ret]. lia.
    + cbn [Z.ltb Z.compare]. destruct (_ || _); cbn [fst rr_ret]; lia.
  - rewrite (Hacc eq_refl).
    destruct (w_rx w) as [|[from data|e] q] eqn:Eq.
    + cbn [socklenrecv Z.leb Z.compare fst rr_ret]. lia.
    + destruct Hs as [-> | [Hp _]]; [|discriminate Hp].
      cbn [socklenrecv List.length Z.of_nat Z.leb Z.compare fst rr_ret]. lia.
    + cbn [socklenrecv Z.leb Z.compare].
      cbn [w_rx log]. rewrite Eq. cbn [Z.leb Z.compare fst rr_ret]. lia.
Qed.

(** At a failure the receive returns -1, takes the failure off the queue
    and leaves its code as the error code; it prints and reports
    nothing itself. *)
Lemma udp_recv_failure (plat : platform) (e : Z) (w : world) :
  failure_at_head plat (w_rx w) e -> (plat = Human68k -> query_works w) ->
  exists r w1 evs,
    udp_recvfrom_nb plat (Some []) (MAX_PKT - 1) (Some blank_addr)
                    (Some SIZEOF_SOCKADDR_IN) w = (r, w1) /\
    rr_ret r = -1 /\ w_errno w1 = e /\ w_rx w1 = tl (w_rx w) /\
    extends w w1 evs /\ filter is_render evs = [] /\
    filter is_report evs = [] /\ filter is_input_event evs = [].
Proof.
  intros Hf Hacc.
  unfold udp_recvfrom_nb, getsockopt_socklenrecv, recvfrom.
  change (MAX_PKT - 1 <=? 0) with false. cbv iota.
  destruct plat.
  - destruct (w_rx w) as [|[from data|e'] q]; [contradiction| |].
    + destruct Hf as (_ & Hl & ->).
      replace (MAX_PKT - 1 <? Z.of_nat (List.length data)) with true
        by (symmetry; apply Z.ltb_lt; exact Hl).
      cbn [Z.ltb Z.compare w_errno set_errno log].
      change (WSAEMSGSIZE =? WSAEWOULDBLOCK) with false. cbv iota.
      eexists _, _, [EvRecvfrom (-1)]. repeat split.
    + destruct Hf as [-> Hw]. specialize (Hw ltac:(discriminate)).
      cbn [would_block_code] in Hw.
      cbn [Z.ltb Z.compare w_errno set_errno log]. rewrite Hw.
      eexists _, _, [EvRecvfrom (-1)]. repeat split.
  - destruct (w_rx w) as [|[from data|e'] q]; [contradiction| |].
    + destruct Hf as (Hp & _). discriminate Hp.
    + destruct Hf as [-> Hw]. specialize (Hw ltac:(discriminate)).
      cbn [would_block_code] in Hw.
      cbn [Z.ltb Z.compare w_errno set_errno log]. rewrite Hw.
      eexists _, _, [EvRecvfrom (-1)]. repeat split.
  - rewrite (Hacc eq_refl).
    destruct (w_rx w) as [|[from data|e'] q] eqn:Eq; [contradiction| |].
    + destruct Hf as (Hp & _). discriminate Hp.
    + destruct Hf as [-> _].
      cbn [socklenrecv Z.leb Z.compare].
      cbn [w_rx log]. rewrite Eq. cbn [Z.leb Z.compare].
      eexists _, _, [EvGetsockopt true; EvRecvfrom (-1)].
      repeat split. unfold extends. cbn. now rewrite <- app_assoc.
Qed.

(** On a queue of receivable datagrams followed by something that stops
    the drain, the drain loop prints exactly those datagrams, in order. *)
Lemma drain_loop_renders (plat : platform)
    (dgrams : list (sockaddr_in * list ascii)) (rest : list sock_event) :
  Forall (receivable plat) dgrams -> drain_stops plat rest ->
  forall (fuel : nat) (w : world),
    w_rx w = queued dgrams ++ rest ->
    (plat = Human68k -> query_works w) ->
    (List.length (w_rx w) < fuel)%nat ->
    exists w1 pre,
      drain_loop plat fuel w = Some w1 /\ extends w w1 pre /\
      filter is_render pre = map render_datagram dgrams.
Proof.
  intros Hne Hstop. induction Hne as [|d ds Hd Hds IH];
    intros fuel w Hrx Hacc Hfuel;
    (destruct fuel as [|fuel]; [lia|]); cbn [drain_loop].
  - cbn [queued map app] in Hrx.
    assert (Hs : drain_stops plat (w_rx w)) by now rewrite Hrx.
    pose proof (udp_recv_stop plat w Hs Hacc) as Hle.
    pose proof (udp_recvfrom_nb_frame plat (Some []) (MAX_PKT - 1)
                  (Some blank_addr) (Some SIZEOF_SOCKADDR_IN) w) as F.
    destruct (udp_recvfrom_nb _ _ _ _ _ w) as [r w1]. cbn [fst] in Hle.
    destruct F as (_ & _ & _ & (evs & Hext & Hr & _) & _).
    destruct (rr_ret r <? 0) eqn:Eneg.
    + exists (log [EvRecvFailed (w_errno w1)] w1),
        (evs ++ [EvRecvFailed (w_errno w1)]).
      split; [reflexivity|]. split.
      * eapply extends_trans; [exact Hext | apply extends_log].
      * rewrite filter_app, Hr. reflexivity.
    + apply Z.ltb_ge in Eneg.
      replace (rr_ret r =? 0) with true by (symmetry; apply Z.eqb_eq; lia).
      exists w1, evs. auto.
  - cbn [queued map app] in Hrx.
    destruct (udp_recv_datagram plat (fst d) (snd d) _ w Hrx
                (proj1 Hd) (proj2 Hd) Hacc)
      as (w1 & evs & n & Hu & Hn & Hq & Hslr & Hext & Hr & _).
    rewrite Hu. cbn [rr_ret rr_buf rr_from].
    replace (n <? 0) with false by (symmetry; apply Z.ltb_ge; lia).
    replace (n =? 0) with false by (symmetry; apply Z.eqb_neq; lia).
    fold (render_datagram d).
    destruct (IH fuel (log [render_datagram d] w1))
      as (w2 & pre & Hd2 & Hext2 & Hr2).
    + cbn [log w_rx]. exact Hq.
    + intros Hp. unfold query_works. cbn [log w_sockopt_broken].
      rewrite Hslr. apply Hacc, Hp.
    + cbn [log w_rx]. rewrite Hq. rewrite Hrx in Hfuel.
      cbn [List.length] in Hfuel. unfold queued. lia.
    + exists w2, (evs ++ [render_datagram d] ++ pre).
      split; [exact Hd2|]. split.
      * eapply extends_trans; [exact Hext|].
        eapply extends_trans; [apply extends_log | exact Hext2].
      * rewrite !filter_app, Hr, Hr2. cbn [filter app map].
        destruct (render_packet_kind (sin_addr (fst d))
                    (firstn (Z.to_nat (MAX_PKT - 1)) (snd d))) as [E _].
        fold (render_datagram d) in E. rewrite E. reflexivity.
Qed.

Lemma render_is_no_report (addr : Z) (buf : list ascii) :
  is_report (render_packet addr buf) = false.
Proof.
  unfold render_packet.
  destruct (parse_packet _ _ _ _ _) as [[rc n] t].
  destruct rc, n, t; reflexivity.
Qed.

(** On a queue of receivable datagrams followed by a receive failure, the
    drain loop prints those datagrams, then reports the failure, once and
    with its error code, and stops; the failure has left the queue, what
    was queued behind it stays. *)
Lemma drain_loop_reports (plat : platform)
    (dgrams : list (sockaddr_in * list ascii)) (rest : list sock_event)
    (e : Z) :
  Forall (receivable plat) dgrams -> failure_at_head plat rest e ->
  forall (fuel : nat) (w : world),
    w_rx w = queued dgrams ++ rest ->
    (plat = Human68k -> query_works w) ->
    (List.length (w_rx w) < fuel)%nat ->
    exists w1 pre,
      drain_loop plat fuel w = Some w1 /\
      extends w w1 (pre ++ [EvRecvFailed e]) /\
      filter is_render pre = map render_datagram dgrams /\
      filter is_report pre = [] /\
      w_rx w1 = tl rest.
Proof.
  intros Hne Hfail. induction Hne as [|d ds Hd Hds IH];
    intros fuel w Hrx Hacc Hfuel;
    (destruct fuel as [|fuel]; [lia|]); cbn [drain_loop].
  - cbn [queued map app] in Hrx.
    assert (Hf : failure_at_head plat (w_rx w) e) by now rewrite Hrx.
    destruct (udp_recv_failure plat e w Hf Hacc)
      as (r & w1 & evs & Hu & Hret & He & Hq & Hext & Hr & Hrep & _).
    rewrite Hu, Hret. change (-1 <? 0) with true. cbv iota.
    exists (log [EvRecvFailed (w_errno w1)] w1), evs.
    split; [reflexivity|]. split.
    { rewrite He. eapply extends_trans; [exact Hext | apply extends_log]. }
    split; [exact Hr|]. split; [exact Hrep|].
    cbn [log w_rx]. rewrite Hq, Hrx. reflexivity.
  - cbn [queued map app] in Hrx.
    destruct (udp_recv_datagram plat (fst d) (snd d) _ w Hrx
                (proj1 Hd) (proj2 Hd) Hacc)
      as (w1 & evs & n & Hu & Hn & Hq & Hslr & Hext & Hr & Hrep).
    rewrite Hu. cbn [rr_ret rr_buf rr_from].
    replace (n <? 0) with false by (symmetry; apply Z.ltb_ge; lia).
    replace (n =? 0) with false by (symmetry; apply Z.eqb_neq; lia).
    fold (render_datagram d).
    destruct (IH fuel (log [render_datagram d] w1))
      as (w2 & pre & Hd2 & Hext2 & Hr2 & Hrep2 & Hq2).
    + cbn [log w_rx]. exact Hq.
    + intros Hp. unfold query_works. cbn [log w_sockopt_broken].
      rewrite Hslr. apply Hacc, Hp.
    + cbn [log w_rx]. rewrite Hq. rewrite Hrx in Hfuel.
      cbn [List.length] in Hfuel. unfold queued. lia.
    + exists w2, (evs ++ [render_datagram d] ++ pre).
      split; [exact Hd2|]. split.
      { rewrite <- !app_assoc.
        eapply extends_trans; [exact Hext|].
        eapply extends_trans; [apply extends_log | exact Hext2]. }
      split.
      { rewrite !filter_app, Hr, Hr2. cbn [filter app map].
        destruct (render_packet_kind (sin_addr (fst d))
                    (firstn (Z.to_nat (MAX_PKT - 1)) (snd d))) as [E _].
        fold (render_datagram d) in E. rewrite E. reflexivity. }
      split; [|exact Hq2].
      rewrite !filter_app, Hrep, Hrep2. cbn [filter app].
      unfold render_datagram. rewrite render_is_no_report. reflexivity.
Qed.

(** C4, counterexample: three datagrams are queued, the second of zero
    bytes, and a line is pending.  The pass prints the first datagram,
    stops draining at the empty one and processes the input line; the
    third datagram is still queued, not printed. *)
Lemma drain_stops_at_empty_datagram :
  let w := mk_world [Datagram (peer 1) (lit "OM1|a|one");
                     Datagram (peer 2) [];
                     Datagram (peer 3) (lit "OM1|c|three")]
                    false 0 []
                    [StdinBytes (lit "hello" ++ [LF])] [] [] [] [] in
  match main_iteration Posix (lit "me") (peer 255) w with
  | Some (st, w') =>
      w_trace w'
      = [EvRecvfrom 9; EvChat 1 (lit "a") (lit "one"); EvRecvfrom 0;
         EvStdinPoll 1; EvSendto (lit "OM1|me|hello") (peer 255) 12;
         EvPrompt; EvSleep 10] /\
      w_rx w' = [Datagram (peer 3) (lit "OM1|c|three")] /\
      ~ In (EvChat 3 (lit "c") (lit "three")) (w_trace w')
  | None => False
  end.
Proof.
  vm_compute. repeat split.
  intros H. repeat (destruct H as [H|H]; [discriminate H|]). exact H.
Qed.

(** C4 (amended): in every pass of the loop, the queued datagrams that
    precede the first zero-byte datagram or receive failure (all of them
    when there is none) are received and printed, in order, before any
    event of the input phase; the events of the pass split into those of
    the drain, which hold these prints and no input event, and those of
    the input phase, which are at least one and hold no print.  On the
    Win32 build a datagram longer than the 767-byte receive buffer is such
    a receive failure ([recvfrom] fails with [WSAEMSGSIZE]), so there the
    printed datagrams are those that precede the first zero-byte or
    oversized datagram or failure.  (On the Human68k build the availability
    query is taken to answer.) *)
Theorem drain_before_input (plat : platform) (nick : list ascii)
    (dest : sockaddr_in) (w : world)
    (dgrams : list (sockaddr_in * list ascii)) (rest : list sock_event) :
  w_rx w = queued dgrams ++ rest ->
  Forall (receivable plat) dgrams ->
  drain_stops plat rest ->
  (plat = Human68k -> query_works w) ->
  exists w1 st w' pre post,
    drain plat w = Some w1 /\
    input_phase plat nick dest w1 = (st, w') /\
    main_iteration plat nick dest w = Some (st, w') /\
    w_trace w1 = w_trace w ++ pre /\
    w_trace w' = w_trace w ++ pre ++ post /\
    filter is_render pre = map render_datagram dgrams /\
    filter is_input_event pre = [] /\
    forallb is_input_event post = true /\
    filter is_render post = [] /\
    post <> [].
Proof.
  intros Hrx Hne Hstop Hacc.
  destruct (drain_loop_renders plat dgrams rest Hne Hstop
              (S (List.length (w_rx w))) w Hrx Hacc ltac:(lia))
    as (w1 & pre & Hd & Hext & Hr).
  destruct (drain_total plat w) as (w1' & pre' & Hd' & _ & _ & Hext' & Hin).
  unfold drain in Hd'. rewrite Hd in Hd'. injection Hd' as <-.
  assert (pre' = pre).
  { unfold extends in *. rewrite Hext in Hext'.
    now apply app_inv_head in Hext'. }
  subst pre'.
  destruct (input_phase_footprint plat nick dest w1)
    as (post & Hp & Hall & Hlen & _).
  exists w1, (fst (input_phase plat nick dest w1)),
    (snd (input_phase plat nick dest w1)), pre, post.
  split; [exact Hd|].
  split; [now rewrite <- surjective_pairing|].
  split; [unfold main_iteration, drain; rewrite Hd;
          now rewrite <- surjective_pairing|].
  split; [exact Hext|].
  split; [unfold extends in *; rewrite Hp, Hext, app_assoc; reflexivity|].
  split; [exact Hr|]. split; [exact Hin|]. split; [exact Hall|].
  split.
  - clear - Hall. induction post as [|e post IH]; [reflexivity|].
    cbn [forallb] in Hall. apply andb_true_iff in Hall. destruct Hall as [He Hp].
    cbn [filter]. destruct e; try discriminate; cbn [is_render]; auto.
  - intros ->. cbn in Hlen. lia.
Qed.

Lemma drain_before_input_witness :
  exists w1 st w' pre post,
    drain Posix three_queued_world = Some w1 /\
    input_phase Posix (lit "me") (peer 255) w1 = (st, w') /\
    main_iteration Posix (lit "me") (peer 255) three_queued_world
    = Some (st, w') /\
    w_trace w1 = w_trace three_queued_world ++ pre /\
    w_trace w' = w_trace three_queued_world ++ pre ++ post /\
    filter is_render pre = map render_datagram three_datagrams /\
    filter is_input_event pre = [] /\
    forallb is_input_event post = true /\
    filter is_render post = [] /\
    post <> [].
Proof.
  apply (drain_before_input Posix (lit "me") (peer 255) three_queued_world
           three_datagrams []).
  - reflexivity.
  - repeat constructor; discriminate.
  - exact I.
  - discriminate.
Defined.

(** The Win32 build stops draining at a datagram longer than the receive
    buffer: the receive fails, the failure is reported, nothing of that
    datagram is printed and the datagram behind it waits for the next
    pass.  The POSIX build prints the first 767 bytes and goes on. *)
Example win32_oversized_datagram_stops_drain :
  let w := set_rx [Datagram (peer 1) (lit "OM1|a|one");
                   Datagram (peer 2) (repeat "x"%char 800);
                   Datagram (peer 3) (lit "OM1|c|three")] idle_world in
  option_map (fun w1 => (w_trace w1, w_rx w1)) (drain Win32 w)
  = Some ([EvRecvfrom 9; EvChat 1 (lit "a") (lit "one");
           EvRecvfrom (-1); EvRecvFailed WSAEMSGSIZE],
          [Datagram (peer 3) (lit "OM1|c|three")]) /\
  option_map (fun w1 => (w_trace w1, w_rx w1)) (drain Posix w)
  = Some ([EvRecvfrom 9; EvChat 1 (lit "a") (lit "one");
           EvRecvfrom 767; EvRaw 2 (repeat "x"%char 767);
           EvRecvfrom 11; EvChat 3 (lit "c") (lit "three");
           EvRecvfrom (-1)],
          []).
Proof. vm_compute. split; reflexivity. Qed.

(** The same pass, event by event, on the three builds. *)
Example three_datagrams_then_the_line :
  option_map (fun r => w_trace (snd r))
    (main_iteration Posix (lit "me") (peer 255) three_queued_world)
  = Some [EvRecvfrom 9; EvChat 1 (lit "a") (lit "one");
          EvRecvfrom 4; EvRaw 2 (lit "junk");
          EvRecvfrom 11; EvChat 3 (lit "c") (lit "three");
          EvRecvfrom (-1);
          EvStdinPoll 1; EvSendto (lit "OM1|me|hello") (peer 255) 12;
          EvPrompt; EvSleep 10] /\
  option_map (fun r => w_trace (snd r))
    (main_iteration Win32 (lit "me") (peer 255) three_queued_world)
  = Some [EvRecvfrom 9; EvChat 1 (lit "a") (lit "one");
          EvRecvfrom 4; EvRaw 2 (lit "junk");
          EvRecvfrom 11; EvChat 3 (lit "c") (lit "three");
          EvRecvfrom (-1);
          EvEcho (lit "h"); EvEcho (lit "e"); EvEcho (lit "l");
          EvEcho (lit "l"); EvEcho (lit "o"); EvEcho [LF];
          EvStdinPoll 1; EvSendto (lit "OM1|me|hello") (peer 255) 12;
          EvPrompt; EvSleep 10] /\
  option_map (fun r => w_trace (snd r))
    (main_iteration Human68k (lit "me") (peer 255) three_queued_world)
  = Some [EvGetsockopt true; EvRecvfrom 9; EvChat 1 (lit "a") (lit "one");
          EvGetsockopt true; EvRecvfrom 4; EvRaw 2 (lit "junk");
          EvGetsockopt true; EvRecvfrom 11; EvChat 3 (lit "c") (lit "three");
          EvGetsockopt true;
          EvFgets true; EvSendto (lit "OM1|me|hello") (peer 255) 12;
          EvPrompt; EvSleep 10].
Proof. vm_compute. repeat split. Qed.

(* ------------------------------------------------------------------ *)
(** ** Leaving the loop *)

Lemma drain_reports_failure (plat : platform) (w : world) :
  rr_ret (fst (udp_recvfrom_nb plat (Some []) (MAX_PKT - 1) (Some blank_addr)
                 (Some SIZEOF_SOCKADDR_IN) w)) < 0 ->
  exists w1 evs e,
    drain plat w = Some w1 /\ extends w w1 (evs ++ [EvRecvFailed e]).
Proof.
  intros H. unfold drain. cbn [drain_loop].
  pose proof (udp_recvfrom_nb_frame plat (Some []) (MAX_PKT - 1)
                (Some blank_addr) (Some SIZEOF_SOCKADDR_IN) w) as F.
  destruct (udp_recvfrom_nb _ _ _ _ _ w) as [r w1]. cbn [fst] in H.
  destruct F as (_ & _ & _ & (evs & Hext & _) & _).
  replace (rr_ret r <? 0) with true by (symmetry; apply Z.ltb_lt; lia).
  exists (log [EvRecvFailed (w_errno w1)] w1), evs, (w_errno w1).
  split; [reflexivity|].
  eapply extends_trans; [exact Hext | apply extends_log].
Qed.

(** ** The loop state follows the input source only *)

Lemma same_input_log (w1 w2 : world) (e1 e2 : list event) :
  same_input w1 w2 -> same_input (log e1 w1) (log e2 w2).
Proof. unfold same_input. cbn [log w_stdin w_keys w_stream w_buf]. tauto. Qed.

Lemma same_input_sleep (w1 w2 : world) (ms : Z) :
  same_input w1 w2 -> same_input (tiny_sleep_ms ms w1) (tiny_sleep_ms ms w2).
Proof.
  intros H. unfold tiny_sleep_ms. destruct (ms <=? 0); [exact H|].
  apply same_input_log, H.
Qed.

Lemma same_input_send (w1 w2 : world) (nick line : list ascii)
    (dest : sockaddr_in) :
  same_input w1 w2 ->
  same_input (send_line nick dest line w1) (send_line nick dest line w2).
Proof.
  intros H. unfold send_line, sendto.
  destruct (w_tx w1), (w_tx w2); apply same_input_log;
    unfold same_input in *;
    cbn [log set_tx w_stdin w_keys w_stream w_buf]; exact H.
Qed.

Lemma fgets_agree (size : Z) (w1 w2 : world) :
  same_input w1 w2 ->
  fst (fgets size w1) = fst (fgets size w2) /\
  same_input (snd (fgets size w1)) (snd (fgets size w2)).
Proof.
  intros H. pose proof H as (Hs & Hk & Hst & Hb). unfold fgets.
  rewrite Hst. destruct (w_stream w2) as [|c s] eqn:E; [split; auto|].
  destruct (fgets_split _ _) as [line rest]. cbn [fst snd]. split; auto.
  unfold same_input. cbn [set_stream w_stdin w_keys w_stream w_buf]. auto.
Qed.

(** The input phase reads the input source only: its verdict and what it
    leaves of the input source do not depend on the socket, the error code
    or the results of [sendto]. *)
Lemma input_phase_agree (plat : platform) (nick : list ascii)
    (dest : sockaddr_in) (w1 w2 : world) :
  same_input w1 w2 ->
  fst (input_phase plat nick dest w1) = fst (input_phase plat nick dest w2) /\
  same_input (snd (input_phase plat nick dest w1))
             (snd (input_phase plat nick dest w2)).
Proof.
  intros H. unfold input_phase. destruct plat.
  - destruct (win32_poll_agree [] MAX_TEXT w1 w2 H) as [Hf Hs].
    destruct (stdin_poll_line_win32 [] MAX_TEXT w1) as [[r line] u1].
    destruct (stdin_poll_line_win32 [] MAX_TEXT w2) as [[r2 line2] u2].
    cbn [fst snd] in Hf, Hs.
    assert (Er : r2 = r) by congruence.
    assert (El : line2 = line) by congruence. subst r2 line2.
    repeat match goal with
           | |- context [if ?c then _ else _] => destruct c
           end; cbn [fst snd]; (split; [reflexivity|]);
      repeat first [ apply same_input_sleep | apply same_input_send
                   | apply same_input_log ]; exact Hs.
  - destruct (posix_poll_agree [] MAX_TEXT w1 w2 H) as [Hf Hs].
    destruct (stdin_poll_line_posix [] MAX_TEXT w1) as [[r line] u1].
    destruct (stdin_poll_line_posix [] MAX_TEXT w2) as [[r2 line2] u2].
    cbn [fst snd] in Hf, Hs.
    assert (Er : r2 = r) by congruence.
    assert (El : line2 = line) by congruence. subst r2 line2.
    repeat match goal with
           | |- context [if ?c then _ else _] => destruct c
           end; cbn [fst snd]; (split; [reflexivity|]);
      repeat first [ apply same_input_sleep | apply same_input_send
                   | apply same_input_log ]; exact Hs.
  - destruct (fgets_agree MAX_TEXT w1 w2 H) as [Hf Hs].
    destruct (fgets MAX_TEXT w1) as [l1 u1].
    destruct (fgets MAX_TEXT w2) as [l2 u2].
    cbn [fst snd] in Hf, Hs. subst l2.
    destruct l1 as [line|].
    + repeat match goal with
             | |- context [if ?c then _ else _] => destruct c
             end; cbn [fst snd]; (split; [reflexivity|]);
        repeat first [ apply same_input_sleep | apply same_input_send
                     | apply same_input_log ]; exact Hs.
    + cbn [fst snd]. split; [reflexivity|]. apply same_input_log, Hs.
Qed.

Lemma same_input_sym (w1 w2 : world) : same_input w1 w2 -> same_input w2 w1.
Proof. unfold same_input. intros (A & B & C & D). auto. Qed.

(** Any number of passes: the loop always returns, and its state is a
    function of the input source. *)
Lemma main_loop_agree (plat : platform) (nick : list ascii)
    (dest : sockaddr_in) (n : nat) (w1 w2 : world) :
  same_input w1 w2 ->
  exists r1 r2,
    main_loop plat nick dest n w1 = Some r1 /\
    main_loop plat nick dest n w2 = Some r2 /\
    fst r1 = fst r2 /\ same_input (snd r1) (snd r2).
Proof.
  revert w1 w2. induction n as [|n IH]; intros w1 w2 H.
  - exists (Running, w1), (Running, w2). repeat split; auto; apply H.
  - cbn [main_loop]. unfold main_iteration.
    destruct (drain_total plat w1) as (u1 & e1 & Hd1 & Hs1 & _).
    destruct (drain_total plat w2) as (u2 & e2 & Hd2 & Hs2 & _).
    rewrite Hd1, Hd2.
    assert (Hu : same_input u1 u2).
    { eapply same_input_trans; [apply same_input_sym, Hs1|].
      eapply same_input_trans; [exact H | exact Hs2]. }
    destruct (input_phase_agree plat nick dest u1 u2 Hu) as [Hf Hs].
    destruct (input_phase plat nick dest u1) as [st1 v1].
    destruct (input_phase plat nick dest u2) as [st2 v2].
    cbn [fst snd] in Hf, Hs. subst st2.
    destruct st1.
    + apply IH, Hs.
    + exists (Terminating, v1), (Terminating, v2). repeat split; auto; apply Hs.
Qed.

(** C7: every pass of the loop completes, and it leaves the Running state
    exactly when the input source asks for it in that pass: a cancel (-2),
    an input error (-1, or end of input on the [fgets] build) or the line
    "/quit".  That request is a function of the input source alone: the
    socket queue, receive failures, the error code and the results of
    [sendto] have no part in it.  Every receive failure of the pass is
    reported: when the first receive fails, and when the failure comes
    behind any number of received datagrams; those datagrams are printed
    first, then comes the report, once and with the failure's error code,
    then the input phase of the same pass, and what was queued behind the
    failure is still queued.  The loop goes on: the passes after this one
    run from the world this pass leaves unless the input source asked to
    stop, and after any number of passes the state of the loop is the one
    reached from any other world with the same input source, whatever its
    socket queue, error code and [sendto] results. *)
Theorem loop_exit_causes (plat : platform) (nick : list ascii)
    (dest : sockaddr_in) (w : world) :
  exists st w',
    main_iteration plat nick dest w = Some (st, w') /\
    (st = Terminating <-> exit_requested plat w) /\
    (forall w2, same_input w w2 ->
                (exit_requested plat w2 <-> exit_requested plat w)) /\
    (rr_ret (fst (udp_recvfrom_nb plat (Some []) (MAX_PKT - 1)
                    (Some blank_addr) (Some SIZEOF_SOCKADDR_IN) w)) < 0 ->
     exists evs e, extends w w' evs /\ In (EvRecvFailed e) evs) /\
    (forall dgrams rest e,
        w_rx w = queued dgrams ++ rest ->
        Forall (receivable plat) dgrams ->
        failure_at_head plat rest e ->
        (plat = Human68k -> query_works w) ->
        exists pre post,
          extends w w' (pre ++ EvRecvFailed e :: post) /\
          filter is_render pre = map render_datagram dgrams /\
          filter is_report pre = [] /\
          forallb is_input_event post = true /\ post <> [] /\
          w_rx w' = tl rest) /\
    (forall n,
        main_loop plat nick dest (S n) w
        = match st with
          | Terminating => Some (Terminating, w')
          | Running => main_loop plat nick dest n w'
          end) /\
    (forall n w2, same_input w w2 ->
       exists r r2,
         main_loop plat nick dest n w = Some r /\
         main_loop plat nick dest n w2 = Some r2 /\
         fst r = fst r2 /\ same_input (snd r) (snd r2)).
Proof.
  destruct (drain_total plat w) as (w1 & evs1 & Hd & Hsi & _ & Hext & _).
  exists (fst (input_phase plat nick dest w1)),
         (snd (input_phase plat nick dest w1)).
  assert (Hit : main_iteration plat nick dest w
                = Some (fst (input_phase plat nick dest w1),
                        snd (input_phase plat nick dest w1)))
    by (unfold main_iteration; rewrite Hd; now rewrite <- surjective_pairing).
  split; [exact Hit|].
  split.
  { rewrite input_phase_exit. symmetry.
    apply exit_requested_same_input, Hsi. }
  split.
  { intros w2 H. symmetry. apply exit_requested_same_input, H. }
  split.
  { intros Hneg.
    destruct (drain_reports_failure plat w Hneg) as (w1' & evs & e & Hd' & He).
    rewrite Hd in Hd'. injection Hd' as <-.
    destruct (input_phase_footprint plat nick dest w1) as (post & Hp & _).
    exists ((evs ++ [EvRecvFailed e]) ++ post), e.
    split; [eapply extends_trans; eassumption|].
    apply in_or_app. left. apply in_or_app. right. left. reflexivity. }
  split.
  { intros dgrams rest e Hrx Hne Hfail Hacc.
    destruct (drain_loop_reports plat dgrams rest e Hne Hfail
                (S (List.length (w_rx w))) w Hrx Hacc ltac:(lia))
      as (w1' & pre & Hd' & Hext' & Hr & Hrep & Hq).
    unfold drain in Hd. rewrite Hd in Hd'. injection Hd' as <-.
    destruct (input_phase_footprint plat nick dest w1)
      as (post & Hp & Hall & Hlen & Hrx').
    exists pre, post.
    split.
    { pose proof (extends_trans _ _ _ _ _ Hext' Hp) as T.
      rewrite <- app_assoc in T. exact T. }
    split; [exact Hr|]. split; [exact Hrep|]. split; [exact Hall|].
    split; [intros ->; cbn in Hlen; lia|].
    rewrite Hrx'. exact Hq. }
  split.
  { intros n. cbn [main_loop]. rewrite Hit.
    destruct (fst (input_phase plat nick dest w1)); reflexivity. }
  intros n w2 H. apply main_loop_agree, H.
Qed.

(** With nothing typed, no receive outcome and no send outcome ends the
    loop: it is still Running after any number of passes. *)
Lemma idle_input_keeps_running (plat : platform) (nick : list ascii)
    (dest : sockaddr_in) (n : nat) (w : world) :
  plat <> Human68k -> w_stdin w = [] -> w_keys w = [] ->
  exists w', main_loop plat nick dest n w = Some (Running, w').
Proof.
  intros Hp. revert w. induction n as [|n IH]; intros w Hs Hk.
  - exists w. reflexivity.
  - cbn [main_loop]. unfold main_iteration.
    destruct (drain_total plat w) as (w1 & evs1 & Hd & Hsi & _).
    rewrite Hd. destruct Hsi as (Hs1 & Hk1 & _ & _).
    rewrite Hs in Hs1. rewrite Hk in Hk1.
    unfold input_phase.
    destruct plat; [| |congruence].
    + unfold stdin_poll_line_win32. rewrite <- Hk1.
      cbn. apply IH; cbn; auto.
    + unfold stdin_poll_line_posix, read_stdin. rewrite <- Hs1.
      cbn. apply IH; cbn; auto.
Qed.

(** A receive failure and a failed send in consecutive passes: both are
    on the trace and the loop is still Running. *)
Example failures_do_not_terminate :
  let w := mk_world [RecvError 5; Datagram (peer 3) (lit "OM1|c|three")]
                    false 0 [-1]
                    [StdinBytes (lit "hello" ++ [LF])] [] [] [] [] in
  match main_loop Posix (lit "me") (peer 255) 2 w with
  | Some (st, w') =>
      st = Running /\
      w_trace w'
      = [EvRecvfrom (-1); EvRecvFailed 5; EvStdinPoll 1;
         EvSendto (lit "OM1|me|hello") (peer 255) (-1); EvPrompt; EvSleep 10;
         EvRecvfrom 11; EvChat 3 (lit "c") (lit "three"); EvRecvfrom (-1);
         EvStdinPoll 0; EvSleep 10]
  | None => False
  end.
Proof. vm_compute. split; reflexivity. Qed.

(** A failure behind a datagram: the first pass prints the datagram,
    reports the failure and polls the input; the loop is still Running and
    the second pass prints the datagram that was queued behind the
    failure.  On Win32 the same with a datagram longer than the buffer in
    the place of the failure. *)
Example failure_behind_datagram_is_reported :
  let w := set_rx [Datagram (peer 1) (lit "OM1|a|one"); RecvError 5;
                   Datagram (peer 3) (lit "OM1|c|three")] idle_world in
  let v := set_rx [Datagram (peer 1) (lit "OM1|a|one");
                   Datagram (peer 2) (repeat "x"%char 800);
                   Datagram (peer 3) (lit "OM1|c|three")] idle_world in
  option_map (fun r => (fst r, w_trace (snd r)))
    (main_loop Posix (lit "me") (peer 255) 2 w)
  = Some (Running,
          [EvRecvfrom 9; EvChat 1 (lit "a") (lit "one");
           EvRecvfrom (-1); EvRecvFailed 5; EvStdinPoll 0; EvSleep 10;
           EvRecvfrom 11; EvChat 3 (lit "c") (lit "three"); EvRecvfrom (-1);
           EvStdinPoll 0; EvSleep 10]) /\
  option_map (fun r => (fst r, w_trace (snd r)))
    (main_loop Win32 (lit "me") (peer 255) 2 v)
  = Some (Running,
          [EvRecvfrom 9; EvChat 1 (lit "a") (lit "one");
           EvRecvfrom (-1); EvRecvFailed WSAEMSGSIZE; EvStdinPoll 0;
           EvSleep 10;
           EvRecvfrom 11; EvChat 3 (lit "c") (lit "three"); EvRecvfrom (-1);
           EvStdinPoll 0; EvSleep 10]).
Proof. vm_compute. split; reflexivity. Qed.

(** The three ways out. *)
Example exits :
  fst (input_phase Posix (lit "me") (peer 255)
         (set_stdin [StdinBytes (lit "/quit" ++ [LF])] idle_world))
  = Terminating /\
  fst (input_phase Win32 (lit "me") (peer 255) (set_keys [3] idle_world))
  = Terminating /\
  fst (input_phase Posix (lit "me") (peer 255)
         (set_stdin [StdinError 5] idle_world))
  = Terminating /\
  fst (input_phase Human68k (lit "me") (peer 255) idle_world) = Terminating.
Proof. repeat split. Qed.

(* ================================================================== *)
(** * Further properties of the code *)

(** ** Packet codec: buffers and wire form *)

Lemma format_packet_loop_no_crlf (text : list ascii) (j : Z) :
  lacks CR (format_packet_loop text j) = true /\
  lacks LF (format_packet_loop text j) = true.
Proof.
  revert j. induction text as [|c r IH]; intros j;
    cbn [format_packet_loop]; [split; reflexivity|].
  destruct (is_nul c); [split; reflexivity|].
  destruct (j <? MAX_TEXT - 1); [|split; reflexivity].
  destruct (is_crlf c) eqn:E; [apply IH|].
  destruct (IH (j + 1)) as [H1 H2].
  unfold lacks in *. cbn [forallb]. rewrite H1, H2.
  unfold is_crlf in E. apply orb_false_iff in E. destruct E as [-> ->].
  split; reflexivity.
Qed.

(** The output of [format_packet] fits its buffer. *)
Lemma format_packet_bounded (o : list ascii) (out_size : Z)
    (nick text : option (list ascii)) :
  0 < out_size ->
  exists pkt,
    format_packet (Some o) out_size nick text = Some pkt /\
    len pkt <= out_size - 1 /\
    c_string pkt /\
    (5 <= out_size -> firstn 4 pkt = lit "OM1|").
Proof.
  intros Hs. unfold format_packet, snprintf_OM1.
  replace (out_size <=? 0) with false by (symmetry; apply Z.leb_gt; lia).
  eexists. split; [reflexivity|].
  set (n := match nick with Some n => n | None => lit "anon" end).
  set (t := match text with Some t => t | None => lit "" end).
  split; [|split].
  - unfold len. rewrite length_firstn. lia.
  - apply lacks_firstn. unfold c_string.
    rewrite !lacks_app.
    rewrite (c_str_lacks_nul n), (c_str_lacks_nul (format_packet_loop t 0)).
    reflexivity.
  - intros H5.
    replace (Z.to_nat (out_size - 1)) with (4 + Z.to_nat (out_size - 5))%nat
      by lia.
    rewrite (firstn_app_2 _ (lit "OM1|")).
    reflexivity.
Qed.

(** X1: whatever the nick and the text (NULL included), [format_packet]
    into a buffer of [out_size > 0] bytes stores a C string of at most
    [out_size - 1] characters, a prefix of "OM1|nick|body"; it starts with
    the tag as soon as the buffer has room for it. *)
Theorem format_packet_fits (o : list ascii) (out_size : Z)
    (nick text : option (list ascii)) :
  0 < out_size ->
  exists pkt,
    format_packet (Some o) out_size nick text = Some pkt /\
    len pkt <= out_size - 1 /\
    c_string pkt /\
    (5 <= out_size -> firstn 4 pkt = lit "OM1|").
Proof. apply format_packet_bounded. Qed.

Lemma format_packet_fits_witness :
  exists pkt,
    format_packet (Some []) 8 (Some (lit "alice")) None = Some pkt /\
    len pkt <= 8 - 1 /\ c_string pkt /\
    (5 <= 8 -> firstn 4 pkt = lit "OM1|").
Proof. apply (format_packet_fits [] 8 (Some (lit "alice")) None). lia. Defined.

(** X2: a packet is a single line: when the nick holds no CR or LF, the
    output of [format_packet] holds none, whatever the text. *)
Theorem format_packet_single_line (o nick text : list ascii) (out_size : Z) :
  0 < out_size ->
  lacks CR (c_str nick) = true -> lacks LF (c_str nick) = true ->
  exists pkt,
    format_packet (Some o) out_size (Some nick) (Some text) = Some pkt /\
    lacks CR pkt = true /\ lacks LF pkt = true.
Proof.
  intros Hs Hc Hl. unfold format_packet, snprintf_OM1.
  replace (out_size <=? 0) with false by (symmetry; apply Z.leb_gt; lia).
  eexists. split; [reflexivity|].
  destruct (format_packet_loop_no_crlf text 0) as [T1 T2].
  assert (B1 : lacks CR (c_str (format_packet_loop text 0)) = true)
    by (rewrite c_str_id; [exact T1 | apply format_packet_loop_c_string]).
  assert (B2 : lacks LF (c_str (format_packet_loop text 0)) = true)
    by (rewrite c_str_id; [exact T2 | apply format_packet_loop_c_string]).
  split; apply lacks_firstn; rewrite !lacks_app.
  - rewrite Hc, B1. reflexivity.
  - rewrite Hl, B2. reflexivity.
Qed.

Lemma format_packet_single_line_witness :
  exists pkt,
    format_packet (Some []) MAX_PKT (Some (lit "bob"))
                  (Some (lit "a" ++ [CR; LF] ++ lit "b")) = Some pkt /\
    lacks CR pkt = true /\ lacks LF pkt = true.
Proof.
  apply (format_packet_single_line [] (lit "bob")
           (lit "a" ++ [CR; LF] ++ lit "b") MAX_PKT); reflexivity.
Defined.

(** The two outcomes of [parse_packet] on valid buffers. *)
Lemma parse_packet_cases (pkt a b : list ascii) (ns ts : Z) :
  0 < ns -> 0 < ts -> len pkt <= INT_MAX ->
  parse_packet (Some pkt) (Some a) ns (Some b) ts = (-1, Some [], Some []) \/
  exists nick text,
    c_str pkt = lit "OM1|" ++ nick ++ BAR :: text /\
    nick <> [] /\ lacks BAR nick = true /\
    parse_packet (Some pkt) (Some a) ns (Some b) ts
    = (0, Some (firstn (Z.to_nat (ns - 1)) nick),
          Some (firstn (Z.to_nat (ts - 1)) text)).
Proof.
  intros Hns Hts Hlen.
  destruct (list_eq_dec ascii_dec (firstn 4 (c_str pkt)) (lit "OM1|"))
    as [Htag|Htag].
  - destruct (tag_prefix pkt Htag) as (rest & Hrest & Hc).
    destruct (strchr rest BAR) as [k|] eqn:Ek.
    + destruct (strchr_some rest BAR k eq_refl Ek) as (l & r & Hl & Hk & Hb).
      destruct l as [|x l].
      * left. simpl in Hk. subst k pkt.
        rewrite parse_packet_tagged, Ek by assumption. reflexivity.
      * right. exists (x :: l), r.
        assert (Hw : c_str pkt = lit "OM1|" ++ (x :: l) ++ BAR :: r)
          by (rewrite Hc, Hl; reflexivity).
        repeat split; auto; [discriminate|].
        apply parse_packet_wire; auto. discriminate.
    + left. subst pkt. rewrite parse_packet_tagged, Ek by assumption.
      reflexivity.
  - left. apply parse_packet_bad_tag; assumption.
Qed.

(** X3: whatever the packet, [parse_packet] leaves in each output buffer a
    C string that fits it (at most size - 1 characters); the nick it
    returns never holds the separator, and on success it is non-empty as
    soon as its buffer has room for one character. *)
Theorem parse_packet_outputs_fit (pkt a b : list ascii) (ns ts : Z) :
  0 < ns -> 0 < ts -> len pkt <= INT_MAX ->
  exists rc nick text,
    parse_packet (Some pkt) (Some a) ns (Some b) ts
    = (rc, Some nick, Some text) /\
    len nick <= ns - 1 /\ len text <= ts - 1 /\
    c_string nick /\ c_string text /\ lacks BAR nick = true /\
    (rc = 0 -> 2 <= ns -> nick <> []).
Proof.
  intros Hns Hts Hlen.
  destruct (parse_packet_cases pkt a b ns ts Hns Hts Hlen)
    as [E | (nick & text & Hc & Hne & Hb & E)]; rewrite E.
  - exists (-1), [], []. unfold len. cbn [List.length].
    repeat split; lia.
  - exists 0, (firstn (Z.to_nat (ns - 1)) nick),
      (firstn (Z.to_nat (ts - 1)) text).
    pose proof (c_str_lacks_nul pkt) as Hz. rewrite Hc in Hz.
    unfold c_string in Hz. rewrite !lacks_app in Hz.
    apply andb_true_iff in Hz. destruct Hz as [_ Hz].
    apply andb_true_iff in Hz. destruct Hz as [Hzn Hzt].
    unfold lacks in Hzt. cbn [forallb] in Hzt.
    apply andb_true_iff in Hzt. destruct Hzt as [_ Hzt].
    unfold len. rewrite !length_firstn.
    repeat split; try lia; try (apply lacks_firstn; assumption).
    intros _ H2. destruct nick as [|x nick]; [congruence|].
    replace (Z.to_nat (ns - 1)) with (S (Z.to_nat (ns - 2))) by lia.
    discriminate.
Qed.

Lemma parse_packet_outputs_fit_witness :
  exists rc nick text,
    parse_packet (Some (lit "OM1|a-very-long-nick|hello")) (Some []) 8
                 (Some []) 4
    = (rc, Some nick, Some text) /\
    len nick <= 8 - 1 /\ len text <= 4 - 1 /\
    c_string nick /\ c_string text /\ lacks BAR nick = true /\
    (rc = 0 -> 2 <= 8 -> nick <> []).
Proof.
  apply (parse_packet_outputs_fit (lit "OM1|a-very-long-nick|hello") [] [] 8 4);
    vm_compute; congruence.
Defined.

Lemma firstn_same_length (A : Type) (n : nat) (l : list A) :
  List.length (firstn n l) = List.length l -> firstn n l = l.
Proof.
  intros H. apply firstn_all2. rewrite length_firstn in H. lia.
Qed.

(** X4: the other round trip.  If a received packet decodes with nothing
    cut (the lengths of tag, nick, separator and text add up to the
    packet's) and its text holds no CR or LF, then encoding the decoded
    pair gives the packet back. *)
Theorem encode_of_decoded (pkt nick text : list ascii) :
  len pkt <= MAX_PKT - 1 ->
  decode (Some pkt) = (0, Some nick, Some text) ->
  len (c_str pkt) = 4 + len nick + 1 + len text ->
  no_crlf text ->
  encode nick text = Some (c_str pkt).
Proof.
  intros Hlen Hdec Hsum Hcr. unfold decode in Hdec.
  destruct (parse_packet_cases pkt [] [] MAX_NICK MAX_TEXT)
    as [E | (nk & tx & Hc & Hne & Hb & E)];
    try (unfold MAX_NICK, MAX_TEXT; lia);
    try (unfold len, MAX_PKT, INT_MAX in *; lia);
    rewrite E in Hdec; [discriminate|].
  assert (Hn : firstn (Z.to_nat (MAX_NICK - 1)) nk = nick) by congruence.
  assert (Ht : firstn (Z.to_nat (MAX_TEXT - 1)) tx = text) by congruence.
  clear Hdec.
  assert (Hl : List.length (c_str pkt)
               = (4 + List.length nk + 1 + List.length tx)%nat).
  { rewrite Hc, !length_app. cbn [List.length lit list_ascii_of_string]. lia. }
  assert (Hfn : (List.length nick <= List.length nk)%nat)
    by (subst nick; rewrite length_firstn; lia).
  assert (Hft : (List.length text <= List.length tx)%nat)
    by (subst text; rewrite length_firstn; lia).
  unfold len in Hsum.
  assert (Enk : nick = nk).
  { subst nick. apply firstn_same_length. lia. }
  assert (Etx : text = tx).
  { subst text. apply firstn_same_length. lia. }
  pose proof (c_str_lacks_nul pkt) as Hz. rewrite Hc in Hz.
  unfold c_string in Hz. rewrite !lacks_app in Hz.
  apply andb_true_iff in Hz. destruct Hz as [_ Hz].
  apply andb_true_iff in Hz. destruct Hz as [Hzn Hzt].
  unfold lacks in Hzt. cbn [forallb] in Hzt.
  apply andb_true_iff in Hzt. destruct Hzt as [_ Hzt].
  assert (Htl : (List.length tx <= 511)%nat).
  { rewrite <- Etx, <- Ht, length_firstn. unfold MAX_TEXT. lia. }
  pose proof (length_c_str_le pkt) as Hcl.
  unfold encode. rewrite Enk, Etx in *.
  rewrite format_packet_eq by (auto; unfold MAX_PKT; lia).
  unfold no_crlf in Hcr. rewrite Hcr.
  rewrite (firstn_all2 (n := Z.to_nat (MAX_TEXT - 1)))
    by (unfold MAX_TEXT; lia).
  rewrite <- Hc. f_equal. apply firstn_all2.
  unfold len, MAX_PKT in *. lia.
Qed.

Lemma encode_of_decoded_witness :
  encode (lit "bob") (lit "hi|there") = Some (c_str (lit "OM1|bob|hi|there")).
Proof.
  apply (encode_of_decoded (lit "OM1|bob|hi|there") (lit "bob")
           (lit "hi|there")); vm_compute; congruence.
Defined.

(* ------------------------------------------------------------------ *)
(** ** [prog_basename] *)

(** The result of the scan is the candidate it started with when the
    string holds no separator, else what follows its last separator. *)
Lemma prog_basename_loop_spec (p base : list ascii) :
  (sep_free (c_str p) = true /\ prog_basename_loop p base = base) \/
  (exists pre s,
      c_str p = pre ++ s :: c_str (prog_basename_loop p base) /\
      is_path_sep s = true /\
      sep_free (c_str (prog_basename_loop p base)) = true).
Proof.
  revert base. induction p as [|c r IH]; intros base;
    cbn [prog_basename_loop c_str].
  - left. split; reflexivity.
  - destruct (is_nul c) eqn:En; [left; split; reflexivity|].
    destruct (is_path_sep c) eqn:Es.
    + right. destruct (IH r) as [[Hf Hr] | (pre & s & Hc & Hs & Hf)].
      * exists [], c. rewrite Hr. auto.
      * exists (c :: pre), s. rewrite Hc at 1. auto.
    + destruct (IH base) as [[Hf Hr] | (pre & s & Hc & Hs & Hf)].
      * left. unfold sep_free in *. cbn [forallb]. rewrite Es, Hf. auto.
      * right. exists (c :: pre), s. rewrite Hc at 1. auto.
Qed.

(** X5: the name [prog_basename] returns is never empty and holds no '/',
    '\' or ':'; it is "omnimsg" or a suffix of [argv0]. *)
Theorem prog_basename_clean (argv0 : option (list ascii)) :
  let name := c_str (prog_basename argv0) in
  name <> [] /\ sep_free name = true /\
  (name = lit "omnimsg" \/
   exists a pre, argv0 = Some a /\ c_str a = pre ++ name).
Proof.
  cbv zeta. unfold prog_basename.
  set (a := match argv0 with Some a => a | None => lit "omnimsg" end).
  destruct (is_nul (hd NUL (prog_basename_loop a a))) eqn:E; cbn [negb].
  - repeat split; [discriminate | left; reflexivity].
  - rewrite (c_str_hd _ E). split; [discriminate|].
    rewrite <- (c_str_hd _ E).
    destruct (prog_basename_loop_spec a a) as [[Hf Hr] | (pre & s & Hc & Hs & Hf)].
    + rewrite Hr. split; [exact Hf|].
      destruct argv0 as [a0|]; [|left; reflexivity].
      right. exists a0, []. auto.
    + split; [exact Hf|].
      destruct argv0 as [a0|].
      * right. exists a0, (pre ++ [s]). split; [reflexivity|].
        rewrite <- app_assoc. exact Hc.
      * exfalso. subst a. clear - Hc Hs.
        assert (Hsf : sep_free (c_str (lit "omnimsg")) = true) by reflexivity.
        rewrite Hc in Hsf. unfold sep_free in Hsf.
        rewrite forallb_app in Hsf. cbn [forallb] in Hsf.
        rewrite Hs in Hsf. cbn [negb andb] in Hsf.
        rewrite andb_false_r in Hsf. discriminate.
Qed.

Lemma sep_free_app_sep (pre r : list ascii) (s : ascii) :
  sep_free (pre ++ s :: r) = true -> is_path_sep s = false.
Proof.
  unfold sep_free. rewrite forallb_app. cbn [forallb].
  destruct (is_path_sep s); [|reflexivity].
  cbn. rewrite andb_false_r. discriminate.
Qed.

(** X6: for a path that ends in a separator ('/', '\' or ':') followed by
    a non-empty name free of separators, [prog_basename] returns that
    name. *)
Theorem prog_basename_of_path (dir name : list ascii) (s : ascii) :
  c_string dir -> c_string name -> is_path_sep s = true ->
  name <> [] -> sep_free name = true ->
  c_str (prog_basename (Some (dir ++ s :: name))) = name.
Proof.
  intros Hd Hn Hs Hne Hf.
  assert (Hloop : forall d base, c_string d ->
             prog_basename_loop (d ++ s :: name) base = name).
  { induction d as [|c d IH]; intros base Hcd.
    - cbn [app prog_basename_loop]. rewrite Hs.
      replace (is_nul s) with false
        by (destruct s as [[] [] [] [] [] [] [] []]; try reflexivity; discriminate).
      destruct (prog_basename_loop_spec name name)
        as [[_ Hr] | (pre & s' & Hc & Hs' & _)]; [exact Hr|].
      exfalso. rewrite (c_str_id name Hn) in Hc.
      rewrite Hc in Hf. apply sep_free_app_sep in Hf. congruence.
    - unfold c_string, lacks in Hcd. cbn [forallb] in Hcd.
      apply andb_true_iff in Hcd. destruct Hcd as [Hc Hcd].
      apply negb_true_iff in Hc.
      cbn [app prog_basename_loop]. unfold is_nul. rewrite Hc.
      destruct (is_path_sep c); apply IH; exact Hcd. }
  unfold prog_basename. rewrite Hloop by exact Hd.
  destruct name as [|n0 name]; [congruence|].
  unfold c_string, lacks in Hn. cbn [forallb] in Hn.
  apply andb_true_iff in Hn. destruct Hn as [Hn0 Hn].
  apply negb_true_iff in Hn0. cbn [hd]. unfold is_nul at 1. rewrite Hn0.
  cbn [negb]. apply c_str_id. unfold c_string, lacks. cbn [forallb].
  rewrite Hn0, Hn. reflexivity.
Qed.

Lemma prog_basename_of_path_witness :
  c_str (prog_basename (Some (lit "A:\bin" ++ "\"%char :: lit "omnimsg.x")))
  = lit "omnimsg.x".
Proof.
  apply (prog_basename_of_path (lit "A:\bin") (lit "omnimsg.x") "\"%char);
    try reflexivity. discriminate.
Defined.

(* ------------------------------------------------------------------ *)
(** ** [parse_ipv4] *)

(** X7: [parse_ipv4] succeeds exactly when [inet_addr] gives an address
    other than [INADDR_NONE] or the string is "255.255.255.255" (for which
    [inet_addr] gives [INADDR_NONE] too); on success it stores the
    address, on failure it returns -1 and stores nothing. *)
Theorem parse_ipv4_accepts (inet_addr : list ascii -> Z) (s : list ascii)
    (out : Z) :
  let a := inet_addr s mod 4294967296 in
  let '(rc, out') := parse_ipv4 inet_addr (Some s) (Some out) in
  (rc = 0 <-> a <> INADDR_NONE \/ c_str s = lit "255.255.255.255") /\
  (rc = 0 -> out' = Some a) /\
  (rc <> 0 -> rc = -1 /\ out' = Some out).
Proof.
  cbv zeta. unfold parse_ipv4.
  destruct (inet_addr s mod 4294967296 =? INADDR_NONE) eqn:Ea;
    [apply Z.eqb_eq in Ea | apply Z.eqb_neq in Ea]; cbn [andb].
  - destruct (strcmp s (lit "255.255.255.255") =? 0) eqn:Es;
      [apply Z.eqb_eq, strcmp_zero_iff in Es
      | apply Z.eqb_neq in Es; rewrite strcmp_zero_iff in Es]; cbn [negb].
    + repeat split; auto; congruence.
    + repeat split; try congruence.
      intros [H|H]; [contradiction | ].
      exfalso. apply Es. rewrite H. reflexivity.
  - repeat split; auto; congruence.
Qed.

(** With a resolver that knows no address at all, the broadcast address is
    still accepted and every other string is rejected. *)
Example parse_ipv4_examples :
  parse_ipv4 (fun _ => INADDR_NONE) (Some (lit "255.255.255.255")) (Some 0)
  = (0, Some INADDR_NONE) /\
  parse_ipv4 (fun _ => INADDR_NONE) (Some (lit "255.255.255.2555")) (Some 0)
  = (-1, Some 0) /\
  parse_ipv4 (fun _ => INADDR_NONE) None (Some 0) = (-1, Some 0).
Proof. repeat split. Qed.

(* ------------------------------------------------------------------ *)
(** ** Line input, POSIX branch *)

Lemma firstn_full_app (A : Type) (n : nat) (l r : list A) :
  List.length l = n -> firstn n (l ++ r) = l.
Proof.
  intros H. rewrite firstn_app, H, Nat.sub_diag, firstn_O, app_nil_r.
  apply firstn_all2. lia.
Qed.

Lemma posix_loop_accumulates (chunk out : list ascii) (out_size : Z)
    (w : world) :
  lacks LF chunk = true -> buf_len w <= MAX_TEXT - 1 ->
  fst (stdin_poll_line_posix_loop chunk out out_size w) = (0, out) /\
  w_buf (snd (stdin_poll_line_posix_loop chunk out out_size w))
  = firstn (Z.to_nat (MAX_TEXT - 1)) (w_buf w ++ strip_cr chunk).
Proof.
  revert w. induction chunk as [|c r IH]; intros w Hl Hb;
    cbn [stdin_poll_line_posix_loop].
  - cbn [fst snd strip_cr filter]. split; [reflexivity|].
    rewrite app_nil_r. symmetry. apply firstn_all2.
    unfold buf_len in Hb. lia.
  - unfold lacks in Hl. cbn [forallb] in Hl.
    apply andb_true_iff in Hl. destruct Hl as [Hc Hl].
    apply negb_true_iff in Hc. rewrite Hc.
    unfold strip_cr. cbn [filter]. fold (strip_cr r).
    destruct (Ascii.eqb c CR); cbn [negb].
    + apply IH; assumption.
    + destruct (buf_len w <? MAX_TEXT - 1) eqn:E.
      * apply Z.ltb_lt in E.
        destruct (IH (set_buf (w_buf w ++ [c]) w) Hl) as [H1 H2].
        { unfold buf_len in *. cbn [set_buf w_buf].
          rewrite length_app. cbn [List.length]. lia. }
        split; [exact H1|]. rewrite H2. cbn [set_buf w_buf].
        rewrite <- app_assoc. reflexivity.
      * apply Z.ltb_ge in E.
        destruct (IH w Hl Hb) as [H1 H2].
        split; [exact H1|]. rewrite H2.
        assert (Hlen : List.length (w_buf w) = Z.to_nat (MAX_TEXT - 1))
          by (unfold buf_len in *; lia).
        rewrite !firstn_full_app by exact Hlen. reflexivity.
Qed.

Lemma posix_loop_completes (pre post out : list ascii) (out_size : Z)
    (w : world) :
  lacks LF pre = true -> buf_len w <= MAX_TEXT - 1 ->
  fst (stdin_poll_line_posix_loop (pre ++ LF :: post) out out_size w)
  = (1, snprintf_s out_size
          (firstn (Z.to_nat (MAX_TEXT - 1)) (w_buf w ++ strip_cr pre))) /\
  w_buf (snd (stdin_poll_line_posix_loop (pre ++ LF :: post) out out_size w))
  = [].
Proof.
  revert w. induction pre as [|c r IH]; intros w Hl Hb;
    cbn [app stdin_poll_line_posix_loop].
  - cbn [fst snd strip_cr filter set_buf w_buf].
    rewrite app_nil_r, firstn_all2 by (unfold buf_len in Hb; lia).
    split; reflexivity.
  - unfold lacks in Hl. cbn [forallb] in Hl.
    apply andb_true_iff in Hl. destruct Hl as [Hc Hl].
    apply negb_true_iff in Hc. rewrite Hc.
    unfold strip_cr. cbn [filter]. fold (strip_cr r).
    destruct (Ascii.eqb c CR); cbn [negb].
    + apply IH; assumption.
    + destruct (buf_len w <? MAX_TEXT - 1) eqn:E.
      * apply Z.ltb_lt in E.
        destruct (IH (set_buf (w_buf w ++ [c]) w) Hl) as [H1 H2].
        { unfold buf_len in *. cbn [set_buf w_buf].
          rewrite length_app. cbn [List.length]. lia. }
        split; [|exact H2]. rewrite H1. cbn [set_buf w_buf].
        rewrite <- app_assoc. reflexivity.
      * apply Z.ltb_ge in E.
        destruct (IH w Hl Hb) as [H1 H2].
        split; [|exact H2]. rewrite H1.
        assert (Hlen : List.length (w_buf w) = Z.to_nat (MAX_TEXT - 1))
          by (unfold buf_len in *; lia).
        rewrite !firstn_full_app by exact Hlen. reflexivity.
Qed.



(** A poll whose [read] gets a whole non-empty chunk scans that chunk. *)
Lemma posix_poll_chunk (chunk out : list ascii) (q : list stdin_event)
    (out_size : Z) (w : world) :
  w_stdin w = StdinBytes chunk :: q -> chunk <> [] -> len chunk <= 128 ->
  stdin_poll_line_posix out out_size w
  = stdin_poll_line_posix_loop chunk out out_size (set_stdin q w).
Proof.
  intros Hs Hne Hl. unfold stdin_poll_line_posix, read_stdin. rewrite Hs.
  unfold len in Hl.
  rewrite firstn_all2 by lia. rewrite skipn_all2 by lia.
  assert (0 < Z.of_nat (List.length chunk))
    by (destruct chunk; [congruence | cbn [List.length]; lia]).
  replace (Z.of_nat (List.length chunk) <? 0) with false
    by (symmetry; apply Z.ltb_ge; lia).
  replace (Z.of_nat (List.length chunk) =? 0) with false
    by (symmetry; apply Z.eqb_neq; lia).
  reflexivity.
Qed.

Lemma strip_cr_length (l : list ascii) :
  (List.length (strip_cr l) <= List.length l)%nat.
Proof. apply filter_length_le. Qed.

(** X9: a line typed in two pieces is put together.  When one [read]
    delivers [a] (no newline) and the next delivers [b] followed by a
    newline, the first poll returns 0 and the second returns 1 with the
    line [a ++ b] without its CRs; accumulator and stream are then
    consumed. *)
Theorem posix_line_across_polls (a b out : list ascii)
    (q : list stdin_event) (w : world) :
  w_stdin w = StdinBytes a :: StdinBytes (b ++ [LF]) :: q ->
  w_buf w = [] -> a <> [] -> len a <= 128 -> len b + 1 <= 128 ->
  lacks LF a = true -> lacks LF b = true ->
  let '((r1, l1), w1) := stdin_poll_line_posix out MAX_TEXT w in
  let '((r2, l2), w2) := stdin_poll_line_posix l1 MAX_TEXT w1 in
  r1 = 0 /\ l1 = out /\
  r2 = 1 /\ l2 = c_str (strip_cr (a ++ b)) /\
  w_buf w2 = [] /\ w_stdin w2 = q.
Proof.
  intros Hs Hb Hne Hla Hlb Hna Hnb.
  rewrite (posix_poll_chunk a out _ MAX_TEXT w Hs Hne Hla).
  set (wa := set_stdin (StdinBytes (b ++ [LF]) :: q) w).
  assert (Hba : buf_len wa <= MAX_TEXT - 1)
    by (unfold buf_len, wa; cbn [set_stdin w_buf]; rewrite Hb; cbn; lia).
  destruct (posix_loop_accumulates a out MAX_TEXT wa Hna Hba) as [F1 B1].
  destruct (posix_loop_footprint a out MAX_TEXT wa) as (_ & _ & S1 & _).
  destruct (stdin_poll_line_posix_loop a out MAX_TEXT wa) as [[r1 l1] w1].
  cbn [fst snd] in *. injection F1 as -> ->.
  unfold wa in B1, S1. cbn [set_stdin w_buf w_stdin] in B1, S1.
  rewrite Hb in B1. cbn [app] in B1.
  pose proof (strip_cr_length a) as La. pose proof (strip_cr_length b) as Lb.
  unfold len in *.
  rewrite firstn_all2 in B1 by (unfold MAX_TEXT; lia).
  assert (Hne2 : b ++ [LF] <> []) by (destruct b; discriminate).
  rewrite (posix_poll_chunk (b ++ [LF]) out q MAX_TEXT w1 S1 Hne2)
    by (unfold len; rewrite length_app; cbn [List.length]; lia).
  set (wb := set_stdin q w1).
  assert (Hbb : buf_len wb <= MAX_TEXT - 1).
  { unfold buf_len, wb. cbn [set_stdin w_buf]. rewrite B1.
    unfold MAX_TEXT. lia. }
  destruct (posix_loop_completes b [] out MAX_TEXT wb Hnb Hbb) as [F2 B2].
  destruct (posix_loop_footprint (b ++ [LF]) out MAX_TEXT wb)
    as (_ & _ & S2 & _).
  destruct (stdin_poll_line_posix_loop (b ++ [LF]) out MAX_TEXT wb)
    as [[r2 l2] w2].
  cbn [fst snd] in *.
  assert (R2 : r2 = 1) by congruence.
  assert (L2 : l2 = snprintf_s MAX_TEXT
                      (firstn (Z.to_nat (MAX_TEXT - 1))
                              (w_buf wb ++ strip_cr b))) by congruence.
  clear F2. subst r2 l2.
  unfold wb in *. cbn [set_stdin w_buf w_stdin] in *.
  repeat split; auto.
  rewrite B1. unfold snprintf_s, strip_cr. rewrite filter_app.
  fold (strip_cr a). fold (strip_cr b).
  rewrite (firstn_all2 (n := Z.to_nat (MAX_TEXT - 1))
             (strip_cr a ++ strip_cr b))
    by (rewrite length_app; unfold MAX_TEXT; lia).
  apply firstn_all2.
  pose proof (length_c_str_le (strip_cr a ++ strip_cr b)) as Lc.
  rewrite length_app in Lc. unfold MAX_TEXT. lia.
Qed.

Lemma posix_line_across_polls_witness :
  let w := set_stdin [StdinBytes (lit "hel");
                      StdinBytes (lit "lo" ++ [CR] ++ [LF])] idle_world in
  let '((r1, l1), w1) := stdin_poll_line_posix [] MAX_TEXT w in
  let '((r2, l2), w2) := stdin_poll_line_posix l1 MAX_TEXT w1 in
  r1 = 0 /\ l1 = [] /\
  r2 = 1 /\ l2 = c_str (strip_cr (lit "hel" ++ (lit "lo" ++ [CR]))) /\
  w_buf w2 = [] /\ w_stdin w2 = [].
Proof.
  apply (posix_line_across_polls (lit "hel") (lit "lo" ++ [CR]) [] []
           (set_stdin [StdinBytes (lit "hel");
                       StdinBytes (lit "lo" ++ [CR] ++ [LF])] idle_world));
    try reflexivity; try discriminate; vm_compute; congruence.
Defined.

Lemma quiet_iteration (nick : list ascii) (dest : sockaddr_in) (w : world) :
  forallb quiet_event (w_stdin w) = true ->
  exists w' evs,
    main_iteration Posix nick dest w = Some (Running, w') /\
    forallb quiet_event (w_stdin w') = true /\
    w_buf w' = w_buf w /\
    extends w w' evs /\
    (forall p d r, ~ In (EvSendto p d r) evs).
Proof.
  intros Hq. unfold main_iteration.
  destruct (drain_total Posix w) as (w1 & evs1 & Hd & Hsi & _ & Hext & Hin).
  rewrite Hd. destruct Hsi as (Hs1 & _ & _ & Hb1).
  rewrite Hs1 in Hq.
  assert (Hno : forall p d r, ~ In (EvSendto p d r) evs1).
  { intros p d r Hi.
    assert (In (EvSendto p d r) (filter is_input_event evs1))
      by (apply filter_In; split; [exact Hi | reflexivity]).
    rewrite Hin in H. contradiction. }
  assert (Hfin : forall w2, w_stdin w2 = tl (w_stdin w1) \/ w_stdin w2 = w_stdin w1 ->
                 w_buf w2 = w_buf w1 -> w_trace w2 = w_trace w1 ->
                 exists w' evs,
                   Some (Running, tiny_sleep_ms 10 (log [EvStdinPoll 0] w2))
                   = Some (Running, w') /\
                   forallb quiet_event (w_stdin w') = true /\
                   w_buf w' = w_buf w /\ extends w w' evs /\
                   (forall p d r, ~ In (EvSendto p d r) evs)).
  { intros w2 Hs2 Hb2 Ht2.
    exists (tiny_sleep_ms 10 (log [EvStdinPoll 0] w2)),
      (evs1 ++ [EvStdinPoll 0; EvSleep 10]).
    split; [reflexivity|]. cbn [tiny_sleep_ms Z.leb Z.compare log w_stdin w_buf].
    split.
    { destruct Hs2 as [-> | ->]; [|exact Hq].
      destruct (w_stdin w1); [reflexivity|].
      cbn [forallb tl] in *. apply andb_true_iff in Hq. apply Hq. }
    split; [congruence|]. split.
    { unfold extends in *. cbn [w_trace log].
      rewrite Ht2, Hext, <- !app_assoc. reflexivity. }
    intros p d r Hi. apply in_app_or in Hi. destruct Hi as [Hi|Hi].
    - exact (Hno p d r Hi).
    - cbn in Hi. destruct Hi as [Hi|[Hi|[]]]; discriminate. }
  unfold input_phase, stdin_poll_line_posix, read_stdin.
  destruct (w_stdin w1) as [|[[|c bytes]|e] q] eqn:E1.
  - cbn. apply Hfin; cbn; auto.
  - cbn. apply Hfin; cbn; auto.
  - cbn in Hq. discriminate.
  - cbn [forallb quiet_event would_block_code] in Hq.
    apply andb_true_iff in Hq. destruct Hq as [He Hq].
    cbn [w_errno set_errno set_stdin]. rewrite He.
    cbn. apply Hfin; cbn; auto.
Qed.

(** X10: end of input does not end the loop on the POSIX build.  While
    every [read] reports end of input (0 bytes) or would-block, the loop
    is still Running after any number of passes, whatever arrives on the
    socket; the accumulator is untouched and nothing is sent. *)
Theorem posix_eof_never_exits (nick : list ascii) (dest : sockaddr_in)
    (n : nat) (w : world) :
  forallb quiet_event (w_stdin w) = true ->
  exists w' evs,
    main_loop Posix nick dest n w = Some (Running, w') /\
    w_buf w' = w_buf w /\
    extends w w' evs /\
    (forall p d r, ~ In (EvSendto p d r) evs).
Proof.
  revert w. induction n as [|n IH]; intros w Hq.
  - exists w, []. split; [reflexivity|]. split; [reflexivity|].
    split; [apply extends_refl|]. intros p d r [].
  - cbn [main_loop].
    destruct (quiet_iteration nick dest w Hq)
      as (w1 & evs1 & Hit & Hq1 & Hb1 & Hext1 & Hno1).
    rewrite Hit.
    destruct (IH w1 Hq1) as (w' & evs & Hl & Hb & Hext & Hno).
    exists w', (evs1 ++ evs).
    split; [exact Hl|]. split; [congruence|].
    split; [eapply extends_trans; eassumption|].
    intros p d r Hi. apply in_app_or in Hi. destruct Hi as [Hi|Hi].
    + exact (Hno1 p d r Hi).
    + exact (Hno p d r Hi).
Qed.

Lemma posix_eof_never_exits_witness :
  exists w' evs,
    main_loop Posix (lit "me") (peer 255) 5
      (set_stdin [StdinBytes []; StdinError EAGAIN; StdinBytes []]
                 three_queued_world)
    = Some (Running, w') /\
    w_buf w'
    = w_buf (set_stdin [StdinBytes []; StdinError EAGAIN; StdinBytes []]
                       three_queued_world) /\
    extends (set_stdin [StdinBytes []; StdinError EAGAIN; StdinBytes []]
                       three_queued_world) w' evs /\
    (forall p d r, ~ In (EvSendto p d r) evs).
Proof.
  apply (posix_eof_never_exits (lit "me") (peer 255) 5
           (set_stdin [StdinBytes []; StdinError EAGAIN; StdinBytes []]
                      three_queued_world)).
  reflexivity.
Defined.

(* ------------------------------------------------------------------ *)
(** ** The accumulator never overflows *)






(* ------------------------------------------------------------------ *)
(** ** Line input, Win32 branch *)












Example win32_backspace_examples :
  fst (stdin_poll_line_win32 [] MAX_TEXT
         (set_keys (map uchar (lit "helo") ++ repeat 8 2 ++ [13]) idle_world))
  = (1, lit "he") /\
  fst (stdin_poll_line_win32 [] MAX_TEXT
         (set_keys (map uchar (lit "hi") ++ repeat 8 5 ++ [13]) idle_world))
  = (1, []).
Proof. split; reflexivity. Qed.

(* ------------------------------------------------------------------ *)
(** ** Line input, Human68k branch *)

Lemma fgets_split_line (n : nat) (pre more : list ascii) :
  lacks LF pre = true -> (List.length pre < n)%nat ->
  fgets_split n (pre ++ LF :: more) = (pre ++ [LF], more).
Proof.
  revert n. induction pre as [|c pre IH]; intros n Hl Hn.
  - destruct n; [cbn in Hn; lia|]. reflexivity.
  - destruct n; [cbn in Hn; lia|].
    unfold lacks in Hl. cbn [forallb] in Hl.
    apply andb_true_iff in Hl. destruct Hl as [Hc Hl].
    apply negb_true_iff in Hc.
    cbn [app fgets_split]. rewrite Hc.
    rewrite IH by (try exact Hl; cbn [List.length] in Hn; lia).
    reflexivity.
Qed.

Lemma drop_crlf_app (t r : list ascii) :
  forallb is_crlf t = true -> drop_crlf (t ++ r) = drop_crlf r.
Proof.
  induction t as [|c t IH]; intros H; [reflexivity|].
  cbn [forallb] in H. apply andb_true_iff in H. destruct H as [Hc Ht].
  cbn [app drop_crlf]. rewrite Hc. apply IH, Ht.
Qed.

(** [fgets] and the stripping loop on a terminated line. *)
Lemma fgets_line (body crs more : list ascii) (w : world) :
  w_stream w = body ++ crs ++ LF :: more ->
  c_string body -> lacks LF body = true -> ends_clean body = true ->
  forallb (fun c => Ascii.eqb c CR) crs = true ->
  len body + len crs + 1 <= MAX_TEXT - 1 ->
  exists w',
    fgets MAX_TEXT w = (Some (body ++ crs ++ [LF]), w') /\
    w_stream w' = more /\
    strip_trailing_crlf (body ++ crs ++ [LF]) = body.
Proof.
  intros Hs Hc Hl He Hcr Hlen.
  assert (Hcrl : lacks LF crs = true /\ forallb is_crlf crs = true /\
                 c_string crs).
  { clear - Hcr. unfold c_string, lacks.
    induction crs as [|c crs IH]; [auto|].
    cbn [forallb] in *. apply andb_true_iff in Hcr. destruct Hcr as [H1 H2].
    apply Ascii.eqb_eq in H1. subst c.
    destruct (IH H2) as (A & B & C).
    unfold lacks in A. unfold c_string, lacks in C. rewrite A, B, C.
    auto. }
  destruct Hcrl as (Hcl & Hcc & Hcn).
  unfold fgets. rewrite Hs.
  destruct (body ++ crs ++ LF :: more) as [|x xs] eqn:E.
  { destruct body; destruct crs; discriminate. }
  rewrite <- E. rewrite app_assoc.
  rewrite fgets_split_line.
  - eexists. split; [rewrite <- app_assoc; reflexivity|].
    split; [reflexivity|].
    unfold strip_trailing_crlf.
    rewrite c_str_id.
    + rewrite !rev_app_distr. cbn [rev app].
      change (drop_crlf (LF :: rev crs ++ rev body))
        with (drop_crlf (rev crs ++ rev body)).
      rewrite drop_crlf_app
        by (rewrite forallb_forall in *; intros y Hy;
            apply Hcc, in_rev, Hy).
      unfold ends_clean in He.
      destruct (rev body) as [|c r] eqn:Er.
      * apply (f_equal (@rev ascii)) in Er. rewrite rev_involutive in Er.
        subst body. reflexivity.
      * cbn [drop_crlf]. apply negb_true_iff in He. rewrite He.
        rewrite <- Er. apply rev_involutive.
    + unfold c_string in *. rewrite !lacks_app, Hc, Hcn. reflexivity.
  - rewrite lacks_app, Hl, Hcl. reflexivity.
  - unfold len, MAX_TEXT in *. rewrite length_app. lia.
Qed.

(** X14: reading a line on the Human68k build.  When standard input
    holds a body (no newline inside, not ending in CR or LF), then any
    number of CRs and a newline, [fgets] takes exactly that line and
    leaves what follows in the stream, and the trailing-CR/LF loop gives
    the body back. *)
Theorem human68k_reads_line (body crs more : list ascii) (w : world) :
  w_stream w = body ++ crs ++ LF :: more ->
  c_string body -> lacks LF body = true -> ends_clean body = true ->
  forallb (fun c => Ascii.eqb c CR) crs = true ->
  len body + len crs + 1 <= MAX_TEXT - 1 ->
  exists w',
    fgets MAX_TEXT w = (Some (body ++ crs ++ [LF]), w') /\
    w_stream w' = more /\
    strip_trailing_crlf (body ++ crs ++ [LF]) = body.
Proof. apply fgets_line. Qed.

Lemma human68k_reads_line_witness :
  exists w',
    fgets MAX_TEXT (set_stream (lit "hello" ++ [CR] ++ LF :: lit "next")
                               idle_world)
    = (Some (lit "hello" ++ [CR] ++ [LF]), w') /\
    w_stream w' = lit "next" /\
    strip_trailing_crlf (lit "hello" ++ [CR] ++ [LF]) = lit "hello".
Proof.
  apply (human68k_reads_line (lit "hello") [CR] (lit "next")
           (set_stream (lit "hello" ++ [CR] ++ LF :: lit "next") idle_world));
    try reflexivity. vm_compute. congruence.
Defined.

(* ------------------------------------------------------------------ *)
(** ** [udp_recvfrom_nb]: bounds and the Human68k read *)


(** A datagram larger than the receive buffer of [main]: the POSIX build
    gets its first 767 bytes, the Win32 build a failure (and the same
    bytes in the buffer). *)
Example oversized_datagram_is_cut :
  let w := set_rx [Datagram (peer 9) (repeat "x"%char 1000)] idle_world in
  (let '(r, w') :=
     udp_recvfrom_nb Posix (Some []) (MAX_PKT - 1) (Some blank_addr)
                     (Some SIZEOF_SOCKADDR_IN) w in
   rr_ret r = 767 /\ rr_buf r = Some (repeat "x"%char 767) /\ w_rx w' = []) /\
  (let '(r, w') :=
     udp_recvfrom_nb Win32 (Some []) (MAX_PKT - 1) (Some blank_addr)
                     (Some SIZEOF_SOCKADDR_IN) w in
   rr_ret r = -1 /\ rr_buf r = Some (repeat "x"%char 767) /\ w_rx w' = [] /\
   w_errno w' = WSAEMSGSIZE).
Proof. vm_compute. repeat split. Qed.

(** X16: on the Human68k build, once the availability query has reported
    data, a failing read is an error (-1) whatever the error code, also
    the one that means would-block on the other builds; the failure
    leaves the queue. *)
Theorem human68k_failed_read_is_error (buf : list ascii) (buf_size : Z)
    (from : sockaddr_in) (from_len : Z) (e : Z) (q : list sock_event)
    (w : world) :
  0 < buf_size -> w_sockopt_broken w = false -> w_rx w = RecvError e :: q ->
  let '(r, w') :=
    udp_recvfrom_nb Human68k (Some buf) buf_size (Some from) (Some from_len) w
  in
  rr_ret r = -1 /\ recv_status_of (rr_ret r) = IoError /\
  rr_buf r = Some buf /\ w_rx w' = q /\
  w_trace w' = w_trace w ++ [EvGetsockopt true; EvRecvfrom (-1)].
Proof.
  intros Hs Hb Hq. unfold udp_recvfrom_nb, getsockopt_socklenrecv, recvfrom.
  replace (buf_size <=? 0) with false by (symmetry; apply Z.leb_gt; lia).
  rewrite Hb, Hq. cbn [socklenrecv Z.leb Z.compare w_rx log].
  rewrite Hq. cbn. rewrite <- app_assoc. repeat split.
Qed.

Lemma human68k_failed_read_witness :
  let w := set_rx [RecvError EWOULDBLOCK] idle_world in
  let '(r, w') :=
    udp_recvfrom_nb Human68k (Some []) (MAX_PKT - 1) (Some blank_addr)
                    (Some SIZEOF_SOCKADDR_IN) w in
  rr_ret r = -1 /\ recv_status_of (rr_ret r) = IoError /\
  rr_buf r = Some [] /\ w_rx w' = [] /\
  w_trace w' = w_trace w ++ [EvGetsockopt true; EvRecvfrom (-1)].
Proof.
  apply (human68k_failed_read_is_error [] (MAX_PKT - 1) blank_addr
           SIZEOF_SOCKADDR_IN EWOULDBLOCK []
           (set_rx [RecvError EWOULDBLOCK] idle_world)); reflexivity.
Defined.

(* ------------------------------------------------------------------ *)
(** ** What a drain takes off the queue *)

Lemma udp_stop_queue (plat : platform) (w : world) :
  drain_stops plat (w_rx w) -> (plat = Human68k -> query_works w) ->
  w_rx (snd (udp_recvfrom_nb plat (Some []) (MAX_PKT - 1) (Some blank_addr)
               (Some SIZEOF_SOCKADDR_IN) w))
  = after_drain plat (w_rx w).
Proof.
  intros Hs Hacc.
  unfold udp_recvfrom_nb, getsockopt_socklenrecv, recvfrom.
  change (MAX_PKT - 1 <=? 0) with false. cbv iota.
  destruct plat.
  - destruct (w_rx w) as [|[from data|e] q] eqn:Eq.
    + cbn [Z.ltb Z.compare].
      destruct (_ =? _); cbn [snd w_rx log set_errno]; exact Eq.
    + destruct Hs as [-> | [_ Hl]].
      * reflexivity.
      * replace (MAX_PKT - 1 <? Z.of_nat (List.length data)) with true
          by (symmetry; apply Z.ltb_lt; exact Hl).
        cbn [Z.ltb Z.compare]. destruct (_ =? _); reflexivity.
    + cbn [Z.ltb Z.compare]. destruct (_ =? _); reflexivity.
  - destruct (w_rx w) as [|[from data|e] q] eqn:Eq.
    + cbn [Z.ltb Z.compare].
      destruct (_ || _); cbn [snd w_rx log set_errno]; exact Eq.
    + destruct Hs as [-> | [Hp _]]; [|discriminate Hp]. reflexivity.
    + cbn [Z.ltb Z.compare]. destruct (_ || _); reflexivity.
  - rewrite (Hacc eq_refl).
    destruct (w_rx w) as [|[from data|e] q] eqn:Eq.
    + cbn [socklenrecv Z.leb Z.compare snd w_rx log]. exact Eq.
    + destruct Hs as [-> | [Hp _]]; [|discriminate Hp].
      cbn [socklenrecv List.length Z.of_nat Z.leb Z.compare snd w_rx log
           after_drain]. exact Eq.
    + cbn [socklenrecv Z.leb Z.compare].
      cbn [w_rx log]. rewrite Eq. reflexivity.
Qed.

Lemma drain_loop_queue (plat : platform)
    (dgrams : list (sockaddr_in * list ascii)) (rest : list sock_event) :
  Forall (receivable plat) dgrams -> drain_stops plat rest ->
  forall (fuel : nat) (w w1 : world),
    w_rx w = queued dgrams ++ rest ->
    (plat = Human68k -> query_works w) ->
    drain_loop plat fuel w = Some w1 ->
    w_rx w1 = after_drain plat rest.
Proof.
  intros Hne Hstop. induction Hne as [|d ds Hd Hds IH];
    intros fuel w w1 Hrx Hacc Hrun;
    (destruct fuel as [|fuel]; [discriminate|]); cbn [drain_loop] in Hrun.
  - cbn [queued map app] in Hrx.
    assert (Hs : drain_stops plat (w_rx w)) by now rewrite Hrx.
    pose proof (udp_recv_stop plat w Hs Hacc) as Hle.
    pose proof (udp_stop_queue plat w Hs Hacc) as Hq.
    destruct (udp_recvfrom_nb _ _ _ _ _ w) as [r w0].
    cbn [fst snd] in *. rewrite Hrx in Hq.
    destruct (rr_ret r <? 0) eqn:Eneg.
    + injection Hrun as <-. exact Hq.
    + apply Z.ltb_ge in Eneg.
      replace (rr_ret r =? 0) with true in Hrun
        by (symmetry; apply Z.eqb_eq; lia).
      injection Hrun as <-. exact Hq.
  - cbn [queued map app] in Hrx.
    destruct (udp_recv_datagram plat (fst d) (snd d) _ w Hrx
                (proj1 Hd) (proj2 Hd) Hacc)
      as (w0 & evs & n & Hu & Hn & Hq & Hslr & Hext & Hr & _).
    rewrite Hu in Hrun. cbn [rr_ret rr_buf rr_from] in Hrun.
    replace (n <? 0) with false in Hrun by (symmetry; apply Z.ltb_ge; lia).
    replace (n =? 0) with false in Hrun by (symmetry; apply Z.eqb_neq; lia).
    eapply IH; [| |exact Hrun].
    + cbn [log w_rx]. exact Hq.
    + intros Hp. unfold query_works. cbn [log w_sockopt_broken].
      rewrite Hslr. apply Hacc, Hp.
Qed.

(** Prints and queue of a drain. *)
Lemma drain_prints_and_queue (plat : platform) (w : world)
    (dgrams : list (sockaddr_in * list ascii)) (rest : list sock_event) :
  w_rx w = queued dgrams ++ rest ->
  Forall (receivable plat) dgrams ->
  drain_stops plat rest ->
  (plat = Human68k -> query_works w) ->
  exists w1 pre,
    drain plat w = Some w1 /\
    w_rx w1 = after_drain plat rest /\
    extends w w1 pre /\
    filter is_render pre = map render_datagram dgrams.
Proof.
  intros Hrx Hne Hstop Hacc.
  destruct (drain_loop_renders plat dgrams rest Hne Hstop
              (S (List.length (w_rx w))) w Hrx Hacc ltac:(lia))
    as (w1 & pre & Hd & Hext & Hr).
  exists w1, pre. split; [exact Hd|]. split; [|auto].
  exact (drain_loop_queue plat dgrams rest Hne Hstop _ w w1 Hrx Hacc Hd).
Qed.

(** X17: what a drain consumes on the flag-based builds (Win32, POSIX).
    On a queue of datagrams that are received (non-empty, and on Win32
    fitting the buffer) followed by [rest] (empty, or headed by a zero-byte
    datagram, a receive failure or, on Win32, a datagram longer than the
    buffer), the drain prints exactly those datagrams and leaves [rest]
    without its head: the entry that ended the drain is consumed too, and
    never printed. *)
Theorem drain_consumes (plat : platform) (w : world)
    (dgrams : list (sockaddr_in * list ascii)) (rest : list sock_event) :
  plat <> Human68k ->
  w_rx w = queued dgrams ++ rest ->
  Forall (receivable plat) dgrams ->
  drain_stops plat rest ->
  exists w1 pre,
    drain plat w = Some w1 /\
    w_rx w1 = tl rest /\
    extends w w1 pre /\
    filter is_render pre = map render_datagram dgrams.
Proof.
  intros Hp Hrx Hne Hstop.
  destruct (drain_prints_and_queue plat w dgrams rest Hrx Hne Hstop
              ltac:(intros; contradiction))
    as (w1 & pre & Hd & Hq & Hext & Hr).
  exists w1, pre. repeat split; auto.
  rewrite Hq. destruct plat; [reflexivity | reflexivity | contradiction].
Qed.

Lemma drain_consumes_witness :
  exists w1 pre,
    drain Win32
      (set_rx (queued [(peer 1, lit "OM1|a|one")]
               ++ [Datagram (peer 2) []; Datagram (peer 3) (lit "x")])
              idle_world) = Some w1 /\
    w_rx w1 = tl [Datagram (peer 2) []; Datagram (peer 3) (lit "x")] /\
    extends (set_rx (queued [(peer 1, lit "OM1|a|one")]
                     ++ [Datagram (peer 2) []; Datagram (peer 3) (lit "x")])
                    idle_world) w1 pre /\
    filter is_render pre = map render_datagram [(peer 1, lit "OM1|a|one")].
Proof.
  apply (drain_consumes Win32
           (set_rx (queued [(peer 1, lit "OM1|a|one")]
                    ++ [Datagram (peer 2) []; Datagram (peer 3) (lit "x")])
                   idle_world)
           [(peer 1, lit "OM1|a|one")]
           [Datagram (peer 2) []; Datagram (peer 3) (lit "x")]).
  - discriminate.
  - reflexivity.
  - repeat constructor; [discriminate | intros _; vm_compute; discriminate].
  - left. reflexivity.
Defined.

(* ------------------------------------------------------------------ *)
(** ** From a typed line to a printed line *)

Lemma encode_wire (nick line : list ascii) :
  c_string nick -> len nick <= MAX_PKT - 1 - 5 - (MAX_TEXT - 1) ->
  c_string line ->
  let pkt := lit "OM1|" ++ nick ++ BAR ::
               firstn (Z.to_nat (MAX_TEXT - 1)) (strip_crlf line) in
  encode nick line = Some pkt /\ c_string pkt /\
  len pkt <= MAX_PKT - 1 /\ pkt <> [].
Proof.
  intros Hn Hl Hc. cbv zeta. unfold encode.
  rewrite format_packet_eq by (auto; unfold MAX_PKT; lia).
  set (body := firstn (Z.to_nat (MAX_TEXT - 1)) (strip_crlf line)).
  assert (Hb : (List.length body <= Z.to_nat (MAX_TEXT - 1))%nat)
    by apply firstn_le_length.
  assert (Hlen : len (lit "OM1|" ++ nick ++ BAR :: body) <= MAX_PKT - 1).
  { unfold len, MAX_PKT, MAX_TEXT in *. rewrite !length_app.
    cbn [List.length lit list_ascii_of_string]. lia. }
  rewrite firstn_all2 by (unfold len, MAX_PKT in *; lia).
  repeat split; auto; [|discriminate].
  apply wire_c_string; [exact Hn|].
  apply lacks_firstn, strip_crlf_c_string, Hc.
Qed.

(** X18: end to end.  When a session with a valid nick (non-empty, no
    separator, at most 31 bytes) sends a line, the datagram it hands to
    [sendto] is "OM1|nick|body" with the body the sanitized line; and a
    session that finds this datagram on its socket prints, in its drain,
    one chat line with the sender's address, that nick and that body. *)
Theorem chat_line_end_to_end (plat : platform) (nick line : list ascii)
    (dest from : sockaddr_in) (wA wB : world) :
  c_string nick -> nick <> [] -> lacks BAR nick = true ->
  len nick <= MAX_NICK - 1 -> c_string line ->
  (plat = Human68k -> query_works wB) ->
  exists pkt r,
    w_trace (send_line nick dest line wA)
    = w_trace wA ++ [EvSendto pkt dest r; EvPrompt] /\
    (w_rx wB = [Datagram from pkt] ->
     exists w1 pre,
       drain plat wB = Some w1 /\ w_rx w1 = [] /\
       extends wB w1 pre /\
       filter is_render pre
       = [EvChat (sin_addr from) nick
            (firstn (Z.to_nat (MAX_TEXT - 1)) (strip_crlf line))]).
Proof.
  intros Hn Hne Hbar Hln Hc Hq.
  assert (Hl251 : len nick <= MAX_PKT - 1 - 5 - (MAX_TEXT - 1))
    by (unfold MAX_NICK, MAX_PKT, MAX_TEXT in *; lia).
  destruct (encode_wire nick line Hn Hl251 Hc) as (He & Hcp & Hlp & Hnp).
  set (pkt := lit "OM1|" ++ nick ++ BAR ::
                firstn (Z.to_nat (MAX_TEXT - 1)) (strip_crlf line)) in *.
  exists pkt, (match w_tx wA with [] => len pkt | r :: _ => r end).
  split.
  - unfold send_line. unfold encode in He. rewrite He.
    unfold strlen. rewrite (c_str_id pkt Hcp).
    rewrite to_int_small
      by (unfold len, MAX_PKT, INT_MAX in *; lia).
    unfold sendto. rewrite Nat2Z.id, firstn_all.
    destruct (w_tx wA); cbn [log w_trace set_tx];
      rewrite <- app_assoc; reflexivity.
  - intros Hrx.
    assert (Hfa : Forall (receivable plat) [(from, pkt)])
      by (repeat constructor; [exact Hnp | intros _; exact Hlp]).
    destruct (drain_prints_and_queue plat wB [(from, pkt)] [] Hrx Hfa I Hq)
      as (w1 & pre & Hd & Hq1 & Hext & Hr).
    exists w1, pre. split; [exact Hd|]. split.
    { rewrite Hq1. destruct plat; reflexivity. }
    split; [exact Hext|]. rewrite Hr. cbn [map]. f_equal.
    unfold render_datagram, render_packet. cbn [fst snd].
    rewrite firstn_all2 by (unfold len in Hlp; lia).
    pose proof (decode_encode nick line Hn Hne Hbar Hl251 Hc) as Hdec.
    rewrite He in Hdec. unfold decode in Hdec. rewrite Hdec.
    rewrite firstn_all2 by (unfold len in Hln; lia).
    rewrite (c_str_id nick Hn).
    rewrite c_str_id; [reflexivity|].
    apply lacks_firstn, strip_crlf_c_string, Hc.
Qed.

Lemma chat_line_end_to_end_witness :
  exists pkt r,
    w_trace (send_line (lit "alice") (peer 255) (lit "hello") idle_world)
    = w_trace idle_world ++ [EvSendto pkt (peer 255) r; EvPrompt] /\
    (w_rx (set_rx [Datagram (peer 7) (lit "OM1|alice|hello")] idle_world)
     = [Datagram (peer 7) pkt] ->
     exists w1 pre,
       drain Posix (set_rx [Datagram (peer 7) (lit "OM1|alice|hello")]
                           idle_world) = Some w1 /\
       w_rx w1 = [] /\
       extends (set_rx [Datagram (peer 7) (lit "OM1|alice|hello")] idle_world)
               w1 pre /\
       filter is_render pre
       = [EvChat (sin_addr (peer 7)) (lit "alice")
            (firstn (Z.to_nat (MAX_TEXT - 1)) (strip_crlf (lit "hello")))]).
Proof.
  apply (chat_line_end_to_end Posix (lit "alice") (lit "hello") (peer 255)
           (peer 7) idle_world
           (set_rx [Datagram (peer 7) (lit "OM1|alice|hello")] idle_world));
    try reflexivity; try discriminate; vm_compute; congruence.
Defined.

(* ------------------------------------------------------------------ *)
(** ** What a completed line does (POSIX build) *)

Lemma strip_cr_id (l : list ascii) : lacks CR l = true -> strip_cr l = l.
Proof.
  unfold lacks, strip_cr. induction l as [|c l IH]; [reflexivity|].
  cbn [forallb filter]. intros H. apply andb_true_iff in H.
  destruct H as [Hc Hl]. rewrite Hc. f_equal. apply IH, Hl.
Qed.

Lemma posix_poll_whole_line (line out : list ascii) (q : list stdin_event)
    (w : world) :
  w_stdin w = StdinBytes (line ++ [LF]) :: q -> w_buf w = [] ->
  c_string line -> lacks LF line = true -> lacks CR line = true ->
  len line <= 127 ->
  exists w1,
    stdin_poll_line_posix out MAX_TEXT w = ((1, line), w1) /\
    w_buf w1 = [] /\ w_stdin w1 = q /\ w_trace w1 = w_trace w /\
    w_tx w1 = w_tx w.
Proof.
  intros Hs Hb Hc Hl Hr Hlen.
  assert (Hne : line ++ [LF] <> []) by (destruct line; discriminate).
  rewrite (posix_poll_chunk (line ++ [LF]) out q MAX_TEXT w Hs Hne)
    by (unfold len in *; rewrite length_app; cbn [List.length]; lia).
  set (w0 := set_stdin q w).
  assert (Hb0 : buf_len w0 <= MAX_TEXT - 1)
    by (unfold buf_len, w0; cbn [set_stdin w_buf]; rewrite Hb; cbn; lia).
  destruct (posix_loop_completes line [] out MAX_TEXT w0 Hl Hb0) as [F B].
  destruct (posix_loop_footprint (line ++ [LF]) out MAX_TEXT w0)
    as (_ & T & S & _ & _ & _ & _ & Tr).
  destruct (stdin_poll_line_posix_loop (line ++ [LF]) out MAX_TEXT w0)
    as [[r l] w1].
  cbn [fst snd] in *. exists w1.
  assert (Hline : snprintf_s MAX_TEXT
                    (firstn (Z.to_nat (MAX_TEXT - 1))
                            (w_buf w0 ++ strip_cr line)) = line).
  { unfold w0. cbn [set_stdin w_buf]. rewrite Hb. cbn [app].
    rewrite (strip_cr_id line Hr). unfold snprintf_s, len in *.
    rewrite (firstn_all2 (n := Z.to_nat (MAX_TEXT - 1)) line)
      by (unfold MAX_TEXT; lia).
    rewrite (c_str_id line Hc). apply firstn_all2. unfold MAX_TEXT. lia. }
  rewrite Hline in F.
  repeat split; auto. rewrite <- Hline in F. rewrite Hline in F.
  destruct (list_eq_dec ascii_dec l line) as [->|Hd];
    [f_equal; f_equal; congruence | congruence].
Qed.

(** X19: what the input phase does with a completed line on the POSIX
    build.  "/quit" ends the loop; "/help" prints the help and skips the
    sleep; an empty line only prints the prompt; every other line (one
    made of blanks too: nothing is trimmed) is sent once, as the packet
    [format_packet] makes of it, then prompt and sleep.  Nothing is sent
    in the first three cases. *)
Theorem posix_line_dispatch (nick line : list ascii) (dest : sockaddr_in)
    (q : list stdin_event) (w : world) :
  w_stdin w = StdinBytes (line ++ [LF]) :: q -> w_buf w = [] ->
  c_string line -> lacks LF line = true -> lacks CR line = true ->
  len line <= 127 ->
  exists st w' evs,
    input_phase Posix nick dest w = (st, w') /\
    w_trace w' = w_trace w ++ EvStdinPoll 1 :: evs /\
    w_stdin w' = q /\ w_buf w' = [] /\
    (line = lit "/quit" -> st = Terminating /\ evs = []) /\
    (line = lit "/help" -> st = Running /\ evs = [EvHelp; EvPrompt]) /\
    (line = [] -> st = Running /\ evs = [EvPrompt; EvSleep 10]) /\
    (line <> lit "/quit" -> line <> lit "/help" -> line <> [] ->
     st = Running /\
     exists pkt r,
       format_packet (Some []) MAX_PKT (Some nick) (Some line) = Some pkt /\
       evs = [EvSendto pkt dest r; EvPrompt; EvSleep 10]).
Proof.
  intros Hs Hb Hc Hl Hr Hlen.
  destruct (posix_poll_whole_line line [] q w Hs Hb Hc Hl Hr Hlen)
    as (w1 & Hp & Hb1 & Hs1 & Ht1 & Htx1).
  unfold input_phase. cbv beta iota. rewrite Hp.
  change (1 =? -2) with false. change (1 <? 0) with false.
  change (1 =? 1) with true. cbv iota.
  destruct (strcmp line (lit "/quit") =? 0) eqn:Eq;
    [apply Z.eqb_eq, strcmp_zero_iff in Eq
    | apply Z.eqb_neq in Eq; rewrite strcmp_zero_iff in Eq];
    rewrite (c_str_id line Hc) in Eq;
    change (c_str (lit "/quit")) with (lit "/quit") in Eq.
  { exists Terminating, (log [EvStdinPoll 1] w1), [].
    cbn [log w_trace w_stdin w_buf]. rewrite Ht1.
    repeat split; auto; intros; subst; try discriminate; congruence. }
  destruct (strcmp line (lit "/help") =? 0) eqn:Eh;
    [apply Z.eqb_eq, strcmp_zero_iff in Eh
    | apply Z.eqb_neq in Eh; rewrite strcmp_zero_iff in Eh];
    rewrite (c_str_id line Hc) in Eh;
    change (c_str (lit "/help")) with (lit "/help") in Eh.
  { exists Running, (log [EvHelp; EvPrompt] (log [EvStdinPoll 1] w1)),
      [EvHelp; EvPrompt].
    cbn [log w_trace w_stdin w_buf]. rewrite Ht1, <- app_assoc.
    repeat split; auto; intros; subst; try discriminate; congruence. }
  destruct line as [|c line].
  { cbn [hd is_nul negb]. change (Ascii.eqb NUL NUL) with true. cbv iota.
    exists Running,
      (tiny_sleep_ms 10 (log [EvPrompt] (log [EvStdinPoll 1] w1))),
      [EvPrompt; EvSleep 10].
    cbn [tiny_sleep_ms Z.leb Z.compare log w_trace w_stdin w_buf].
    rewrite Ht1, <- !app_assoc.
    repeat split; auto; intros; try discriminate; congruence. }
  assert (Hnz : is_nul c = false).
  { unfold c_string, lacks in Hc. cbn [forallb] in Hc.
    apply andb_true_iff in Hc. destruct Hc as [Hc _].
    apply negb_true_iff in Hc. exact Hc. }
  cbn [hd]. rewrite Hnz. cbn [negb].
  destruct (format_packet_bounded [] MAX_PKT (Some nick) (Some (c :: line)))
    as (pkt & Hf & Hlp & Hcp & _); [unfold MAX_PKT; lia|].
  unfold send_line. rewrite Hf.
  unfold strlen. rewrite (c_str_id pkt Hcp).
  rewrite to_int_small by (unfold len, MAX_PKT, INT_MAX in *; lia).
  unfold sendto. rewrite Nat2Z.id, firstn_all.
  cbn [log w_tx]. rewrite Htx1.
  destruct (w_tx w) as [|r t].
  - eexists Running, _, [EvSendto pkt dest (Z.of_nat (List.length pkt));
                         EvPrompt; EvSleep 10].
    split; [reflexivity|].
    cbn [tiny_sleep_ms Z.leb Z.compare log w_trace w_stdin w_buf].
    rewrite Ht1, <- !app_assoc.
    repeat split; auto; intros; try discriminate; try congruence.
    eexists _, _. split; reflexivity.
  - eexists Running, _, [EvSendto pkt dest r; EvPrompt; EvSleep 10].
    split; [reflexivity|].
    cbn [tiny_sleep_ms Z.leb Z.compare log w_trace w_stdin w_buf set_tx].
    rewrite Ht1, <- !app_assoc.
    repeat split; auto; intros; try discriminate; try congruence.
    eexists _, _. split; reflexivity.
Qed.

Lemma posix_line_dispatch_witness :
  exists st w' evs,
    input_phase Posix (lit "me") (peer 255)
      (set_stdin [StdinBytes (lit "   " ++ [LF])] idle_world) = (st, w') /\
    w_trace w'
    = w_trace (set_stdin [StdinBytes (lit "   " ++ [LF])] idle_world)
        ++ EvStdinPoll 1 :: evs /\
    w_stdin w' = [] /\ w_buf w' = [] /\
    (lit "   " = lit "/quit" -> st = Terminating /\ evs = []) /\
    (lit "   " = lit "/help" -> st = Running /\ evs = [EvHelp; EvPrompt]) /\
    (lit "   " = [] -> st = Running /\ evs = [EvPrompt; EvSleep 10]) /\
    (lit "   " <> lit "/quit" -> lit "   " <> lit "/help" -> lit "   " <> [] ->
     st = Running /\
     exists pkt r,
       format_packet (Some []) MAX_PKT (Some (lit "me")) (Some (lit "   "))
       = Some pkt /\
       evs = [EvSendto pkt (peer 255) r; EvPrompt; EvSleep 10]).
Proof.
  apply (posix_line_dispatch (lit "me") (lit "   ") (peer 255) []
           (set_stdin [StdinBytes (lit "   " ++ [LF])] idle_world));
    try reflexivity. vm_compute. congruence.
Defined.

(* ------------------------------------------------------------------ *)
(** ** Send-once mode *)

(** X20: send-once mode hands exactly one datagram to [sendto], the packet
    [format_packet] makes of nick and text, receives nothing, and exits
    with status 1 (after a report) when [sendto] returned a negative value,
    with status 0 otherwise. *)
Theorem send_once_exit_code (nick text : list ascii) (dest : sockaddr_in)
    (w : world) :
  Forall (fun r => -1 <= r <= INT_MAX) (w_tx w) ->
  let '(code, reported, w') := send_once_mode nick text dest w in
  exists pkt r,
    format_packet (Some []) MAX_PKT (Some nick) (Some text) = Some pkt /\
    w_trace w' = w_trace w ++ [EvSendto pkt dest r] /\
    w_rx w' = w_rx w /\
    (r < 0 -> code = 1 /\ reported = true) /\
    (0 <= r -> code = 0 /\ reported = false).
Proof.
  intros Htx. unfold send_once_mode.
  destruct (format_packet_bounded [] MAX_PKT (Some nick) (Some text))
    as (pkt & Hf & Hlp & Hcp & _); [unfold MAX_PKT; lia|].
  rewrite Hf. unfold strlen. rewrite (c_str_id pkt Hcp).
  rewrite to_int_small by (unfold len, MAX_PKT, INT_MAX in *; lia).
  unfold sendto. rewrite Nat2Z.id, firstn_all.
  destruct (w_tx w) as [|r t].
  - rewrite to_int_small by (unfold len, MAX_PKT, INT_MAX in *; lia).
    exists pkt, (Z.of_nat (List.length pkt)).
    cbn [log w_trace w_rx].
    replace (Z.of_nat (List.length pkt) <? 0) with false
      by (symmetry; apply Z.ltb_ge; lia).
    repeat split; auto; lia.
  - exists pkt, r. cbn [log w_trace w_rx set_tx].
    apply Forall_inv in Htx.
    destruct (Z.eq_dec r (-1)) as [->|Hr].
    + change (to_int (-1) <? 0) with true.
      repeat split; auto; lia.
    + rewrite to_int_small by lia.
      replace (r <? 0) with false by (symmetry; apply Z.ltb_ge; lia).
      repeat split; auto; lia.
Qed.

Lemma send_once_exit_code_witness :
  let '(code, reported, w') :=
    send_once_mode (lit "me") (lit "hello") (peer 255)
                   (set_tx [-1] idle_world) in
  exists pkt r,
    format_packet (Some []) MAX_PKT (Some (lit "me")) (Some (lit "hello"))
    = Some pkt /\
    w_trace w' = w_trace (set_tx [-1] idle_world)
                   ++ [EvSendto pkt (peer 255) r] /\
    w_rx w' = w_rx (set_tx [-1] idle_world) /\
    (r < 0 -> code = 1 /\ reported = true) /\
    (0 <= r -> code = 0 /\ reported = false).
Proof.
  apply (send_once_exit_code (lit "me") (lit "hello") (peer 255)
           (set_tx [-1] idle_world)).
  repeat constructor; vm_compute; congruence.
Defined.

(* ------------------------------------------------------------------ *)
(** ** Non-blocking mode and the status flags *)

Lemma set_nonblock_bits (flags : Z) (i : Z) :
  0 <= i ->
  Z.testbit (Z.lor flags O_NONBLOCK) i
  = if i =? 11 then true else Z.testbit flags i.
Proof.
  intros Hi. rewrite Z.lor_spec.
  change O_NONBLOCK with (2 ^ 11).
  rewrite Z.pow2_bits_eqb by lia.
  rewrite (Z.eqb_sym 11 i).
  destruct (i =? 11); [apply orb_true_r | apply orb_false_r].
Qed.

Lemma fcntl_next_flags (s : fd_state) :
  fd_flags (snd (fcntl_next s)) = fd_flags s.
Proof. unfold fcntl_next. destruct (fd_fail s); reflexivity. Qed.

(** X21: [stdin_make_nonblock_posix] on the POSIX build returns 0 exactly
    when both [fcntl] calls succeed; then the saved flags are the old
    ones, descriptor 0 has the [O_NONBLOCK] bit set and every other flag
    as before.  When it returns -1 the flags of the descriptor are
    unchanged. *)
Theorem stdin_make_nonblock_effect (old : Z) (s : fd_state) :
  0 <= fd_flags s ->
  let '(rc, saved, s') := stdin_make_nonblock_posix false (Some old) s in
  (rc = 0 \/ rc = -1) /\
  (rc = 0 <-> nth 0 (fd_fail s) false = false /\
              nth 1 (fd_fail s) false = false) /\
  (rc = 0 ->
   saved = Some (fd_flags s) /\
   forall i, 0 <= i ->
     Z.testbit (fd_flags s') i
     = if i =? 11 then true else Z.testbit (fd_flags s) i) /\
  (rc = -1 -> fd_flags s' = fd_flags s).
Proof.
  intros Hf. unfold stdin_make_nonblock_posix, fcntl_getfl, fcntl_setfl,
    fcntl_next.
  destruct s as [flags fails]. cbn [fd_flags fd_fail] in *.
  destruct fails as [|[|] [|[|] fails]]; cbn [fd_flags fd_fail nth];
    try (replace (flags <? 0) with false by (symmetry; apply Z.ltb_ge; lia));
    cbn [Z.ltb Z.compare fd_flags];
    repeat split; auto; try discriminate; try tauto;
    try (intros [? ?]; discriminate);
    try (intros _ i Hi; apply set_nonblock_bits; exact Hi);
    intros; try lia; try apply set_nonblock_bits; auto.
Qed.

Lemma stdin_make_nonblock_effect_witness :
  let s := mk_fd_state 2 [] in
  let '(rc, saved, s') := stdin_make_nonblock_posix false (Some (-1)) s in
  (rc = 0 \/ rc = -1) /\
  (rc = 0 <-> nth 0 (fd_fail s) false = false /\
              nth 1 (fd_fail s) false = false) /\
  (rc = 0 ->
   saved = Some (fd_flags s) /\
   forall i, 0 <= i ->
     Z.testbit (fd_flags s') i
     = if i =? 11 then true else Z.testbit (fd_flags s) i) /\
  (rc = -1 -> fd_flags s' = fd_flags s).
Proof.
  apply (stdin_make_nonblock_effect (-1) (mk_fd_state 2 [])).
  vm_compute. congruence.
Defined.

(** X22: around the loop, [main] saves the flags of standard input, makes
    it non-blocking and restores the saved flags on the way out.  The
    flags end as they began, whichever of the first two [fcntl] calls
    fails; only when both succeed and the restoring call fails is
    standard input left non-blocking. *)
Theorem stdin_flags_restored (s : fd_state) :
  0 <= fd_flags s ->
  let s' := stdin_around_loop false s in
  if negb (nth 0 (fd_fail s) false) && negb (nth 1 (fd_fail s) false)
     && nth 2 (fd_fail s) false
  then fd_flags s' = Z.lor (fd_flags s) O_NONBLOCK
  else fd_flags s' = fd_flags s.
Proof.
  intros Hf. unfold stdin_around_loop, stdin_make_nonblock_posix,
    stdin_restore_flags_posix, fcntl_getfl, fcntl_setfl, fcntl_next.
  destruct s as [flags fails]. cbn [fd_flags fd_fail] in *.
  assert (Hge : (flags >=? 0) = true) by (rewrite Z.geb_leb; apply Z.leb_le; lia).
  destruct fails as [|[|] [|[|] [|[|] fails]]];
    cbn [fd_flags fd_fail nth negb andb];
    try (replace (flags <? 0) with false by (symmetry; apply Z.ltb_ge; lia));
    cbn [Z.ltb Z.geb Z.compare fd_flags fd_fail snd negb andb];
    rewrite ?Hge; cbn [fd_flags fd_fail snd]; reflexivity.
Qed.

Lemma stdin_flags_restored_witness :
  let s := mk_fd_state 2 [false; true] in
  let s' := stdin_around_loop false s in
  if negb (nth 0 (fd_fail s) false) && negb (nth 1 (fd_fail s) false)
     && nth 2 (fd_fail s) false
  then fd_flags s' = Z.lor (fd_flags s) O_NONBLOCK
  else fd_flags s' = fd_flags s.
Proof.
  apply (stdin_flags_restored (mk_fd_state 2 [false; true])).
  vm_compute. congruence.
Defined.

(** X23: [sock_set_nonblock] on the Human68k build returns 0 and changes
    nothing (the socket stays blocking, which is why the receive polls
    the availability first); on the POSIX build a return of 0 means the
    [O_NONBLOCK] bit is set and all other flags are kept, and a return
    of -1 means the flags are unchanged. *)
Theorem sock_set_nonblock_effect (s : fd_state) :
  0 <= fd_flags s ->
  sock_set_nonblock true s = (0, s) /\
  (let '(rc, s') := sock_set_nonblock false s in
   (rc = 0 \/ rc = -1) /\
   (rc = 0 ->
    forall i, 0 <= i ->
      Z.testbit (fd_flags s') i
      = if i =? 11 then true else Z.testbit (fd_flags s) i) /\
   (rc = -1 -> fd_flags s' = fd_flags s)).
Proof.
  intros Hf. split; [reflexivity|].
  unfold sock_set_nonblock, fcntl_getfl, fcntl_setfl, fcntl_next.
  destruct s as [flags fails]. cbn [fd_flags fd_fail] in *.
  destruct fails as [|[|] [|[|] fails]]; cbn [fd_flags fd_fail];
    try (replace (flags <? 0) with false by (symmetry; apply Z.ltb_ge; lia));
    cbn [Z.ltb Z.compare fd_flags];
    repeat split; auto; try discriminate;
    intros; try lia; try apply set_nonblock_bits; auto.
Qed.

Lemma sock_set_nonblock_effect_witness :
  let s := mk_fd_state 2 [] in
  sock_set_nonblock true s = (0, s) /\
  (let '(rc, s') := sock_set_nonblock false s in
   (rc = 0 \/ rc = -1) /\
   (rc = 0 ->
    forall i, 0 <= i ->
      Z.testbit (fd_flags s') i
      = if i =? 11 then true else Z.testbit (fd_flags s) i) /\
   (rc = -1 -> fd_flags s' = fd_flags s)).
Proof.
  apply (sock_set_nonblock_effect (mk_fd_state 2 [])).
  vm_compute. congruence.
Defined.

(* ------------------------------------------------------------------ *)
(** ** Command-line arguments *)

Lemma parse_args_pair (atoi : list ascii -> Z) (a v : list ascii)
    (rest : list (list ascii)) (c : config) (k : opt_kind) :
  is_help a = false -> flag_kind a = Some k ->
  parse_args atoi (a :: v :: rest) c
  = parse_args atoi rest
      match k with
      | KNick => mk_config v (cfg_port c) (cfg_bcast_ip c) (cfg_send_once c)
      | KPort => mk_config (cfg_nick c) (atoi v) (cfg_bcast_ip c)
                           (cfg_send_once c)
      | KBcast => mk_config (cfg_nick c) (cfg_port c) v (cfg_send_once c)
      | KSend => mk_config (cfg_nick c) (cfg_port c) (cfg_bcast_ip c) (Some v)
      end.
Proof.
  unfold is_help, flag_kind. intros Hh Hk. cbn [parse_args]. rewrite Hh.
  destruct (arg_is a "--nick" || arg_is a "-n");
    [injection Hk as <-; reflexivity|].
  destruct (arg_is a "--port" || arg_is a "-p");
    [injection Hk as <-; reflexivity|].
  destruct (arg_is a "--broadcast" || arg_is a "-b");
    [injection Hk as <-; reflexivity|].
  destruct (arg_is a "--send"); [injection Hk as <-; reflexivity|].
  discriminate.
Qed.

(** X24: a command line made of flag/value pairs only is accepted, each
    value is taken as it stands (also when it looks like a flag), and for
    every option the value given last wins; an option not given keeps the
    setting it had. *)
Theorem parse_args_last_wins (atoi : list ascii -> Z)
    (pairs : list (list ascii * list ascii)) (c : config) :
  forallb option_pair pairs = true ->
  exists c',
    parse_args atoi (spell pairs) c = ArgsOk c' /\
    cfg_nick c'
    = match last_opt KNick pairs with Some v => v | None => cfg_nick c end /\
    cfg_port c'
    = match last_opt KPort pairs with
      | Some v => atoi v | None => cfg_port c end /\
    cfg_bcast_ip c'
    = match last_opt KBcast pairs with
      | Some v => v | None => cfg_bcast_ip c end /\
    cfg_send_once c'
    = match last_opt KSend pairs with
      | Some v => Some v | None => cfg_send_once c end.
Proof.
  revert c. induction pairs as [|[a v] ps IH]; intros c Hw.
  - exists c. repeat split.
  - cbn [forallb] in Hw. apply andb_true_iff in Hw. destruct Hw as [Hp Hw].
    unfold option_pair in Hp. cbn [fst] in Hp.
    apply andb_true_iff in Hp. destruct Hp as [Hh Hk].
    apply negb_true_iff in Hh.
    destruct (flag_kind a) as [k|] eqn:Ek; [|discriminate].
    cbn [spell flat_map fst snd app]. fold (spell ps).
    rewrite (parse_args_pair atoi a v (spell ps) c k Hh Ek).
    match goal with
    | |- context [parse_args atoi (spell ps) ?c0] =>
        destruct (IH c0 Hw) as (c' & Hr & Hn & Hpo & Hb & Hs)
    end.
    exists c'. split; [exact Hr|].
    cbn [last_opt fst snd]. rewrite Ek.
    rewrite Hn, Hpo, Hb, Hs.
    destruct k; cbn [same_kind cfg_nick cfg_port cfg_bcast_ip cfg_send_once];
      destruct (last_opt KNick ps), (last_opt KPort ps),
        (last_opt KBcast ps), (last_opt KSend ps); repeat split.
Qed.

Lemma parse_args_last_wins_witness :
  exists c',
    parse_args (fun _ => 4000)
      (spell [(lit "--nick", lit "bob"); (lit "-p", lit "4000");
              (lit "-n", lit "--help")]) default_config = ArgsOk c' /\
    cfg_nick c'
    = match last_opt KNick [(lit "--nick", lit "bob"); (lit "-p", lit "4000");
                            (lit "-n", lit "--help")]
      with Some v => v | None => cfg_nick default_config end /\
    cfg_port c'
    = match last_opt KPort [(lit "--nick", lit "bob"); (lit "-p", lit "4000");
                            (lit "-n", lit "--help")]
      with Some v => (fun _ => 4000) v | None => cfg_port default_config end /\
    cfg_bcast_ip c'
    = match last_opt KBcast [(lit "--nick", lit "bob"); (lit "-p", lit "4000");
                             (lit "-n", lit "--help")]
      with Some v => v | None => cfg_bcast_ip default_config end /\
    cfg_send_once c'
    = match last_opt KSend [(lit "--nick", lit "bob"); (lit "-p", lit "4000");
                            (lit "-n", lit "--help")]
      with Some v => Some v | None => cfg_send_once default_config end.
Proof.
  apply (parse_args_last_wins (fun _ => 4000)
           [(lit "--nick", lit "bob"); (lit "-p", lit "4000");
            (lit "-n", lit "--help")] default_config).
  reflexivity.
Defined.

(** X25: how a command line is refused.  After any number of flag/value
    pairs, "--help" or "-h" ends the parse with status 0; an argument that
    is no flag, or a flag with no value after it, ends it with status 1
    and is the argument named in the message.  In both cases what follows
    is not looked at and no settings come back. *)
Theorem parse_args_stops (atoi : list ascii -> Z)
    (pairs : list (list ascii * list ascii)) (a : list ascii)
    (rest : list (list ascii)) (c : config) :
  forallb option_pair pairs = true ->
  (is_help a = true ->
   parse_args atoi (spell pairs ++ a :: rest) c = ArgsExit 0 None) /\
  (is_help a = false -> flag_kind a = None ->
   parse_args atoi (spell pairs ++ a :: rest) c = ArgsExit 1 (Some a)) /\
  (is_help a = false ->
   parse_args atoi (spell pairs ++ [a]) c = ArgsExit 1 (Some a)).
Proof.
  revert c. induction pairs as [|[f v] ps IH]; intros c Hw.
  - cbn [spell flat_map app]. unfold is_help, flag_kind.
    repeat split.
    + intros Hh. cbn [parse_args]. rewrite Hh. reflexivity.
    + intros Hh Hk. cbn [parse_args]. rewrite Hh.
      destruct rest as [|v rest]; [reflexivity|].
      destruct (arg_is a "--nick" || arg_is a "-n"); [discriminate|].
      destruct (arg_is a "--port" || arg_is a "-p"); [discriminate|].
      destruct (arg_is a "--broadcast" || arg_is a "-b"); [discriminate|].
      destruct (arg_is a "--send"); [discriminate|]. reflexivity.
    + intros Hh. cbn [parse_args]. rewrite Hh. reflexivity.
  - cbn [forallb] in Hw. apply andb_true_iff in Hw. destruct Hw as [Hp Hw].
    unfold option_pair in Hp. cbn [fst] in Hp.
    apply andb_true_iff in Hp. destruct Hp as [Hh Hk].
    apply negb_true_iff in Hh.
    destruct (flag_kind f) as [k|] eqn:Ek; [|discriminate].
    cbn [spell flat_map fst snd app]. fold (spell ps).
    rewrite !(parse_args_pair atoi f v _ c k Hh Ek).
    apply IH, Hw.
Qed.

Lemma parse_args_stops_witness :
  (is_help (lit "--nick") = true ->
   parse_args (fun _ => 0)
     (spell [(lit "-p", lit "1")] ++ lit "--nick" :: []) default_config
   = ArgsExit 0 None) /\
  (is_help (lit "--nick") = false -> flag_kind (lit "--nick") = None ->
   parse_args (fun _ => 0)
     (spell [(lit "-p", lit "1")] ++ lit "--nick" :: []) default_config
   = ArgsExit 1 (Some (lit "--nick"))) /\
  (is_help (lit "--nick") = false ->
   parse_args (fun _ => 0)
     (spell [(lit "-p", lit "1")] ++ [lit "--nick"]) default_config
   = ArgsExit 1 (Some (lit "--nick"))).
Proof.
  apply (parse_args_stops (fun _ => 0) [(lit "-p", lit "1")] (lit "--nick")
           [] default_config).
  reflexivity.
Defined.

(* ------------------------------------------------------------------ *)
(** ** What is printed for a received buffer *)

(** X26: every received buffer is printed one way or the other.  If its
    C string is "OM1|" ++ nick ++ "|" ++ text with a non-empty nick free of
    the separator, the drain prints a chat line with the nick cut to 31
    and the text cut to 511 bytes; in every other case it prints the raw
    C string. *)
Theorem render_packet_prints (addr : Z) (buf : list ascii) :
  len buf <= INT_MAX ->
  (exists nick text,
      c_str buf = lit "OM1|" ++ nick ++ BAR :: text /\
      nick <> [] /\ lacks BAR nick = true /\
      render_packet addr buf
      = EvChat addr (firstn (Z.to_nat (MAX_NICK - 1)) nick)
                    (firstn (Z.to_nat (MAX_TEXT - 1)) text)) \/
  ((forall nick text,
       c_str buf = lit "OM1|" ++ nick ++ BAR :: text ->
       lacks BAR nick = true -> nick = []) /\
   render_packet addr buf = EvRaw addr (c_str buf)).
Proof.
  intros Hlen. unfold render_packet.
  destruct (parse_packet_cases buf [] [] MAX_NICK MAX_TEXT)
    as [E | (nick & text & Hc & Hne & Hb & E)];
    try (unfold MAX_NICK, MAX_TEXT; lia); try exact Hlen.
  - right. rewrite E. split; [|reflexivity].
    intros nick text Hc Hb.
    destruct nick as [|x nick]; [reflexivity|]. exfalso.
    rewrite (parse_packet_wire buf (x :: nick) text [] [] MAX_NICK MAX_TEXT)
      in E; auto; try discriminate;
      unfold MAX_NICK, MAX_TEXT; lia.
  - left. exists nick, text. rewrite E.
    pose proof (c_str_lacks_nul buf) as Hz. rewrite Hc in Hz.
    unfold c_string in Hz. rewrite !lacks_app in Hz.
    apply andb_true_iff in Hz. destruct Hz as [_ Hz].
    apply andb_true_iff in Hz. destruct Hz as [Hzn Hzt].
    unfold lacks in Hzt. cbn [forallb] in Hzt.
    apply andb_true_iff in Hzt. destruct Hzt as [_ Hzt].
    repeat split; auto.
    rewrite !c_str_id by (apply lacks_firstn; assumption).
    reflexivity.
Qed.

Lemma render_packet_prints_witness :
  (exists nick text,
      c_str (lit "hello?") = lit "OM1|" ++ nick ++ BAR :: text /\
      nick <> [] /\ lacks BAR nick = true /\
      render_packet 7 (lit "hello?")
      = EvChat 7 (firstn (Z.to_nat (MAX_NICK - 1)) nick)
                 (firstn (Z.to_nat (MAX_TEXT - 1)) text)) \/
  ((forall nick text,
       c_str (lit "hello?") = lit "OM1|" ++ nick ++ BAR :: text ->
       lacks BAR nick = true -> nick = []) /\
   render_packet 7 (lit "hello?") = EvRaw 7 (c_str (lit "hello?"))).
Proof.
  apply (render_packet_prints 7 (lit "hello?")). vm_compute. congruence.
Defined.

(* ------------------------------------------------------------------ *)
(** ** What a line does (Human68k build) *)

(** X27: the input phase of the Human68k build on a terminated line (as in
    X14): "/quit" ends the loop; "/help" prints the help and an empty line
    prints the prompt, both without the sleep; every other line is sent
    once as the packet [format_packet] makes of it, then prompt and
    sleep.  What follows the line stays in the stream. *)
Theorem human68k_line_dispatch (nick body crs more : list ascii)
    (dest : sockaddr_in) (w : world) :
  w_stream w = body ++ crs ++ LF :: more ->
  c_string body -> lacks LF body = true -> ends_clean body = true ->
  forallb (fun c => Ascii.eqb c CR) crs = true ->
  len body + len crs + 1 <= MAX_TEXT - 1 ->
  exists st w' evs,
    input_phase Human68k nick dest w = (st, w') /\
    w_trace w' = w_trace w ++ EvFgets true :: evs /\
    w_stream w' = more /\
    (body = lit "/quit" -> st = Terminating /\ evs = []) /\
    (body = lit "/help" -> st = Running /\ evs = [EvHelp; EvPrompt]) /\
    (body = [] -> st = Running /\ evs = [EvPrompt]) /\
    (body <> lit "/quit" -> body <> lit "/help" -> body <> [] ->
     st = Running /\
     exists pkt r,
       format_packet (Some []) MAX_PKT (Some nick) (Some body) = Some pkt /\
       evs = [EvSendto pkt dest r; EvPrompt; EvSleep 10]).
Proof.
  intros Hs Hc Hl He Hcr Hlen.
  destruct (fgets_line body crs more w Hs Hc Hl He Hcr Hlen)
    as (w1 & Hf & Hs1 & Hstrip).
  assert (Ht1 : w_trace w1 = w_trace w /\ w_tx w1 = w_tx w).
  { unfold fgets in Hf. destruct (w_stream w); [discriminate|].
    destruct (fgets_split _ _). injection Hf as _ <-. split; reflexivity. }
  destruct Ht1 as [Ht1 Htx1].
  unfold input_phase. rewrite Hf. cbv beta iota zeta. rewrite Hstrip.
  destruct (strcmp body (lit "/quit") =? 0) eqn:Eq;
    [apply Z.eqb_eq, strcmp_zero_iff in Eq
    | apply Z.eqb_neq in Eq; rewrite strcmp_zero_iff in Eq];
    rewrite (c_str_id body Hc) in Eq;
    change (c_str (lit "/quit")) with (lit "/quit") in Eq.
  { exists Terminating, (log [EvFgets true] w1), [].
    cbn [log w_trace w_stream]. rewrite Ht1.
    repeat split; auto; intros; subst; try discriminate; congruence. }
  destruct (strcmp body (lit "/help") =? 0) eqn:Eh;
    [apply Z.eqb_eq, strcmp_zero_iff in Eh
    | apply Z.eqb_neq in Eh; rewrite strcmp_zero_iff in Eh];
    rewrite (c_str_id body Hc) in Eh;
    change (c_str (lit "/help")) with (lit "/help") in Eh.
  { exists Running, (log [EvHelp; EvPrompt] (log [EvFgets true] w1)),
      [EvHelp; EvPrompt].
    cbn [log w_trace w_stream]. rewrite Ht1, <- app_assoc.
    repeat split; auto; intros; subst; try discriminate; congruence. }
  destruct body as [|c body].
  { cbn [hd is_nul]. change (Ascii.eqb NUL NUL) with true. cbv iota.
    exists Running, (log [EvPrompt] (log [EvFgets true] w1)), [EvPrompt].
    cbn [log w_trace w_stream]. rewrite Ht1, <- !app_assoc.
    repeat split; auto; intros; try discriminate; congruence. }
  assert (Hnz : is_nul c = false).
  { unfold c_string, lacks in Hc. cbn [forallb] in Hc.
    apply andb_true_iff in Hc. destruct Hc as [Hc _].
    apply negb_true_iff in Hc. exact Hc. }
  cbn [hd]. rewrite Hnz.
  destruct (format_packet_bounded [] MAX_PKT (Some nick) (Some (c :: body)))
    as (pkt & Hfp & Hlp & Hcp & _); [unfold MAX_PKT; lia|].
  unfold send_line. rewrite Hfp.
  unfold strlen. rewrite (c_str_id pkt Hcp).
  rewrite to_int_small by (unfold len, MAX_PKT, INT_MAX in *; lia).
  unfold sendto. rewrite Nat2Z.id, firstn_all.
  cbn [log w_tx]. rewrite Htx1.
  destruct (w_tx w) as [|r t].
  - eexists Running, _, [EvSendto pkt dest (Z.of_nat (List.length pkt));
                         EvPrompt; EvSleep 10].
    split; [reflexivity|].
    cbn [tiny_sleep_ms Z.leb Z.compare log w_trace w_stream].
    rewrite Ht1, <- !app_assoc.
    repeat split; auto; intros; try discriminate; try congruence.
    eexists _, _. split; reflexivity.
  - eexists Running, _, [EvSendto pkt dest r; EvPrompt; EvSleep 10].
    split; [reflexivity|].
    cbn [tiny_sleep_ms Z.leb Z.compare log w_trace w_stream set_tx].
    rewrite Ht1, <- !app_assoc.
    repeat split; auto; intros; try discriminate; try congruence.
    eexists _, _. split; reflexivity.
Qed.

Lemma human68k_line_dispatch_witness :
  exists st w' evs,
    input_phase Human68k (lit "me") (peer 255)
      (set_stream (lit "/help" ++ [CR] ++ LF :: lit "next") idle_world)
    = (st, w') /\
    w_trace w'
    = w_trace (set_stream (lit "/help" ++ [CR] ++ LF :: lit "next") idle_world)
        ++ EvFgets true :: evs /\
    w_stream w' = lit "next" /\
    (lit "/help" = lit "/quit" -> st = Terminating /\ evs = []) /\
    (lit "/help" = lit "/help" -> st = Running /\ evs = [EvHelp; EvPrompt]) /\
    (lit "/help" = [] -> st = Running /\ evs = [EvPrompt]) /\
    (lit "/help" <> lit "/quit" -> lit "/help" <> lit "/help" ->
     lit "/help" <> [] ->
     st = Running /\
     exists pkt r,
       format_packet (Some []) MAX_PKT (Some (lit "me")) (Some (lit "/help"))
       = Some pkt /\
       evs = [EvSendto pkt (peer 255) r; EvPrompt; EvSleep 10]).
Proof.
  apply (human68k_line_dispatch (lit "me") (lit "/help") [CR] (lit "next")
           (peer 255)
           (set_stream (lit "/help" ++ [CR] ++ LF :: lit "next") idle_world));
    try reflexivity. vm_compute. congruence.
Defined.
